(** * White-piegon: SKU parsing, identity normalisation, row grouping and
      image resolution of the WooCommerce product sync

    A shallow embedding of [config.py], [image_mapping.py] and, of
    [sync_products_v2.py], the grouping of the rows, the projection of a
    group to a product, the loop of the run and the variations of a product.
    The calls to the store are parameters: what they answer is not modelled,
    only what the program does with the answers.

    Conventions of the embedding:
    - Python text is a Stdlib [string]; the character set is the 7-bit part
      of it (code points below 128), on which [str.isspace], [str.upper],
      [\s], [\d], [[A-Z]] and [.] are modelled exactly.  Code points from 128
      on are carried as opaque symbols (no space, no letter, no digit).
    - A spreadsheet cell or function argument is a [value]: [None], the float
      NaN of an empty cell, a text or an integer.  Other floats are left out
      (their [str()] is floating-point formatting); [clean_price], which needs
      them, is a parameter of the grouping.
    - The regular expressions are kept as syntax and run by one backtracking
      matcher with Python's priorities (greedy and lazy repetition, groups).
    - A [dict] is an association list in insertion order. *)

From Stdlib Require Import String Ascii List ZArith Lia Bool Arith.
From Stdlib Require Import DecimalString.
Import ListNotations.
Open Scope string_scope.
Open Scope nat_scope.

Set Implicit Arguments.

(* ================================================================== *)
(** * Python text primitives *)
(* ================================================================== *)

Module Py.

(** [str.isspace] on 7-bit characters: TAB, LF, VT, FF, CR, FS, GS, RS, US
    and the blank. *)
Definition is_space (c : ascii) : bool :=
  let n := nat_of_ascii c in
  ((9 <=? n) && (n <=? 13)) || ((28 <=? n) && (n <=? 32)).

Definition is_digit (c : ascii) : bool :=
  let n := nat_of_ascii c in (48 <=? n) && (n <=? 57).

(** The class [[A-Z]]. *)
Definition is_AZ (c : ascii) : bool :=
  let n := nat_of_ascii c in (65 <=? n) && (n <=? 90).

Definition is_az (c : ascii) : bool :=
  let n := nat_of_ascii c in (97 <=? n) && (n <=? 122).

(** The regular expression [.]: every character but the line feed. *)
Definition is_dot (c : ascii) : bool := negb (Ascii.eqb c "010").

Definition is_char (a c : ascii) : bool := Ascii.eqb c a.

Definition upper_char (c : ascii) : ascii :=
  if is_az c then ascii_of_nat (nat_of_ascii c - 32) else c.

(** [s.upper()] *)
Fixpoint upper (s : string) : string :=
  match s with
  | "" => ""
  | String c r => String (upper_char c) (upper r)
  end.

(** [s.lstrip()] *)
Fixpoint lstrip (s : string) : string :=
  match s with
  | "" => ""
  | String c r => if is_space c then lstrip r else s
  end.

(** [s.rstrip()] *)
Fixpoint rstrip (s : string) : string :=
  match s with
  | "" => ""
  | String c r =>
      match rstrip r with
      | "" => if is_space c then "" else String c ""
      | r' => String c r'
      end
  end.

(** [s.strip()] *)
Definition strip (s : string) : string := rstrip (lstrip s).

(** Truth value of a text: non-empty. *)
Definition nonempty (s : string) : bool :=
  match s with "" => false | _ => true end.

(** [s.strip() == ''] *)
Definition blank (s : string) : bool := negb (nonempty (strip s)).

Definition starts_word (s : string) : bool :=
  match s with
  | "" => false
  | String c _ => negb (is_space c)
  end.

(** [s.split()]: the maximal runs of non-space characters, in order. *)
Fixpoint split (s : string) : list string :=
  match s with
  | "" => []
  | String c r =>
      if is_space c then split r
      else if starts_word r then
        match split r with
        | w :: ws => String c w :: ws
        | [] => [String c ""]
        end
      else String c "" :: split r
  end.

(** [sep.join(l)] *)
Fixpoint join (sep : string) (l : list string) : string :=
  match l with
  | [] => ""
  | [w] => w
  | w :: ws => w ++ sep ++ join sep ws
  end.

(** [s.replace(old, new)] for a one-character [old]. *)
Fixpoint replace (old : ascii) (new : string) (s : string) : string :=
  match s with
  | "" => ""
  | String c r =>
      if Ascii.eqb c old then new ++ replace old new r
      else String c (replace old new r)
  end.

(** [c in s] for a one-character [c]. *)
Fixpoint contains (c : ascii) (s : string) : bool :=
  match s with
  | "" => false
  | String d r => Ascii.eqb d c || contains c r
  end.

(** [s.startswith(p)] *)
Definition startswith (s p : string) : bool := String.prefix p s.

(** Values that reach the functions: [None], the NaN of an empty cell, text,
    integers. *)
Inductive value : Type :=
| VNone
| VNaN
| VStr (s : string)
| VInt (z : Z).

(** [str(v)] *)
Definition str (v : value) : string :=
  match v with
  | VNone => "None"
  | VNaN => "nan"
  | VStr s => s
  | VInt z => NilZero.string_of_int (Z.to_int z)
  end.

(** Truth value, as in [if v:] and [not v]. *)
Definition truthy (v : value) : bool :=
  match v with
  | VNone => false
  | VNaN => true
  | VStr s => nonempty s
  | VInt z => negb (Z.eqb z 0)
  end.

(** [pd.isna(v)] and [pd.notna(v)] *)
Definition isna (v : value) : bool :=
  match v with
  | VNone | VNaN => true
  | _ => false
  end.

Definition notna (v : value) : bool := negb (isna v).

End Py.

(* ================================================================== *)
(** * Regular expressions: syntax and backtracking matcher *)
(* ================================================================== *)

Module Re.

(** The patterns of the program are sequences of one-character classes under
    [*], [+] and [+?], with groups and a final [$]. *)
Inductive item : Type :=
| One (p : ascii -> bool)          (* a class, once *)
| Star (p : ascii -> bool)         (* class*, greedy *)
| StarLazy (p : ascii -> bool)     (* class*?, lazy *)
| Open                             (* ( *)
| Close                            (* ) *)
| Eos.                             (* $ *)

Definition pattern := list item.

(** [class+] and [class+?] *)
Definition Plus (p : ascii -> bool) : pattern := [One p; Star p].
Definition PlusLazy (p : ascii -> bool) : pattern := [One p; StarLazy p].

(** A literal text. *)
Fixpoint Lit (s : string) : pattern :=
  match s with
  | "" => []
  | String c r => One (Py.is_char c) :: Lit r
  end.

(** The result of a match: the texts of the groups, in order of their
    closing parenthesis, and the unread rest of the subject.  A character read
    inside a group is put in front of the first group of the continuation's
    result. *)
Definition result := (list string * string)%type.

Definition add (ing : bool) (c : ascii) (r : result) : result :=
  if ing then
    match fst r with
    | g :: gs => (String c g :: gs, snd r)
    | [] => ([String c ""], snd r)
    end
  else r.

(** [$]: at the end, or before a line feed that ends the subject. *)
Definition at_end (s : string) : bool :=
  match s with
  | "" => true
  | String c "" => Ascii.eqb c "010"
  | _ => false
  end.

(** [m pat ing s]: match [pat] at the start of [s], [ing] telling whether a
    group is open.  Alternatives are tried in Python's order: a greedy
    repetition reads on before it lets the rest match, a lazy one lets the
    rest match before it reads on. *)
Fixpoint m (pat : pattern) (ing : bool) (s : string) {struct pat}
  : option result :=
  match pat with
  | [] => Some ([], s)
  | Eos :: k => if at_end s then m k ing s else None
  | Open :: k => m k true s
  | Close :: k =>
      match m k false s with
      | Some (gs, rest) => Some ("" :: gs, rest)
      | None => None
      end
  | One p :: k =>
      match s with
      | String c r =>
          if p c then option_map (add ing c) (m k ing r) else None
      | "" => None
      end
  | Star p :: k =>
      (fix star (s : string) : option result :=
         match s with
         | String c r =>
             if p c then
               match star r with
               | Some x => Some (add ing c x)
               | None => m k ing s
               end
             else m k ing s
         | "" => m k ing s
         end) s
  | StarLazy p :: k =>
      (fix lazy (s : string) : option result :=
         match m k ing s with
         | Some x => Some x
         | None =>
             match s with
             | String c r =>
                 if p c then option_map (add ing c) (lazy r) else None
             | "" => None
             end
         end) s
  end.

(** [re.match(pat, s)]: the groups of a match at index 0. *)
Definition rmatch (pat : pattern) (s : string) : option (list string) :=
  option_map fst (m pat false s).

(** [match.group(n)], n >= 1 *)
Definition group (n : nat) (gs : list string) : string := nth (n - 1) gs "".

(** [re.sub(pat, repl, s)] for a pattern that reads at least one character
    and a replacement without group references: the leftmost match is
    replaced and the scan goes on behind it.  [skip] counts the characters of
    a match still to be passed over. *)
Fixpoint sub_from (pat : pattern) (repl : string) (skip : nat) (s : string)
  : string :=
  match s with
  | "" => ""
  | String c r =>
      match skip with
      | S n => sub_from pat repl n r
      | O =>
          match m pat false s with
          | Some (_, rest) =>
              repl ++ sub_from pat repl (String.length r - String.length rest) r
          | None => String c (sub_from pat repl 0 r)
          end
      end
  end.

Definition sub (pat : pattern) (repl : string) (s : string) : string :=
  sub_from pat repl 0 s.

End Re.

Import Py Re.

(* ================================================================== *)
(** * config.py *)
(* ================================================================== *)

(** [r'^(.+?)[\s]*-[\s]*(\d+)$'] *)
Definition re_dash : pattern :=
  ([Open] ++ PlusLazy is_dot ++ [Close; Star is_space] ++ Lit "-"
     ++ [Star is_space; Open] ++ Plus is_digit ++ [Close; Eos])%list.

(** [r'^(WP[A-Z]+\s*\d+)\s+(.+)$'] *)
Definition re_space : pattern :=
  ([Open] ++ Lit "WP" ++ Plus is_AZ ++ [Star is_space] ++ Plus is_digit
     ++ [Close] ++ Plus is_space ++ [Open] ++ Plus is_dot ++ [Close; Eos])%list.

(** [parse_sku(raw_sku)]: (base, variation). *)
Definition parse_sku (raw_sku : value) : option string * option string :=
  if negb (truthy raw_sku) || blank (str raw_sku) then (None, None)
  else
    let sku := strip (str raw_sku) in
    let sku := join " " (split sku) in
    let '(base, var) :=
      match rmatch re_dash sku with
      | Some gs => (strip (group 1 gs), Some (strip (group 2 gs)))
      | None =>
          match rmatch re_space sku with
          | Some gs => (strip (group 1 gs), Some (strip (group 2 gs)))
          | None => (sku, None)
          end
      end in
    if nonempty base && contains " " base then
      match rmatch re_space base with
      | Some gs =>
          (Some (strip (group 1 gs)),
           match var with
           | None => Some (strip (group 2 gs))
           | Some _ => var
           end)
      | None => (Some base, var)
      end
    else (Some base, var).

(** [get_base_sku(raw_sku)] *)
Definition get_base_sku (raw_sku : value) : option string :=
  fst (parse_sku raw_sku).

(** [get_variation_code(raw_sku)] *)
Definition get_variation_code (raw_sku : value) : option string :=
  snd (parse_sku raw_sku).


(** [SIZE_COLUMNS]: column offset to size label, in the order of the dict. *)
Definition SIZE_COLUMNS : list (nat * string) :=
  [(9, "2-3"); (10, "3-4"); (11, "4-5"); (12, "6-7");
   (13, "7-8"); (14, "9-10"); (15, "11-12"); (16, "13-14")].

(** [XLSX_COLUMNS] *)
Module XLSX_COLUMNS.
Definition category_group := 0.
Definition famille := 1.
Definition sku := 2.
Definition price := 3.
Definition name := 4.
Definition color_material := 5.
Definition color := 6.
Definition tech_description := 7.
Definition description := 8.
Definition size_start := 9.
Definition size_end := 16.
End XLSX_COLUMNS.

Definition SKIP_EXISTING := true.

(* ================================================================== *)
(** * image_mapping.py *)
(* ================================================================== *)

(** [r'\s*-\s*'] *)
Definition re_dash_spaces : pattern :=
  ([Star is_space] ++ Lit "-" ++ [Star is_space])%list.

(** [r'^(WP[A-Z]+)\s*(\d+)-(.+)$'] *)
Definition re_pattern1 : pattern :=
  ([Open] ++ Lit "WP" ++ Plus is_AZ ++ [Close; Star is_space; Open]
     ++ Plus is_digit ++ [Close] ++ Lit "-" ++ [Open] ++ Plus is_dot
     ++ [Close; Eos])%list.

(** [r'^(WP[A-Z]+)\s*(\d+)\s+(.+)$'] *)
Definition re_pattern2 : pattern :=
  ([Open] ++ Lit "WP" ++ Plus is_AZ ++ [Close; Star is_space; Open]
     ++ Plus is_digit ++ [Close] ++ Plus is_space ++ [Open] ++ Plus is_dot
     ++ [Close; Eos])%list.

(** [r'^(WP[A-Z]+)\s*(\d+)$'] *)
Definition re_pattern3 : pattern :=
  ([Open] ++ Lit "WP" ++ Plus is_AZ ++ [Close; Star is_space; Open]
     ++ Plus is_digit ++ [Close; Eos])%list.

(** The text [normalize_sku] matches its patterns on: trimmed, whitespace
    runs collapsed, slashes turned into dashes, spaces around dashes
    removed. *)
Definition prepare_sku (raw : string) : string :=
  let sku := strip raw in
  let sku := join " " (split sku) in
  let sku := replace "/" "-" sku in
  Re.sub re_dash_spaces "-" sku.

(** [normalize_sku(raw_sku)]: (normalized, base_sku, variation). *)
Definition normalize_sku (raw_sku : value)
  : option string * option string * option string :=
  if negb (truthy raw_sku) || blank (str raw_sku) then (None, None, None)
  else
    let sku := prepare_sku (str raw_sku) in
    match rmatch re_pattern1 sku with
    | Some gs =>
        let prefix := group 1 gs in
        let number := group 2 gs in
        let variation := strip (group 3 gs) in
        let base_sku := prefix ++ number in
        let normalized := base_sku ++ "-" ++ variation in
        (Some normalized, Some base_sku, Some variation)
    | None =>
        match rmatch re_pattern2 sku with
        | Some gs =>
            let prefix := group 1 gs in
            let number := group 2 gs in
            let variation := strip (group 3 gs) in
            let base_sku := prefix ++ number in
            let normalized := base_sku ++ "-" ++ variation in
            (Some normalized, Some base_sku, Some variation)
        | None =>
            match rmatch re_pattern3 sku with
            | Some gs =>
                let prefix := group 1 gs in
                let number := group 2 gs in
                let base_sku := prefix ++ number in
                (Some base_sku, Some base_sku, None)
            | None =>
                let normalized := replace " " "" sku in
                (Some normalized, Some normalized, None)
            end
        end
    end.

(** [r'\s*\(\d+\)$'] *)
Definition re_dup_suffix : pattern :=
  ([Star is_space] ++ Lit "(" ++ Plus is_digit ++ Lit ")" ++ [Eos])%list.

(** [get_folder_key(folder_name)] *)
Definition get_folder_key (folder_name : string) : string :=
  let clean_name := Re.sub re_dup_suffix "" folder_name in
  upper (replace " " "" clean_name).

(** An entry of the folder map: [{'path': .., 'name': .., 'images': ..}]. *)
Module Folder.
Record info : Type := mk {
    path : string;
    name : string;
    images : list string
  }.
End Folder.

Definition folder_info := Folder.info.

(** The folder map, a [dict] from key to entry in insertion order. *)
Definition folder_map := list (string * folder_info).

Section Dict.
Variable V : Type.

  (** [d.get(k)], [k in d] *)
Fixpoint dict_get (d : list (string * V)) (k : string) : option V :=
    match d with
    | [] => None
    | (k', v) :: r => if String.eqb k' k then Some v else dict_get r k
    end.

  (** [d[k] = v]: a known key keeps its place. *)
Fixpoint dict_set (d : list (string * V)) (k : string) (v : V)
    : list (string * V) :=
    match d with
    | [] => [(k, v)]
    | (k', v') :: r =>
        if String.eqb k' k then (k', v) :: r else (k', v') :: dict_set r k v
    end.
End Dict.

(** Characters of lower case, for the extension test. *)
Definition lower_char (c : ascii) : ascii :=
  if is_AZ c then ascii_of_nat (nat_of_ascii c + 32) else c.

Fixpoint lower (s : string) : string :=
  match s with
  | "" => ""
  | String c r => String (lower_char c) (lower r)
  end.

(** [s.endswith(suf)] *)
Definition endswith (s suf : string) : bool :=
  (String.length suf <=? String.length s)
  && String.eqb
       (substring (String.length s - String.length suf) (String.length suf) s)
       suf.

Definition IMAGE_EXTENSIONS : list string :=
  [".jpg"; ".jpeg"; ".png"; ".webp"; ".gif"].

(** [os.path.join(a, b)] on POSIX paths. *)
Definition path_join (a b : string) : string :=
  if startswith b "/" then b
  else if negb (nonempty a) || endswith a "/" then a ++ b
  else a ++ "/" ++ b.

(** What [os.listdir] and [os.path.isdir] show of the images directory: its
    items in listing order, a directory with the names it lists. *)
Inductive dir_item : Type :=
| PlainFile (item : string)
| Folder (item : string) (listing : list string).

(** [scan_image_folders(images_dir)]; [None] is a directory that does not
    exist. *)
Definition scan_image_folders (images_dir : string)
    (content : option (list dir_item)) : folder_map :=
  match content with
  | None => []
  | Some items =>
      fold_left
        (fun folders it =>
           match it with
           | PlainFile _ => folders
           | Folder item listing =>
               let item_path := path_join images_dir item in
               let key := get_folder_key item in
               dict_set folders key
                 (Folder.mk item_path item
                    (map (path_join item_path)
                       (filter
                          (fun f =>
                             existsb (endswith (lower f)) IMAGE_EXTENSIONS)
                          listing)))
           end)
        items []
  end.

(** f-string rendering of a value that may be [None]. *)
Definition fmt (o : option string) : string :=
  match o with Some s => s | None => "None" end.

Definition truthy_opt (o : option string) : bool :=
  match o with Some s => nonempty s | None => false end.

(** The last stage: the first entry, in the order of the map, whose key
    starts with the base. *)
Fixpoint first_with_prefix (p : string) (d : folder_map)
  : option folder_info :=
  match d with
  | [] => None
  | (k, info) :: r =>
      if startswith k p then Some info else first_with_prefix p r
  end.

(** [find_images_for_sku(raw_sku, folder_map)] *)
Definition find_images_for_sku (raw_sku : value) (fm : folder_map)
  : list string :=
  if negb (truthy raw_sku) then []
  else
    let '(normalized, base_sku, variation) := normalize_sku raw_sku in
    if negb (truthy_opt normalized) then []
    else
      let key := upper (replace " " "" (fmt normalized)) in
      match dict_get fm key with
      | Some info => Folder.images info
      | None =>
          let stage2 :=
            if truthy_opt variation then
              dict_get fm
                (upper (fmt base_sku ++ "-" ++ replace " " "" (fmt variation)))
            else None in
          match stage2 with
          | Some info => Folder.images info
          | None =>
              let stage3 :=
                if truthy_opt base_sku then dict_get fm (upper (fmt base_sku))
                else None in
              match stage3 with
              | Some info => Folder.images info
              | None =>
                  let stage4 :=
                    if truthy_opt base_sku
                    then first_with_prefix (upper (fmt base_sku)) fm
                    else None in
                  match stage4 with
                  | Some info => Folder.images info
                  | None => []
                  end
              end
          end
      end.


(* ================================================================== *)
(** * sync_products_v2.py *)
(* ================================================================== *)

(** A row of the data frame is the list of its cells; [row.iloc[i]] raises
    [IndexError] past the end, which is [None] here. *)
Definition iloc (A : Type) (l : list A) (i : nat) : option A := nth_error l i.

Notation "x <- e ;; k" :=
  (match e with Some x => k | None => None end)
  (at level 61, e at next level, right associativity).

(** A variant, the dict that [group_rows_by_base_sku] builds for a row. *)
Module Variant.
Record t : Type := mk {
    row_idx : nat;
    row : list value;
    raw_sku : string;
    var_code : option string;
    color : value;
    sizes : list string;
    price : option string;
    name : value;
    famille : value;
    tech_desc : value;
    description : value
  }.
End Variant.

Definition variant := Variant.t.

(** A text or [None] as a value. *)
Definition of_opt (o : option string) : value :=
  match o with Some s => VStr s | None => VNone end.

(** [get_available_sizes(row)] *)
Definition get_available_sizes (row : list value) : list string :=
  flat_map
    (fun '(col_idx, size_label) =>
       let value :=
         if col_idx <? List.length row then nth col_idx row VNone else VNone in
       if notna value && String.eqb (upper (strip (str value))) "X"
       then [size_label] else [])
    SIZE_COLUMNS.

(** [groups[k].append(v)] on a [defaultdict(list)]. *)
Fixpoint dict_append (V : Type) (d : list (string * list V)) (k : string)
    (v : V) : list (string * list V) :=
  match d with
  | [] => [(k, [v])]
  | (k', vs) :: r =>
      if String.eqb k' k then (k', (vs ++ [v])%list) :: r
      else (k', vs) :: dict_append r k v
  end.

(** A remote product, as far as the sync reads it. *)
Module Product.
Record t : Type := mk {
    id : nat;
    name : string;
    variations : nat;
    images : nat
  }.
End Product.

Definition product := Product.t.

(** An entry of [created_products]. *)
Inductive created : Type :=
| DryRun (sku name : string) (sizes colors : nat)
| Live (sku name : string) (id variations : nat).

(** The three buckets of a run: [created_products], [skipped_products]
    (sku, reason) and [failed_products] (sku, error). *)
Record sync_state : Type := mk_state {
  created_products : list created;
  skipped_products : list (string * string);
  failed_products : list (string * string)
}.

Definition skip (st : sync_state) (sku reason : string) : sync_state :=
  mk_state (created_products st)
    (skipped_products st ++ [(sku, reason)])%list (failed_products st).

Definition create (st : sync_state) (c : created) : sync_state :=
  mk_state (created_products st ++ [c])%list
    (skipped_products st) (failed_products st).

Definition fail (st : sync_state) (sku error : string) : sync_state :=
  mk_state (created_products st) (skipped_products st)
    (failed_products st ++ [(sku, error)])%list.

(** [os.path.basename(p)] *)
Fixpoint basename (p : string) : string :=
  match p with
  | "" => ""
  | String c r => if contains "/" r then basename r
                  else if Ascii.eqb c "/" then r else p
  end.

Definition mem (x : string) (l : list string) : bool :=
  existsb (String.eqb x) l.

(** The order of [sorted(.., key=lambda x: (len(x), x))]. *)
Definition size_le (a b : string) : bool :=
  (String.length a <? String.length b)
  || ((String.length a =? String.length b)
      && match String.compare a b with Gt => false | _ => true end).

Fixpoint insert_size (x : string) (l : list string) : list string :=
  match l with
  | [] => [x]
  | y :: r => if size_le x y then x :: l else y :: insert_size x r
  end.

(** [sorted(list(set(l)), key=lambda x: (len(x), x))] *)
Definition sorted_sizes (l : list string) : list string :=
  fold_right (fun x acc => if mem x acc then acc else insert_size x acc) [] l.

(** One turn of the colours loop of [create_product_from_group]. *)
Definition color_step (all_colors : list string) (v : variant) : list string :=
  let color := Variant.color v in
  if truthy color && nonempty (strip (str color)) then
    let color_clean := strip (str color) in
    if mem color_clean all_colors then all_colors
    else (all_colors ++ [color_clean])%list
  else all_colors.

Section Sync.

  (** [clean_price]: [float()] and [round()] of a cell. *)
Variable clean_price : value -> option string.
  (** [float(a) < float(b)] on two cleaned prices. *)
Variable price_lt : string -> string -> bool.
  (** [api.get_product_by_sku], which turns every failure into [None]. *)
Variable get_product_by_sku : string -> option product.
  (** The live calls behind the [try]: uploads, [api.put]/[api.post] and
      [create_variations]; an error text for a raised exception, else the
      product id and the number of variations. *)
Variable push :
    string -> list variant -> string -> list string -> list string ->
    option string -> list string -> option product -> string + (nat * nat).
  (** [self.dry_run] *)
Variable dry_run : bool.

  (** One turn of the loop of [group_rows_by_base_sku]. *)
Definition group_row (df : list (list value))
      (groups : list (string * list variant)) (idx : nat)
    : option (list (string * list variant)) :=
    row <- iloc df idx ;;
    raw_sku <- iloc row XLSX_COLUMNS.sku ;;
    if isna raw_sku then Some groups
    else
      let '(base_sku, var_code) := parse_sku raw_sku in
      if negb (truthy_opt base_sku) then Some groups
      else
        color <- iloc row XLSX_COLUMNS.color ;;
        price <- iloc row XLSX_COLUMNS.price ;;
        name <- iloc row XLSX_COLUMNS.name ;;
        famille <- iloc row XLSX_COLUMNS.famille ;;
        tech <- iloc row XLSX_COLUMNS.tech_description ;;
        descr <- iloc row XLSX_COLUMNS.description ;;
        Some
          (dict_append groups (fmt base_sku)
             (Variant.mk idx row
                (strip (str raw_sku))
                var_code
                (if notna color then color else of_opt var_code)
                (get_available_sizes row)
                (clean_price price)
                (if notna name then name else VNone)
                (if notna famille then famille else VNone)
                (if notna tech then tech else VStr "")
                (if notna descr then descr else VStr ""))).

  (** [group_rows_by_base_sku(df, start_row, end_row)] *)
Definition group_rows_by_base_sku (df : list (list value))
      (start_row end_row : nat) : option (list (string * list variant)) :=
    fold_left
      (fun acc idx => groups <- acc ;; group_row df groups idx)
      (seq start_row (end_row - start_row))
      (Some []).

  (** The lookup of an existing product: by base SKU, then by the raw SKU of
      the variants in turn. *)
Fixpoint existing_by_variant (variants : list variant) : option product :=
    match variants with
    | [] => None
    | v :: r =>
        match get_product_by_sku (Variant.raw_sku v) with
        | Some p => Some p
        | None => existing_by_variant r
        end
    end.

Definition find_existing (base_sku : string) (variants : list variant)
    : option product :=
    match get_product_by_sku base_sku with
    | Some p => Some p
    | None => existing_by_variant variants
    end.

  (** The name loop: the first variant with a true [name] decides, and its
      text is trimmed. *)
Fixpoint name_from_variants (variants : list variant) : option string :=
    match variants with
    | [] => None
    | v :: r =>
        if truthy (Variant.name v) then Some (strip (str (Variant.name v)))
        else name_from_variants r
    end.

  (** The colours loop of [create_product_from_group]. *)
Definition collect_colors (variants : list variant) : list string :=
    fold_left color_step variants [].

Definition collect_sizes (variants : list variant) : list string :=
    sorted_sizes (flat_map Variant.sizes variants).

Definition collect_price (variants : list variant) : option string :=
    fold_left
      (fun best_price v =>
         match Variant.price v with
         | Some p =>
             if nonempty p
                && match best_price with
                   | None => true
                   | Some b => price_lt p b
                   end
             then Some p else best_price
         | None => best_price
         end)
      variants None.

  (** The images of the main product: those of the variants in turn, one per
      file name. *)
Definition collect_images (variants : list variant) (fm : folder_map)
    : list string :=
    fst
      (fold_left
         (fun '(product_images, seen_images) img_path =>
            let img_name := basename img_path in
            if mem img_name seen_images then (product_images, seen_images)
            else ((product_images ++ [img_path])%list,
                  img_name :: seen_images))
         (flat_map
            (fun v => find_images_for_sku (VStr (Variant.raw_sku v)) fm)
            variants)
         ([], [])).

  (** [create_product_from_group(base_sku, variants, folder_map)]: the
      returned flag and the buckets afterwards; [None] is the [IndexError] of
      [variants[0]]. *)
Definition create_product_from_group (base_sku : string)
      (variants : list variant) (fm : folder_map) (st : sync_state)
    : option (bool * sync_state) :=
    let existing_product := find_existing base_sku variants in
    let complete :=
      match existing_product with
      | Some p =>
          SKIP_EXISTING && (0 <? Product.variations p)
          && (0 <? Product.images p)
      | None => false
      end in
    if complete then Some (false, skip st base_sku "complete")
    else
      first_variant <- iloc variants 0 ;;
      let product_name :=
        match name_from_variants variants with
        | Some n => n
        | None => ""
        end in
      let product_name :=
        match existing_product with
        | Some p => if nonempty product_name then product_name
                    else Product.name p
        | None => product_name
        end in
      if negb (nonempty product_name)
      then Some (false, skip st base_sku "no_name")
      else
        let all_colors := collect_colors variants in
        let all_sizes := collect_sizes variants in
        let best_price := collect_price variants in
        let product_images := collect_images variants fm in
        match all_sizes with
        | [] => Some (false, skip st base_sku "no_sizes")
        | _ =>
            if dry_run then
              Some (true,
                    create st
                      (DryRun base_sku product_name
                         (List.length all_sizes) (List.length all_colors)))
            else
              match push base_sku variants product_name all_colors all_sizes
                      best_price product_images existing_product with
              | inr (id, variations) =>
                  Some (true, create st (Live base_sku product_name id variations))
              | inl error => Some (false, fail st base_sku error)
              end
        end.

  (** The loop of [sync_from_xlsx] over the groups: (processed, success) and
      the buckets. *)
Fixpoint process_groups (groups : list (string * list variant))
      (fm : folder_map) (limit : option nat) (processed success : nat)
      (st : sync_state) : option (nat * nat * sync_state) :=
    match groups with
    | [] => Some (processed, success, st)
    | (base_sku, variants) :: rest =>
        if match limit with
           | Some l => negb (l =? 0) && (l <=? processed)
           | None => false
           end
        then Some (processed, success, st)
        else
          r <- create_product_from_group base_sku variants fm st ;;
          process_groups rest fm limit (S processed)
            (if fst r then S success else success) (snd r)
    end.

End Sync.


(* ================================================================== *)
(** * Notions used to state the properties *)
(* ================================================================== *)

(** A row of nine cells that is empty but for its SKU. *)
Definition sku_row (sku : string) : list value :=
  [VNaN; VNaN; VStr sku; VNaN; VNaN; VNaN; VNaN; VNaN; VNaN].

(** A spreadsheet without prices. *)
Definition no_price (_ : value) : option string := None.

(** The grouping of three rows into a group [k12] of the first two and a
    group [k3] of the third. *)
Definition grouped_in_two (clean_price : value -> option string)
    (k12 k3 : string) (r1 r2 r3 : list value) : Prop :=
  exists v1 v2 v3,
    group_rows_by_base_sku clean_price [r1; r2; r3] 0 3
      = Some [(k12, [v1; v2]); (k3, [v3])]
    /\ Variant.row v1 = r1 /\ Variant.row v2 = r2 /\ Variant.row v3 = r3.

(** The grouping of three rows into three groups of one row each. *)
Definition grouped_in_three (clean_price : value -> option string)
    (k1 k2 k3 : string) (r1 r2 r3 : list value) : Prop :=
  exists v1 v2 v3,
    group_rows_by_base_sku clean_price [r1; r2; r3] 0 3
      = Some [(k1, [v1]); (k2, [v2]); (k3, [v3])]
    /\ Variant.row v1 = r1 /\ Variant.row v2 = r2 /\ Variant.row v3 = r3.

(** A cell that is there and not blank after trimming. *)
Definition cell_present (row : list value) (off : nat) : bool :=
  match nth_error row off with
  | Some v => notna v && negb (blank (str v))
  | None => false
  end.

(** A cell that is there and reads X or x after trimming. *)
Definition cell_marked (row : list value) (off : nat) : bool :=
  match nth_error row off with
  | Some v => notna v && String.eqb (upper (strip (str v))) "X"
  | None => false
  end.

(** The cascade of the image resolver, stage by stage: the entry each stage
    finds, if any. *)
Definition resolver_stages (raw_sku : value) (fm : folder_map)
  : list (option folder_info) :=
  if negb (truthy raw_sku) then []
  else
    let '(normalized, base_sku, variation) := normalize_sku raw_sku in
    if negb (truthy_opt normalized) then []
    else
      [ (* 1. exact match on the normalized key *)
        dict_get fm (upper (replace " " "" (fmt normalized)));
        (* 2. base and variation without its internal spaces *)
        (if truthy_opt variation then
           dict_get fm
             (upper (fmt base_sku ++ "-" ++ replace " " "" (fmt variation)))
         else None);
        (* 3. base alone *)
        (if truthy_opt base_sku then dict_get fm (upper (fmt base_sku))
         else None);
        (* 4. the first key that starts with the base *)
        (if truthy_opt base_sku
         then first_with_prefix (upper (fmt base_sku)) fm else None) ].

(** The first stage with a match decides. *)
Fixpoint first_match (A : Type) (l : list (option A)) : option A :=
  match l with
  | [] => None
  | Some x :: _ => Some x
  | None :: r => first_match r
  end.

Definition resolve (raw_sku : value) (fm : folder_map) : list string :=
  match first_match (resolver_stages raw_sku fm) with
  | Some info => Folder.images info
  | None => []
  end.

(** A remote catalogue without products. *)
Definition no_product (_ : string) : option product := None.

Definition no_push (_ : string) (_ : list variant) (_ : string)
    (_ _ : list string) (_ : option string) (_ : list string)
    (_ : option product) : string + (nat * nat) := inl "offline".

Definition txt_lt (a b : string) : bool :=
  match String.compare a b with Lt => true | _ => false end.

(** A variant that has only a raw SKU and a name cell. *)
Definition named_variant (idx : nat) (sku : string) (name : value) : variant :=
  Variant.mk idx (sku_row sku) sku None VNone ["2-3"] None name VNone
    (VStr "") (VStr "").

Definition empty_state : sync_state := mk_state [] [] [].

(** ** Prepared SKU text, character by character

    [prepare_sku] is four passes over the text.  The same text is produced
    in one pass by [canon], in which a run of whitespace is kept pending until
    the next character shows whether it stands next to a dash. *)

(** The leading characters of a class, and the rest. *)
Fixpoint take_while (p : ascii -> bool) (s : string) : string :=
  match s with
  | "" => ""
  | String c r => if p c then String c (take_while p r) else ""
  end.

Fixpoint drop_while (p : ascii -> bool) (s : string) : string :=
  match s with
  | "" => ""
  | String c r => if p c then drop_while p r else s
  end.

Fixpoint all_chars (p : ascii -> bool) (s : string) : bool :=
  match s with
  | "" => true
  | String c r => p c && all_chars p r
  end.

Fixpoint string_drop (n : nat) (s : string) : string :=
  match n, s with
  | S n', String _ r => string_drop n' r
  | _, _ => s
  end.

Definition starts_dash (s : string) : bool :=
  match s with
  | String c _ => Ascii.eqb c "-"
  | "" => false
  end.

(** Whitespace runs collapsed and the ends trimmed, in one pass. *)
Inductive gap_state : Type := GFresh | GWord | GGap.

Fixpoint squeeze (st : gap_state) (s : string) : string :=
  match s with
  | "" => ""
  | String c r =>
      if is_space c then
        squeeze (match st with GFresh => GFresh | _ => GGap end) r
      else
        match st with
        | GGap => String " " (String c (squeeze GWord r))
        | _ => String c (squeeze GWord r)
        end
  end.

(** Whitespace around dashes removed, in one pass; [after] tells that the
    last character written is a dash. *)
Fixpoint undash (after : bool) (s : string) : string :=
  match s with
  | "" => ""
  | String c r =>
      if Ascii.eqb c "-" then String "-" (undash true r)
      else if is_space c then
        if after || starts_dash (drop_while is_space r) then undash after r
        else String c (undash false r)
      else String c (undash false r)
  end.

(** The four passes in one. *)
Inductive scan_state : Type := Fresh | AfterDash | InWord | Gap.

Definition is_sep (c : ascii) : bool := Ascii.eqb c "-" || Ascii.eqb c "/".

Fixpoint canon (st : scan_state) (s : string) : string :=
  match s with
  | "" => ""
  | String c r =>
      if is_space c then
        canon (match st with InWord => Gap | _ => st end) r
      else if is_sep c then String "-" (canon AfterDash r)
      else
        match st with
        | Gap => String " " (String c (canon InWord r))
        | _ => String c (canon InWord r)
        end
  end.

(** ** Formatting variants of a raw SKU *)

(** One step between two raw SKUs that differ in formatting only: a
    whitespace run that is one character longer, a whitespace character next
    to a dash, a slash for a dash and, when [with_case] is set, one letter in
    upper case. *)
Inductive variant_step (with_case : bool) : string -> string -> Prop :=
| step_run (a b : string) (w w' : ascii) :
    is_space w = true -> is_space w' = true ->
    variant_step with_case
      (a ++ String w b) (a ++ String w (String w' b))
| step_before_dash (a b : string) (w : ascii) :
    is_space w = true ->
    variant_step with_case
      (a ++ String "-" b) (a ++ String w (String "-" b))
| step_after_dash (a b : string) (w : ascii) :
    is_space w = true ->
    variant_step with_case
      (a ++ String "-" b) (a ++ String "-" (String w b))
| step_slash (a b : string) :
    variant_step with_case (a ++ String "/" b) (a ++ String "-" b)
| step_case (a b : string) (c : ascii) :
    with_case = true ->
    variant_step with_case (a ++ String c b) (a ++ String (upper_char c) b).

(** Two raw SKUs that differ only in such steps, in either direction. *)
Inductive same_sku (with_case : bool) : string -> string -> Prop :=
| same_refl (s : string) : same_sku with_case s s
| same_step (s t u : string) :
    variant_step with_case s t -> same_sku with_case t u ->
    same_sku with_case s u
| same_back (s t u : string) :
    variant_step with_case t s -> same_sku with_case t u ->
    same_sku with_case s u.

(** The first component of [normalize_sku]. *)
Definition normalized_key (raw : string) : option string :=
  fst (fst (normalize_sku (VStr raw))).

(** ** The shape of a prepared SKU text

    The three patterns of [normalize_sku] share the head
    [(WP[A-Z]+)\s*(\d+)], which is read in one way only; what follows the
    digits decides the pattern. *)

(** The characters a repetition in a group reads, put in front of the open
    group of a result. *)
Fixpoint adds (ing : bool) (w : string) (x : result) : result :=
  match w with
  | "" => x
  | String c r => add ing c (adds ing r x)
  end.

(** The head of a product code: prefix, digits, and the rest of the text. *)
Definition code_head (t : string) : option (string * string * string) :=
  match t with
  | String c0 (String c1 r) =>
      if Ascii.eqb c0 "W" && Ascii.eqb c1 "P" then
        let r2 := drop_while is_space (drop_while is_AZ r) in
        if nonempty (take_while is_AZ r) && nonempty (take_while is_digit r2)
        then Some (String c0 (String c1 (take_while is_AZ r)),
                   take_while is_digit r2,
                   drop_while is_digit r2)
        else None
      else None
  | _ => None
  end.

Inductive sku_shape : Type :=
| Dashed (prefix number rest : string)   (* code, dash, remainder *)
| Spaced (prefix number rest : string)   (* code, blank, remainder *)
| Bare (prefix number : string)          (* code alone *)
| Other.                                 (* no product code *)

Definition shape_of (t : string) : sku_shape :=
  match code_head t with
  | Some (p, n, r3) =>
      match r3 with
      | "" => Bare p n
      | String c v =>
          if Ascii.eqb c "-" then
            if nonempty v then Dashed p n v else Other
          else if Ascii.eqb c " " then
            if nonempty v then Spaced p n v else Other
          else Other
      end
  | None => Other
  end.

(** What [normalize_sku] returns for a prepared text of a given shape. *)
Definition normalized_of_shape (t : string)
  : option string * option string * option string :=
  match shape_of t with
  | Dashed p n v | Spaced p n v =>
      (Some ((p ++ n) ++ "-" ++ strip v), Some (p ++ n), Some (strip v))
  | Bare p n => (Some (p ++ n), Some (p ++ n), None)
  | Other => (Some (replace " " "" t), Some (replace " " "" t), None)
  end.

(** Whitespace in a prepared text: single blanks, each followed by a
    character that is not whitespace. *)
Fixpoint tidy (t : string) : bool :=
  match t with
  | "" => true
  | String c r =>
      (if is_space c then Ascii.eqb c " " && starts_word r else true)
      && tidy r
  end.

(** A character that is no whitespace other than the blank. *)
Definition plain (c : ascii) : bool := negb (is_space c) || Ascii.eqb c " ".

Definition no_space (c : ascii) : bool := negb (is_space c).

(** A character that [upper] leaves as it is. *)
Definition upper_fixed (c : ascii) : bool := Ascii.eqb (upper_char c) c.

(** ** The lookup key of the exact-match stage *)

(** The key [find_images_for_sku] looks up first, when it gets that far. *)
Definition exact_key (raw_sku : value) : option string :=
  if negb (truthy raw_sku) then None
  else
    let '(normalized, _, _) := normalize_sku raw_sku in
    if negb (truthy_opt normalized) then None
    else Some (upper (replace " " "" (fmt normalized))).

Definition is_some (A : Type) (o : option A) : bool :=
  match o with Some _ => true | None => false end.

(** The branch [normalize_sku] takes on a text: none of its patterns, or its
    second pattern (a remainder after a blank). *)
Definition takes_fallback (raw : string) : bool :=
  let sku := prepare_sku raw in
  negb (is_some (rmatch re_pattern1 sku))
  && negb (is_some (rmatch re_pattern2 sku))
  && negb (is_some (rmatch re_pattern3 sku)).

Definition takes_pattern2 (raw : string) : bool :=
  let sku := prepare_sku raw in
  negb (is_some (rmatch re_pattern1 sku))
  && is_some (rmatch re_pattern2 sku).


(** The head [(WP[A-Z]+)\s*(\d+)] of the three patterns, before a
    continuation [k]. *)
Definition code_pattern (k : pattern) : pattern :=
  Open :: One (is_char "W") :: One (is_char "P") :: One is_AZ :: Star is_AZ
    :: Close :: Star is_space :: Open :: One is_digit :: Star is_digit
    :: Close :: k.

(** [(.+)$] *)
Definition rest_pattern : pattern :=
  [Open; One is_dot; Star is_dot; Close; Eos].

(* ================================================================== *)
(** * The rest of the three modules *)
(* ================================================================== *)

(** ** config.py: categories *)

Definition FILLETTE_CATEGORY_ID : nat := 296.

(** [CATEGORY_MAPPING], in the order of the dict. *)
Definition CATEGORY_MAPPING : list (string * list nat) :=
  [("PANTALON JEANS", [296; 298; 307]);
   ("JUPE JEANS", [296; 298; 310]);
   ("PANTALON COTTON", [296; 298; 308]);
   ("T-SHIRT", [296; 297; 301]);
   ("PULL", [296; 297; 303]);
   ("SWEAT", [296; 297; 305]);
   ("DEFAULT", [296])].

(** [key in s] on texts. *)
Fixpoint is_infix (key s : string) : bool :=
  String.prefix key s
  || match s with
     | String _ r => is_infix key r
     | "" => false
     end.

(** [CATEGORY_MAPPING['DEFAULT']] *)
Definition default_categories : list nat :=
  match dict_get CATEGORY_MAPPING "DEFAULT" with
  | Some c => c
  | None => []
  end.

(** [get_categories_for_famille(famille)]; [None] is the [AttributeError] of
    [famille.upper()] on a value that is true and no text. *)
Definition get_categories_for_famille (famille : value)
  : option (list nat) :=
  if negb (truthy famille) then Some default_categories
  else
    match famille with
    | VStr s =>
        let famille_upper := strip (upper s) in
        match dict_get CATEGORY_MAPPING famille_upper with
        | Some categories => Some categories
        | None =>
            match
              find (fun '(key, _) =>
                      negb (String.eqb key "DEFAULT")
                      && is_infix key famille_upper)
                CATEGORY_MAPPING
            with
            | Some (_, categories) => Some categories
            | None => Some default_categories
            end
        end
    | _ => None
    end.

(** ** image_mapping.py: the mapping of all SKUs *)

(** [build_sku_to_images_mapping(xlsx_skus, images_dir)]; an element of
    [xlsx_skus] is the text under its key ['raw_sku'], if it has one. *)
Definition build_sku_to_images_mapping (xlsx_skus : list (option string))
    (images_dir : string) (content : option (list dir_item))
  : list (string * list string) :=
  let fm := scan_image_folders images_dir content in
  fold_left
    (fun mapping sku_info =>
       let raw_sku := match sku_info with Some s => s | None => "" end in
       dict_set mapping raw_sku (find_images_for_sku (VStr raw_sku) fm))
    xlsx_skus [].

(** ** sync_products_v2.py: a group from the lookup to the buckets *)

Module Whole.

Section Run.

(** [clean_price]: [float()] and [round()] of a cell. *)
Variable clean_price : value -> option string.
(** [float(a) < float(b)] on two cleaned prices. *)
Variable price_lt : string -> string -> bool.
(** [api.get_product_by_sku], which turns every failure into [None]. *)
Variable get_product_by_sku : string -> option product.
(** The live calls: the uploads, [api.put] or [api.post] of the product with
    its categories and [create_variations]; an error text for an exception
    raised in the [try], else the id of the answer and the number of
    variations. *)
Variable push :
  string -> list variant -> string -> list string -> list string ->
  option string -> list string -> list nat -> option product ->
  string + (nat * nat).
(** [self.dry_run] *)
Variable dry_run : bool.

(** [create_product_from_group(base_sku, variants, folder_map)] with all its
    steps: the lookup of an existing product, the name, the colours, sizes,
    price and images, the categories of the first variant, then the dry-run
    record or the live calls.  [None] is an exception that leaves the
    function: the [IndexError] of [variants[0]] or the [AttributeError] of
    [get_categories_for_famille]. *)
Definition create_product_from_group (base_sku : string)
    (variants : list variant) (fm : folder_map) (st : sync_state)
  : option (bool * sync_state) :=
  let existing_product :=
    find_existing get_product_by_sku base_sku variants in
  let complete :=
    match existing_product with
    | Some p =>
        SKIP_EXISTING && (0 <? Product.variations p)
        && (0 <? Product.images p)
    | None => false
    end in
  if complete then Some (false, skip st base_sku "complete")
  else
    first_variant <- iloc variants 0 ;;
    let product_name :=
      match name_from_variants variants with
      | Some n => n
      | None => ""
      end in
    let product_name :=
      match existing_product with
      | Some p => if nonempty product_name then product_name
                  else Product.name p
      | None => product_name
      end in
    if negb (nonempty product_name)
    then Some (false, skip st base_sku "no_name")
    else
      let all_colors := collect_colors variants in
      let all_sizes := collect_sizes variants in
      let best_price := collect_price price_lt variants in
      let product_images := collect_images variants fm in
      match all_sizes with
      | [] => Some (false, skip st base_sku "no_sizes")
      | _ =>
          categories <-
            get_categories_for_famille (Variant.famille first_variant) ;;
          if dry_run then
            Some (true,
                  create st
                    (DryRun base_sku product_name
                       (List.length all_sizes) (List.length all_colors)))
          else
            match push base_sku variants product_name all_colors all_sizes
                    best_price product_images categories existing_product
            with
            | inr (id, variations) =>
                let product_id :=
                  match existing_product with
                  | Some p => Product.id p
                  | None => id
                  end in
                Some (true,
                      create st
                        (Live base_sku product_name product_id variations))
            | inl error => Some (false, fail st base_sku error)
            end
      end.

(** The loop of [sync_from_xlsx] over the groups: (processed, success) and
    the buckets. *)
Fixpoint process_groups (groups : list (string * list variant))
    (fm : folder_map) (limit : option nat) (processed success : nat)
    (st : sync_state) : option (nat * nat * sync_state) :=
  match groups with
  | [] => Some (processed, success, st)
  | (base_sku, variants) :: rest =>
      if match limit with
         | Some l => negb (l =? 0) && (l <=? processed)
         | None => false
         end
      then Some (processed, success, st)
      else
        r <- create_product_from_group base_sku variants fm st ;;
        process_groups rest fm limit (S processed)
          (if fst r then S success else success) (snd r)
  end.


End Run.

End Whole.

(** ** Notions for the further properties *)


(** A list in the order of [size_le], neighbour by neighbour. *)
Fixpoint in_size_order (l : list string) : bool :=
  match l with
  | x :: ((y :: _) as r) => size_le x y && in_size_order r
  | _ => true
  end.

(** A famille cell on which [get_categories_for_famille] does not raise: no
    value, or a text, or the number 0. *)
Definition famille_ok (v : value) : bool :=
  match v with
  | VNaN => false
  | VInt z => Z.eqb z 0
  | _ => true
  end.

(** The last character of a text is not whitespace. *)
Fixpoint ends_in_word (s : string) : bool :=
  match s with
  | "" => true
  | String c "" => negb (is_space c)
  | String _ r => ends_in_word r
  end.

(** The extension test of [scan_image_folders]. *)
Definition is_image_file (f : string) : bool :=
  existsb (endswith (lower f)) IMAGE_EXTENSIONS.

(** One turn of the loop of [scan_image_folders]. *)
Definition scan_step (images_dir : string) (folders : folder_map)
    (it : dir_item) : folder_map :=
  match it with
  | PlainFile _ => folders
  | Folder item listing =>
      let item_path := path_join images_dir item in
      let key := get_folder_key item in
      dict_set folders key
        (Folder.mk item_path item
           (map (path_join item_path)
              (filter (fun f => existsb (endswith (lower f)) IMAGE_EXTENSIONS)
                 listing)))
  end.

(** One turn of the loop of [build_sku_to_images_mapping]. *)
Definition mapping_step (fm : folder_map)
    (mapping : list (string * list string)) (sku_info : option string)
  : list (string * list string) :=
  let raw_sku := match sku_info with Some s => s | None => "" end in
  dict_set mapping raw_sku (find_images_for_sku (VStr raw_sku) fm).

(** The key of the group a row goes to, if the row is kept: the base of its
    SKU cell, when that cell is not empty and its base is a true value. *)
Definition row_base (df : list (list value)) (idx : nat) : option string :=
  match nth_error df idx with
  | Some row =>
      match nth_error row XLSX_COLUMNS.sku with
      | Some raw_sku =>
          if isna raw_sku then None
          else
            match fst (parse_sku raw_sku) with
            | Some base => if nonempty base then Some base else None
            | None => None
            end
      | None => None
      end
  | None => None
  end.

(** Strictly increasing numbers. *)
Fixpoint increasing (l : list nat) : bool :=
  match l with
  | x :: ((y :: _) as r) => (x <? y) && increasing r
  | _ => true
  end.

(** A data frame whose rows from [lo] to [hi] exist and have nine cells at
    least. *)
Definition rows_wide (df : list (list value)) (lo hi : nat) : Prop :=
  forall idx, lo <= idx < hi ->
    exists row, nth_error df idx = Some row /\ 9 <= List.length row.

(** The variant [group_rows_by_base_sku] builds for the row at [idx]; [None]
    when a cell it reads is missing. *)
Definition row_variant (clean_price : value -> option string) (idx : nat)
    (row : list value) : option variant :=
  raw_sku <- nth_error row XLSX_COLUMNS.sku ;;
  color <- nth_error row XLSX_COLUMNS.color ;;
  price <- nth_error row XLSX_COLUMNS.price ;;
  name <- nth_error row XLSX_COLUMNS.name ;;
  famille <- nth_error row XLSX_COLUMNS.famille ;;
  tech <- nth_error row XLSX_COLUMNS.tech_description ;;
  descr <- nth_error row XLSX_COLUMNS.description ;;
  Some
    (Variant.mk idx row
       (strip (str raw_sku))
       (snd (parse_sku raw_sku))
       (if notna color then color else of_opt (snd (parse_sku raw_sku)))
       (get_available_sizes row)
       (clean_price price)
       (if notna name then name else VNone)
       (if notna famille then famille else VNone)
       (if notna tech then tech else VStr "")
       (if notna descr then descr else VStr "")).

(** A variant stands for its row: the row at its index is kept under the key
    [k], and the variant is the one built from that row. *)
Definition variant_of_row (clean_price : value -> option string)
    (df : list (list value)) (k : string) (v : variant) : Prop :=
  row_base df (Variant.row_idx v) = Some k
  /\ nth_error df (Variant.row_idx v) = Some (Variant.row v)
  /\ row_variant clean_price (Variant.row_idx v) (Variant.row v) = Some v.

(** The groups of the rows from [lo] to [hi]: keys pairwise different, no
    empty group, the variants of a group in the order of their rows and each
    standing for a row of the range kept under the key of the group, and
    every kept row of the range in the group of its key. *)
Definition grouped (clean_price : value -> option string)
    (df : list (list value)) (lo hi : nat)
    (groups : list (string * list variant)) : Prop :=
  NoDup (map fst groups)
  /\ (forall k vs, In (k, vs) groups ->
        vs <> []
        /\ increasing (map Variant.row_idx vs) = true
        /\ forall v, In v vs ->
             lo <= Variant.row_idx v < hi
             /\ variant_of_row clean_price df k v)
  /\ (forall idx k, lo <= idx < hi -> row_base df idx = Some k ->
        exists vs v, In (k, vs) groups /\ In v vs
                     /\ Variant.row_idx v = idx).

(** The SKU of an entry of [created_products]. *)
Definition created_sku (c : created) : string :=
  match c with
  | DryRun sku _ _ _ => sku
  | Live sku _ _ _ => sku
  end.

(** The reasons [create_product_from_group] gives for a skip. *)
Definition skip_reasons : list string := ["complete"; "no_name"; "no_sizes"].



(** The counts [p'] and [s'] and the buckets [st'] of a run over [groups]
    that began with [p], [s] and [st] agree: each bucket is the one before
    with new entries at its end; [s'] grew by the number of new created
    entries and [p'] by the number of all new entries, at most the number of
    groups; every new entry bears the key of a group and every skip one of
    the three reasons; a dry run has no new failure. *)
Definition accounted (dry_run : bool) (groups : list (string * list variant))
    (p s : nat) (st : sync_state) (p' s' : nat) (st' : sync_state) : Prop :=
  exists cs sk fl,
    created_products st' = (created_products st ++ cs)%list
    /\ skipped_products st' = (skipped_products st ++ sk)%list
    /\ failed_products st' = (failed_products st ++ fl)%list
    /\ s' = s + List.length cs
    /\ p' = p + (List.length cs + List.length sk + List.length fl)
    /\ p' <= p + List.length groups
    /\ (forall sku, In sku (map created_sku cs ++ map fst sk ++ map fst fl)
          -> In sku (map fst groups))
    /\ (forall e, In e sk -> In (snd e) skip_reasons)
    /\ (dry_run = true -> fl = []).

(** A store that refuses every live call. *)
Definition offline (_ : string) (_ : list variant) (_ : string)
    (_ _ : list string) (_ : option string) (_ : list string)
    (_ : list nat) (_ : option product) : string + (nat * nat) :=
  inl "offline".


(** What a run of whitespace inside a text becomes when [parse_sku] collapses
    it: one space, or nothing for no whitespace. *)
Definition one_space (gap : string) : string :=
  if nonempty gap then " " else "".

(** A product code as [parse_sku] keeps it: WP, the letters, one space if
    there was whitespace, the digits. *)
Definition product_code (letters gap digits : string) : string :=
  "WP" ++ letters ++ one_space gap ++ digits.

(** ** sync_products_v2.py: the variations of a product *)

(** [SIZE_ATTRIBUTE['id']] and [COLOR_ATTRIBUTE['id']] of config.py *)
Definition SIZE_ATTRIBUTE_id : nat := 3.
Definition COLOR_ATTRIBUTE_id : nat := 6.

(** A variation the store has: its id and its attributes, each an id with
    an option. *)
Module Existing.
Record t : Type := mk {
    id : nat;
    attributes : list (nat * option string)
  }.
End Existing.

(** The [variation_data] sent for a size and a colour; the colour attribute
    and the image are absent when the colour or the image id is not a true
    value. *)
Module Variation.
Record t : Type := mk {
    regular_price : string;
    size : string;
    color : option string;
    image : option nat
  }.
End Variation.

(** An entry of [color_data]; the set of sizes is kept as a list without
    duplicates, in the order the sizes came in. *)
Module ColorData.
Record t : Type := mk {
    sizes : list string;
    price : option string;
    image_id : option nat
  }.
End ColorData.

(** The truth of a text or [None], and of an id or [None]. *)
Definition truthy_text (o : option string) : bool :=
  match o with
  | Some s => nonempty s
  | None => false
  end.

Definition truthy_id (o : option nat) : bool :=
  match o with
  | Some n => negb (n =? 0)
  | None => false
  end.

(** [s.update(l)] on a set. *)
Definition set_update (s l : list string) : list string :=
  fold_left (fun acc x => if mem x acc then acc else (acc ++ [x])%list) l s.

Definition opt_eqb (a b : option string) : bool :=
  match a, b with
  | Some x, Some y => String.eqb x y
  | None, None => true
  | _, _ => false
  end.

(** The keys of [existing_var_map]: (size option, colour option). *)
Definition var_key : Type := (option string * option string)%type.

Definition var_key_eqb (a b : var_key) : bool :=
  opt_eqb (fst a) (fst b) && opt_eqb (snd a) (snd b).

Fixpoint var_map_get (d : list (var_key * Existing.t)) (k : var_key)
  : option Existing.t :=
  match d with
  | [] => None
  | (k', v) :: r => if var_key_eqb k' k then Some v else var_map_get r k
  end.

Fixpoint var_map_set (d : list (var_key * Existing.t)) (k : var_key)
    (v : Existing.t) : list (var_key * Existing.t) :=
  match d with
  | [] => [(k, v)]
  | (k', v') :: r =>
      if var_key_eqb k' k then (k', v) :: r else (k', v') :: var_map_set r k v
  end.

(** The attribute loop over an existing variation: its size and colour
    options, the last of each. *)
Definition existing_key (ev : Existing.t) : var_key :=
  fold_left
    (fun '(size_opt, color_opt) '(attr_id, option) =>
       if attr_id =? SIZE_ATTRIBUTE_id then (option, color_opt)
       else if attr_id =? COLOR_ATTRIBUTE_id then (size_opt, option)
       else (size_opt, color_opt))
    (Existing.attributes ev) (None, None).

(** [effective_colors]: the colours, or the one colour [None]. *)
Definition effective_colors (all_colors : list string)
  : list (option string) :=
  match all_colors with
  | [] => [None]
  | _ => map Some all_colors
  end.

Section Variations.

(** [self.dry_run] *)
Variable dry_run : bool.
(** [self.upload_image]: the id of the uploaded image, [None] for a missing
    file, a refusal or an exception. *)
Variable upload_image : string -> option nat.
(** [api.get('products/<id>/variations')]; [None] is an exception. *)
Variable api_get_variations : nat -> option (list Existing.t).
(** [api.put] and [api.post] of a variation; [false] is an exception, which
    the loop catches. *)
Variable api_put : nat -> nat -> Variation.t -> bool.
Variable api_post : nat -> Variation.t -> bool.

(** One turn of the loop over the variants that fills [color_data]; the
    images of a variant are those [create_product_from_group] has stored in
    it. *)
Definition color_data_step (fm : folder_map)
    (color_data : list (string * ColorData.t)) (v : variant)
  : list (string * ColorData.t) :=
  let color :=
    if truthy (Variant.color v) then strip (str (Variant.color v))
    else "Default" in
  let image_id :=
    if negb dry_run then
      match find_images_for_sku (VStr (Variant.raw_sku v)) fm with
      | img_path :: _ => upload_image img_path
      | [] => None
      end
    else None in
  let cd :=
    match dict_get color_data color with
    | Some cd => cd
    | None => ColorData.mk [] (Variant.price v) image_id
    end in
  dict_set color_data color
    (ColorData.mk
       (set_update (ColorData.sizes cd) (Variant.sizes v))
       (if truthy_text (Variant.price v)
           && negb (truthy_text (ColorData.price cd))
        then Variant.price v else ColorData.price cd)
       (if truthy_id image_id && negb (truthy_id (ColorData.image_id cd))
        then image_id else ColorData.image_id cd)).

Definition build_color_data (fm : folder_map) (variants : list variant)
  : list (string * ColorData.t) :=
  fold_left (color_data_step fm) variants [].

(** The variations of one colour: for each of its sizes the size, the
    colour and the data sent. *)
Definition color_variations (color_data : list (string * ColorData.t))
    (all_sizes : list string) (default_price : option string)
    (color : option string)
  : list (string * option string * Variation.t) :=
  let default := ColorData.mk all_sizes default_price None in
  let cd :=
    match color with
    | Some c =>
        match dict_get color_data c with
        | Some cd => cd
        | None => default
        end
    | None => default
    end in
  let color_sizes :=
    match ColorData.sizes cd with
    | [] => all_sizes
    | sizes => sizes
    end in
  let color_price :=
    if truthy_text (ColorData.price cd) then ColorData.price cd
    else default_price in
  let color_image := ColorData.image_id cd in
  map
    (fun size =>
       (size, color,
        Variation.mk
          (match color_price with
           | Some p => p
           | None => ""
           end)
          size
          (if truthy_text color then color else None)
          (if truthy_id color_image then color_image else None)))
    color_sizes.

(** All the variations [create_variations] sends, in the order of its two
    loops. *)
Definition variation_requests (fm : folder_map) (variants : list variant)
    (all_sizes all_colors : list string) (default_price : option string)
  : list (string * option string * Variation.t) :=
  flat_map
    (color_variations (build_color_data fm variants) all_sizes default_price)
    (effective_colors all_colors).

(** [create_variations(product_id, variants, all_sizes, all_colors,
    default_price)]: the number of variations created or updated; [None] is
    the exception of the first [api.get]. *)
Definition create_variations (product_id : nat) (variants : list variant)
    (fm : folder_map) (all_sizes all_colors : list string)
    (default_price : option string) : option nat :=
  existing_vars <- api_get_variations product_id ;;
  let existing_var_map :=
    fold_left (fun map ev => var_map_set map (existing_key ev) ev)
      existing_vars [] in
  Some
    (List.length
       (filter
          (fun '(size, color, variation_data) =>
             match var_map_get existing_var_map (Some size, color) with
             | Some ev =>
                 api_put product_id (Existing.id ev) variation_data
             | None => api_post product_id variation_data
             end)
          (variation_requests fm variants all_sizes all_colors
             default_price))).

End Variations.

(** The size and colour a variation is sent for. *)
Definition request_key (r : string * option string * Variation.t)
  : string * option string :=
  (fst (fst r), snd (fst r)).

(** The variations [create_product_from_group] has [create_variations] send
    for a group: those of its variants over its sizes and colours. *)
Definition group_variations (dry_run : bool)
    (upload_image : string -> option nat) (fm : folder_map)
    (variants : list variant) (default_price : option string)
  : list (string * option string * Variation.t) :=
  variation_requests dry_run upload_image fm variants
    (collect_sizes variants) (collect_colors variants) default_price.

(** The colour [create_variations] files a variant under. *)
Definition variant_color (v : variant) : string :=
  if truthy (Variant.color v) then strip (str (Variant.color v))
  else "Default".

(** The first true price among the variants of a colour. *)
Fixpoint first_price (color : string) (variants : list variant)
  : option string :=
  match variants with
  | [] => None
  | v :: r =>
      if String.eqb (variant_color v) color && truthy_text (Variant.price v)
      then Variant.price v
      else first_price color r
  end.

(** The text of a price, the empty text for none. *)
Definition price_text (price : option string) : string :=
  match price with
  | Some p => p
  | None => ""
  end.

(** A SKU text of a product code: the code alone, the code with a numeric
    dash variation, or the code with a text without dash behind it.
    Whitespace may stand around the text, between the letters and the digits
    of the code and around the dash; [code] is the code with that whitespace
    collapsed. *)
Definition sku_of_code (code s : string) : Prop :=
  exists lead letters gap digits,
    all_chars is_space lead = true
    /\ all_chars is_AZ letters = true /\ nonempty letters = true
    /\ all_chars is_space gap = true
    /\ all_chars is_digit digits = true /\ nonempty digits = true
    /\ code = product_code letters gap digits
    /\ ((exists trail,
           all_chars is_space trail = true
           /\ s = lead ++ "WP" ++ letters ++ gap ++ digits ++ trail)
        \/ (exists sp1 sp2 d trail,
              all_chars is_space sp1 = true /\ all_chars is_space sp2 = true
              /\ all_chars is_digit d = true /\ nonempty d = true
              /\ all_chars is_space trail = true
              /\ s = lead ++ "WP" ++ letters ++ gap ++ digits ++ sp1 ++ "-"
                       ++ sp2 ++ d ++ trail)
        \/ (exists sp rest,
              all_chars is_space sp = true /\ nonempty sp = true
              /\ blank rest = false /\ contains "-" rest = false
              /\ s = lead ++ "WP" ++ letters ++ gap ++ digits ++ sp
                       ++ rest)).

(** The SKU cell of the row at [idx]. *)
Definition sku_cell (df : list (list value)) (idx : nat) : option value :=
  row <- nth_error df idx ;;
  nth_error row XLSX_COLUMNS.sku.

(* ================================================================== *)
(** * Properties *)
(* ================================================================== *)

(** ** The SKU parser on the documented examples *)

(** C4: [parse_sku] maps "WPJF 001-127" to ("WPJF 001", "127"),
    "WPJF 001 -120" to ("WPJF 001", "120"), "WPMF001 ROSE -39" to
    ("WPMF001", "39") (the numeric dash variation is kept, the descriptor ROSE
    leaves the base in the deep parse) and "WPJF 0012 BLUE MEDIUM" to
    ("WPJF 0012", "BLUE MEDIUM"). *)
Theorem parse_sku_documented_examples :
  parse_sku (VStr "WPJF 001-127") = (Some "WPJF 001", Some "127")
  /\ parse_sku (VStr "WPJF 001 -120") = (Some "WPJF 001", Some "120")
  /\ parse_sku (VStr "WPMF001 ROSE -39") = (Some "WPMF001", Some "39")
  /\ parse_sku (VStr "WPJF 0012 BLUE MEDIUM")
     = (Some "WPJF 0012", Some "BLUE MEDIUM").
Proof. repeat split; vm_compute; reflexivity. Qed.

(** The dash pattern is what takes "39" in the third example, before the
    deep parse cuts the base. *)
Lemma parse_sku_rose_dash_match :
  rmatch re_dash "WPMF001 ROSE -39" = Some ["WPMF001 ROSE"; "39"]
  /\ rmatch re_space "WPMF001 ROSE" = Some ["WPMF001"; "ROSE"].
Proof. split; vm_compute; reflexivity. Qed.

(** ** The row grouper *)

Lemma nine_cells (A : Type) (r : list A) :
  9 <= List.length r ->
  exists c0 c1 c2 c3 c4 c5 c6 c7 c8 rest,
    r = c0 :: c1 :: c2 :: c3 :: c4 :: c5 :: c6 :: c7 :: c8 :: rest.
Proof.
  intros H.
  do 9 (destruct r as [|? r]; [simpl in H; lia|]).
  do 10 eexists. reflexivity.
Qed.

Ltac open_row r H Hsku :=
  let c0 := fresh "c" in
  destruct (nine_cells r H) as (c0 & ? & ? & ? & ? & ? & ? & ? & ? & ? & ->);
  cbn in Hsku; injection Hsku as ->.

(** C1, as the code has it: the rows with SKUs "WPJF001-A", "WPJF001-B" and
    "WPGR002" (other cells arbitrary, nine columns at least) fall into three
    groups keyed by the whole SKUs, one row each and in the order of the rows,
    because [parse_sku] cuts a dash suffix off only when it is numeric; with
    the numeric suffixes "WPJF001-1", "WPJF001-2" the grouping gives the two
    groups, WPJF001 with the first two rows in their order and WPGR002 with
    the third. *)
Theorem group_rows_three_skus (clean_price : value -> option string)
    (r1 r2 r3 : list value) :
  9 <= List.length r1 -> 9 <= List.length r2 -> 9 <= List.length r3 ->
  (iloc r1 XLSX_COLUMNS.sku = Some (VStr "WPJF001-A") ->
   iloc r2 XLSX_COLUMNS.sku = Some (VStr "WPJF001-B") ->
   iloc r3 XLSX_COLUMNS.sku = Some (VStr "WPGR002") ->
   grouped_in_three clean_price "WPJF001-A" "WPJF001-B" "WPGR002" r1 r2 r3)
  /\
  (iloc r1 XLSX_COLUMNS.sku = Some (VStr "WPJF001-1") ->
   iloc r2 XLSX_COLUMNS.sku = Some (VStr "WPJF001-2") ->
   iloc r3 XLSX_COLUMNS.sku = Some (VStr "WPGR002") ->
   grouped_in_two clean_price "WPJF001" "WPGR002" r1 r2 r3).
Proof.
  intros L1 L2 L3; split; intros S1 S2 S3;
    open_row r1 L1 S1; open_row r2 L2 S2; open_row r3 L3 S3;
    do 3 eexists; (split; [cbv; reflexivity | cbn; auto]).
Qed.

Lemma group_rows_three_skus_witness :
  grouped_in_three no_price "WPJF001-A" "WPJF001-B" "WPGR002"
    (sku_row "WPJF001-A") (sku_row "WPJF001-B") (sku_row "WPGR002")
  /\ grouped_in_two no_price "WPJF001" "WPGR002"
       (sku_row "WPJF001-1") (sku_row "WPJF001-2") (sku_row "WPGR002").
Proof.
  split.
  - apply (proj1 (@group_rows_three_skus no_price
                    (sku_row "WPJF001-A") (sku_row "WPJF001-B")
                    (sku_row "WPGR002")
                    ltac:(simpl; lia) ltac:(simpl; lia) ltac:(simpl; lia)));
      reflexivity.
  - apply (proj2 (@group_rows_three_skus no_price
                    (sku_row "WPJF001-1") (sku_row "WPJF001-2")
                    (sku_row "WPGR002")
                    ltac:(simpl; lia) ltac:(simpl; lia) ltac:(simpl; lia)));
      reflexivity.
Defined.

(** The rows "WPJF001-A", "WPJF001-B", "WPGR002" are not grouped in two. *)
Lemma group_rows_letter_suffix_not_merged :
  ~ grouped_in_two no_price "WPJF001" "WPGR002"
      (sku_row "WPJF001-A") (sku_row "WPJF001-B") (sku_row "WPGR002").
Proof.
  intros (v1 & v2 & v3 & H & _).
  vm_compute in H. discriminate H.
Qed.

(** ** Size columns *)

Lemma size_columns_offsets (off : nat) (label : string) :
  In (off, label) SIZE_COLUMNS -> 9 <= off <= 16.
Proof.
  unfold SIZE_COLUMNS; simpl; intros H.
  repeat (destruct H as [H | H]; [injection H as <- <-; lia|]).
  contradiction.
Qed.

Lemma size_columns_functional (off off' : nat) (label : string) :
  In (off, label) SIZE_COLUMNS -> In (off', label) SIZE_COLUMNS -> off = off'.
Proof.
  unfold SIZE_COLUMNS; simpl; intros H H'.
  repeat (destruct H as [H | H];
          [injection H as <- <-;
           repeat (destruct H' as [H' | H'];
                   [first [discriminate H' | injection H' as <-; reflexivity]|]);
           contradiction|]).
  contradiction.
Qed.

Lemma cell_marked_nth (row : list value) (off : nat) :
  cell_marked row off
  = (let value :=
       if off <? List.length row then nth off row VNone else VNone in
     notna value && String.eqb (upper (strip (str value))) "X").
Proof.
  unfold cell_marked.
  destruct (off <? List.length row) eqn:E.
  - apply Nat.ltb_lt in E.
    rewrite (nth_error_nth' row VNone E). reflexivity.
  - apply Nat.ltb_ge in E.
    apply nth_error_None in E. rewrite E. reflexivity.
Qed.

(** C6, as the code has it: for every row and every size column (offsets 9
    to 16) the column's label is in the row's sizes if and only if the cell at
    that offset is there, is not empty, and reads X (in either case) after
    trimming. *)
Theorem get_available_sizes_marked (row : list value) (off : nat)
    (label : string) :
  In (off, label) SIZE_COLUMNS ->
  (In label (get_available_sizes row) <-> cell_marked row off = true).
Proof.
  intros Hin. unfold get_available_sizes.
  rewrite in_flat_map. split.
  - intros ([off' label'] & Hin' & Hl).
    rewrite <- cell_marked_nth in Hl.
    destruct (cell_marked row off') eqn:E; [|contradiction].
    destruct Hl as [<- | []].
    now rewrite (size_columns_functional Hin Hin').
  - intros E. exists (off, label). split; [assumption|].
    rewrite <- cell_marked_nth, E. now left.
Qed.

Lemma get_available_sizes_marked_witness :
  In "2-3" (get_available_sizes (sku_row "WPJF 001-127" ++ [VStr " x "]))
  <-> cell_marked (sku_row "WPJF 001-127" ++ [VStr " x "]) 9 = true.
Proof.
  apply (@get_available_sizes_marked
           (sku_row "WPJF 001-127" ++ [VStr " x "])%list 9 "2-3").
  simpl. left. reflexivity.
Defined.

(** A cell that reads "yes" is present but its size is not taken. *)
Lemma size_cell_present_not_taken :
  ~ (In "2-3" (get_available_sizes (sku_row "WPJF 001-127" ++ [VStr "yes"]))
     <-> cell_present (sku_row "WPJF 001-127" ++ [VStr "yes"]) 9 = true).
Proof.
  intros [_ H].
  assert (P : cell_present (sku_row "WPJF 001-127" ++ [VStr "yes"]) 9 = true)
    by (vm_compute; reflexivity).
  specialize (H P). vm_compute in H. exact H.
Qed.

(** ** Colours of a variant *)

Lemma mem_In (x : string) (l : list string) : mem x l = true <-> In x l.
Proof.
  unfold mem. rewrite existsb_exists. split.
  - intros (y & Hy & E). apply String.eqb_eq in E. now subst.
  - intros H. exists x. split; [assumption | apply String.eqb_refl].
Qed.

Lemma color_step_keeps (acc : list string) (v : variant) (x : string) :
  In x acc -> In x (color_step acc v).
Proof.
  intros H. unfold color_step.
  destruct (truthy _ && _); [|assumption].
  destruct (mem _ acc); [assumption|].
  apply in_or_app. now left.
Qed.

Lemma colors_fold_keeps (variants : list variant) (acc : list string)
    (x : string) :
  In x acc -> In x (fold_left color_step variants acc).
Proof.
  revert acc. induction variants as [|v r IH]; intros acc H; simpl.
  - assumption.
  - apply IH, color_step_keeps, H.
Qed.

Lemma colors_fold_takes (variants : list variant) (acc : list string)
    (v : variant) :
  In v variants ->
  truthy (Variant.color v) = true ->
  blank (str (Variant.color v)) = false ->
  In (strip (str (Variant.color v))) (fold_left color_step variants acc).
Proof.
  revert acc. induction variants as [|w r IH]; intros acc Hin Ht Hb.
  - destruct Hin.
  - simpl. destruct Hin as [-> | Hin].
    + apply colors_fold_keeps. unfold color_step.
      unfold blank in Hb. apply negb_false_iff in Hb.
      rewrite Ht, Hb. simpl.
      destruct (mem _ acc) eqn:E.
      * now apply mem_In.
      * apply in_or_app. right. now left.
    + now apply IH.
Qed.

(** C9: a kept row whose colour cell is empty gives a variant whose colour
    is the parsed variation token of the row ([None] when there is none), and
    such a token, when it is not blank, is among the colour options collected
    for the group. *)
Theorem empty_color_takes_variation (clean_price : value -> option string) :
  (forall df groups idx row raw c,
      iloc df idx = Some row ->
      9 <= List.length row ->
      iloc row XLSX_COLUMNS.sku = Some raw ->
      isna raw = false ->
      truthy_opt (fst (parse_sku raw)) = true ->
      iloc row XLSX_COLUMNS.color = Some c ->
      isna c = true ->
      exists v,
        group_row clean_price df groups idx
          = Some (dict_append groups (fmt (fst (parse_sku raw))) v)
        /\ Variant.row_idx v = idx
        /\ Variant.row v = row
        /\ Variant.var_code v = snd (parse_sku raw)
        /\ Variant.color v = of_opt (snd (parse_sku raw)))
  /\
  (forall variants v code,
      In v variants ->
      Variant.color v = of_opt (Some code) ->
      blank code = false ->
      In (strip code) (collect_colors variants)).
Proof.
  split.
  - intros df groups idx row raw c Hrow Hlen Hsku Hna Hbase Hc Hcna.
    unfold group_row. rewrite Hrow.
    destruct (nine_cells row Hlen)
      as (c0 & c1 & c2 & c3 & c4 & c5 & c6 & c7 & c8 & rest & ->).
    cbn in Hsku, Hc. injection Hsku as ->. injection Hc as ->.
    cbn [iloc nth_error XLSX_COLUMNS.sku XLSX_COLUMNS.color
         XLSX_COLUMNS.price XLSX_COLUMNS.name XLSX_COLUMNS.famille
         XLSX_COLUMNS.tech_description XLSX_COLUMNS.description].
    rewrite Hna.
    destruct (parse_sku raw) as [base var] eqn:E. cbn [fst snd] in *.
    rewrite Hbase. cbn [negb].
    unfold notna. rewrite Hcna. cbn [negb].
    eexists. split; [reflexivity|]. cbn. auto.
  - intros variants v code Hin Hcol Hb.
    assert (Ht : truthy (Variant.color v) = true).
    { rewrite Hcol. cbn. destruct code; [discriminate Hb | reflexivity]. }
    pose proof (@colors_fold_takes variants [] v Hin Ht) as H.
    rewrite Hcol in H. cbn [of_opt str] in H.
    exact (H Hb).
Qed.

Lemma empty_color_takes_variation_witness :
  (exists v,
      group_row no_price [sku_row "WPJF 001-127"] [] 0
        = Some (dict_append []
                  (fmt (fst (parse_sku (VStr "WPJF 001-127")))) v)
      /\ Variant.row_idx v = 0
      /\ Variant.row v = sku_row "WPJF 001-127"
      /\ Variant.var_code v = snd (parse_sku (VStr "WPJF 001-127"))
      /\ Variant.color v = of_opt (snd (parse_sku (VStr "WPJF 001-127"))))
  /\ In (strip "127")
        (collect_colors
           [Variant.mk 0 (sku_row "WPJF 001-127") "WPJF 001-127" (Some "127")
              (of_opt (Some "127")) [] None VNone VNone (VStr "") (VStr "")]).
Proof.
  split.
  - apply (proj1 (empty_color_takes_variation no_price)
             [sku_row "WPJF 001-127"] [] 0 (sku_row "WPJF 001-127")
             (VStr "WPJF 001-127") VNaN);
      first [reflexivity | simpl; lia].
  - apply (proj2 (empty_color_takes_variation no_price)
             [Variant.mk 0 (sku_row "WPJF 001-127") "WPJF 001-127"
                (Some "127") (of_opt (Some "127")) [] None VNone VNone
                (VStr "") (VStr "")]
             (Variant.mk 0 (sku_row "WPJF 001-127") "WPJF 001-127"
                (Some "127") (of_opt (Some "127")) [] None VNone VNone
                (VStr "") (VStr ""))
             "127");
      first [reflexivity | simpl; auto].
Defined.

(** ** The representative name of a group *)

Section Naming.
Variable price_lt : string -> string -> bool.
Variable get_product_by_sku : string -> option product.
Variable push :
  string -> list variant -> string -> list string -> list string ->
  option string -> list string -> option product -> string + (nat * nat).
Variable dry_run : bool.

(** Without a remote product, a group whose name loop ends without a text is
    skipped with the reason no_name. *)
Lemma create_product_no_name (base_sku : string) (variants : list variant)
    (fm : folder_map) (st : sync_state) :
  find_existing get_product_by_sku base_sku variants = None ->
  variants <> [] ->
  match name_from_variants variants with
  | Some n => nonempty n
  | None => false
  end = false ->
  create_product_from_group price_lt get_product_by_sku push dry_run
    base_sku variants fm st
  = Some (false, skip st base_sku "no_name").
Proof.
  intros He Hv Hn. unfold create_product_from_group.
  rewrite He. destruct variants as [|v r]; [contradiction|].
  cbn [iloc nth_error].
  destruct (name_from_variants (v :: r)) as [n|]; [rewrite Hn|]; reflexivity.
Qed.

(** The run goes on with the remaining groups after a group that was
    skipped, with one more group processed and no more successes. *)
Lemma run_goes_on_after_skip (base_sku reason : string)
    (variants : list variant) (rest : list (string * list variant))
    (fm : folder_map) (processed success : nat) (st : sync_state) :
  create_product_from_group price_lt get_product_by_sku push dry_run
    base_sku variants fm st
  = Some (false, skip st base_sku reason) ->
  process_groups price_lt get_product_by_sku push dry_run
    ((base_sku, variants) :: rest) fm None processed success st
  = process_groups price_lt get_product_by_sku push dry_run
      rest fm None (S processed) success (skip st base_sku reason).
Proof.
  intros H. cbn [process_groups]. rewrite H. reflexivity.
Qed.

End Naming.

(** C8, where the code leaves it: in a group without remote product whose
    first variant has a name cell of blanks and whose second variant is named
    "Robe", the name loop stops at the first cell, the trimmed name is empty
    and the group is skipped with the reason no_name, although a later variant
    has a name. *)
Theorem blank_name_hides_later_name
    (price_lt : string -> string -> bool)
    (push :
       string -> list variant -> string -> list string -> list string ->
       option string -> list string -> option product -> string + (nat * nat))
    (dry_run : bool) (fm : folder_map) (st : sync_state) :
  name_from_variants
    [named_variant 4 "WPJF 001-127" (VStr " ");
     named_variant 5 "WPJF 001-128" (VStr "Robe")] = Some ""
  /\ create_product_from_group price_lt no_product push dry_run "WPJF 001"
       [named_variant 4 "WPJF 001-127" (VStr " ");
        named_variant 5 "WPJF 001-128" (VStr "Robe")] fm st
     = Some (false, skip st "WPJF 001" "no_name")
  /\ create_product_from_group price_lt no_product push true "WPJF 001"
       [named_variant 5 "WPJF 001-128" (VStr "Robe")] fm st
     = Some (true, create st (DryRun "WPJF 001" "Robe" 1 0)).
Proof. repeat split. Qed.

(** ** The image resolver *)



(** ** Characters and trimming *)

Lemma lstrip_word (c : ascii) (r : string) :
  is_space c = false -> lstrip (String c r) = String c r.
Proof. intros H. simpl. now rewrite H. Qed.

Lemma rstrip_word (c : ascii) (r : string) :
  is_space c = false -> exists r', rstrip (String c r) = String c r'.
Proof.
  intros H. simpl. destruct (rstrip r) as [|d r'].
  - rewrite H. now exists "".
  - now exists (String d r').
Qed.

Lemma strip_word (c : ascii) (r : string) :
  is_space c = false -> exists r', strip (String c r) = String c r'.
Proof.
  intros H. unfold strip. rewrite (lstrip_word c r H). now apply rstrip_word.
Qed.

Lemma lstrip_starts (s : string) :
  lstrip s = "" \/ exists c r, lstrip s = String c r /\ is_space c = false.
Proof.
  induction s as [|c r IH]; simpl.
  - now left.
  - destruct (is_space c) eqn:E; [exact IH|].
    right. now exists c, r.
Qed.


Lemma split_starts (c : ascii) (r : string) :
  is_space c = false ->
  exists w ws, split (String c r) = String c w :: ws.
Proof.
  intros H. simpl. rewrite H.
  destruct (starts_word r).
  - destruct (split r) as [|w ws]; [now exists "", [] | now exists w, ws].
  - now exists "", (split r).
Qed.



(** ** First group of a match *)










(** ** The prepared text in one pass *)

Lemma split_lstrip (s : string) : split (lstrip s) = split s.
Proof.
  induction s as [|c r IH]; [reflexivity|].
  simpl. destruct (is_space c) eqn:E; [exact IH|].
  simpl. now rewrite E.
Qed.

Lemma rstrip_empty (r : string) :
  rstrip r = "" -> split r = [] /\ starts_word r = false.
Proof.
  induction r as [|c r IH]; [now split|].
  simpl. destruct (rstrip r) as [|d r'] eqn:E; [|discriminate].
  destruct (is_space c) eqn:Hc; [|discriminate].
  intros _. destruct (IH eq_refl) as [S _]. now split.
Qed.

Lemma starts_word_rstrip (r : string) :
  starts_word (rstrip r) = starts_word r.
Proof.
  destruct r as [|c r]; [reflexivity|].
  simpl. destruct (rstrip r); [destruct (is_space c) eqn:E|];
    simpl; rewrite ?E; reflexivity.
Qed.

Lemma split_cons (c : ascii) (r : string) :
  split (String c r)
  = if is_space c then split r
    else if starts_word r then
      match split r with
      | w :: ws => String c w :: ws
      | [] => [String c ""]
      end
    else String c "" :: split r.
Proof. reflexivity. Qed.

Lemma split_rstrip (s : string) : split (rstrip s) = split s.
Proof.
  induction s as [|c r IH]; [reflexivity|].
  pose proof (starts_word_rstrip r) as W.
  cbn [rstrip]. destruct (rstrip r) as [|d r'] eqn:E.
  - destruct (rstrip_empty r E) as [S1 S2].
    rewrite (split_cons c r), S1, S2.
    destruct (is_space c) eqn:Hc; [reflexivity|].
    cbn. now rewrite Hc.
  - rewrite <- E in IH, W |- *.
    rewrite (split_cons c r), (split_cons c (rstrip r)), W, IH.
    reflexivity.
Qed.

Lemma split_strip (s : string) : split (strip s) = split s.
Proof. unfold strip. now rewrite split_rstrip, split_lstrip. Qed.

Lemma join_cons_char (sep : string) (c : ascii) (w : string)
    (ws : list string) :
  join sep (String c w :: ws) = String c (join sep (w :: ws)).
Proof. destruct ws; reflexivity. Qed.

Lemma join_split_squeeze (r : string) :
  squeeze GFresh r = join " " (split r)
  /\ squeeze GGap r
     = match split r with
       | [] => ""
       | ws => String " " (join " " ws)
       end
  /\ (forall c0, is_space c0 = false ->
        join " " (split (String c0 r)) = String c0 (squeeze GWord r)).
Proof.
  induction r as [|c r (A & B & C)].
  - repeat split. intros c0 H. cbn. now rewrite H.
  - destruct (is_space c) eqn:Hc.
    + repeat split.
      * cbn. now rewrite Hc.
      * cbn. now rewrite Hc.
      * intros c0 H0.
        rewrite (split_cons c0 (String c r)), H0.
        cbn [starts_word]. rewrite Hc. cbn [negb].
        rewrite (split_cons c r), Hc.
        cbn [squeeze]. rewrite Hc, B.
        destruct (split r); reflexivity.
    + pose proof (C c Hc) as Cc.
      destruct (split_starts c r Hc) as (w & ws & E).
      repeat split.
      * cbn [squeeze]. rewrite Hc. now rewrite Cc.
      * cbn [squeeze]. rewrite Hc, E, <- E, Cc. reflexivity.
      * intros c0 H0.
        rewrite (split_cons c0 (String c r)), H0. cbn [starts_word]. rewrite Hc. cbn [negb].
        rewrite E, join_cons_char, <- E, Cc.
        cbn [squeeze]. now rewrite Hc.
Qed.

(** Trimming and collapsing is [squeeze]. *)
Lemma collapse_squeeze (s : string) :
  join " " (split (strip s)) = squeeze GFresh s.
Proof.
  rewrite split_strip. symmetry. apply join_split_squeeze.
Qed.

(** ** The matcher on the dash pattern, and [re.sub] with it *)

Lemma m_star (p : ascii -> bool) (k : pattern) (ing : bool) (s : string) :
  m (Star p :: k) ing s
  = match s with
    | String c r =>
        if p c then
          match m (Star p :: k) ing r with
          | Some x => Some (add ing c x)
          | None => m k ing s
          end
        else m k ing s
    | "" => m k ing s
    end.
Proof. destruct s; reflexivity. Qed.

(** A final [class*] outside a group reads the whole run. *)
Lemma m_star_last (p : ascii -> bool) (s : string) :
  m [Star p] false s = Some ([], drop_while p s).
Proof.
  induction s as [|c r IH]; [reflexivity|].
  rewrite m_star. cbn [drop_while].
  destruct (p c); [|reflexivity].
  rewrite IH. reflexivity.
Qed.

Lemma space_not_dash (c : ascii) :
  is_space c = true -> Ascii.eqb c "-" = false.
Proof.
  intros H. destruct (Ascii.eqb c "-") eqn:E; [|reflexivity].
  apply Ascii.eqb_eq in E. subst c. discriminate H.
Qed.

Lemma space_not_slash (c : ascii) :
  is_space c = true -> Ascii.eqb c "/" = false.
Proof.
  intros H. destruct (Ascii.eqb c "/") eqn:E; [|reflexivity].
  apply Ascii.eqb_eq in E. subst c. discriminate H.
Qed.

(** [\s*-\s*] matches where a dash follows the leading whitespace, and reads
    the whitespace behind it. *)
Lemma m_dash_spaces (s : string) :
  m re_dash_spaces false s
  = match drop_while is_space s with
    | String c r =>
        if Ascii.eqb c "-" then Some ([], drop_while is_space r) else None
    | "" => None
    end.
Proof.
  unfold re_dash_spaces. cbn [Lit app].
  induction s as [|c r IH]; [reflexivity|].
  rewrite m_star. cbn [drop_while].
  destruct (is_space c) eqn:Hc.
  - rewrite IH.
    destruct (drop_while is_space r) as [|d r']; cbn [m].
    + unfold is_char. now rewrite (space_not_dash c Hc).
    + destruct (Ascii.eqb d "-"); [reflexivity|].
      unfold is_char. now rewrite (space_not_dash c Hc).
  - cbn [m]. unfold is_char.
    destruct (Ascii.eqb c "-"); [|reflexivity].
    change ((fix star (s : string) : option result :=
               match s with
               | "" => Some ([], s)
               | String c0 r0 =>
                   if is_space c0
                   then match star r0 with
                        | Some x => Some (add false c0 x)
                        | None => Some ([], s)
                        end
                   else Some ([], s)
               end) r) with (m [Star is_space] false r).
    rewrite m_star_last. reflexivity.
Qed.

Lemma sub_from_skip (pat : pattern) (repl : string) (n : nat) (s : string) :
  sub_from pat repl n s = sub_from pat repl 0 (string_drop n s).
Proof.
  revert n. induction s as [|c r IH]; intros [|n]; try reflexivity.
  cbn [sub_from string_drop]. apply IH.
Qed.

Lemma string_drop_app (a b : string) :
  string_drop (String.length (a ++ b) - String.length b) (a ++ b) = b.
Proof.
  induction a as [|c a IH].
  - cbn [append]. rewrite Nat.sub_diag. destruct b; reflexivity.
  - cbn [append String.length].
    assert (L : String.length b <= String.length (a ++ b)).
    { clear. induction a; cbn; [reflexivity | lia]. }
    replace (S (String.length (a ++ b)) - String.length b)
      with (S (String.length (a ++ b) - String.length b)) by lia.
    cbn [string_drop]. exact IH.
Qed.

Lemma drop_while_suffix (p : ascii -> bool) (s : string) :
  exists a, s = a ++ drop_while p s /\ all_chars p a = true.
Proof.
  induction s as [|c r (a & E & A)].
  - now exists "".
  - cbn [drop_while]. destruct (p c) eqn:Hp.
    + exists (String c a). cbn. now rewrite Hp, A, <- E.
    + now exists "".
Qed.

Lemma length_drop_while (p : ascii -> bool) (s : string) :
  String.length (drop_while p s) <= String.length s.
Proof.
  induction s as [|c r IH]; cbn; [lia|].
  destruct (p c); cbn; lia.
Qed.

Lemma append_assoc (a b c : string) : (a ++ b) ++ c = a ++ (b ++ c).
Proof. induction a as [|x a IH]; cbn; [reflexivity | now rewrite IH]. Qed.

(** The two cases of a step of [re.sub] with the dash pattern. *)
Lemma sub_dash_step (c : ascii) (r : string) :
  Re.sub re_dash_spaces "-" (String c r)
  = match drop_while is_space (String c r) with
    | String d r' =>
        if Ascii.eqb d "-"
        then String "-" (Re.sub re_dash_spaces "-" (drop_while is_space r'))
        else String c (Re.sub re_dash_spaces "-" r)
    | "" => String c (Re.sub re_dash_spaces "-" r)
    end.
Proof.
  unfold Re.sub at 1. cbn [sub_from]. rewrite m_dash_spaces.
  destruct (drop_while is_space (String c r)) as [|d r'] eqn:E;
    [reflexivity|].
  destruct (Ascii.eqb d "-") eqn:Hd; [|reflexivity].
  rewrite sub_from_skip. cbn [append]. f_equal. unfold Re.sub. f_equal.
  destruct (drop_while_suffix is_space (String c r)) as (a & Ea & _).
  destruct (drop_while_suffix is_space r') as (b & Eb & _).
  rewrite E in Ea.
  assert (Er : exists x, r = x ++ drop_while is_space r').
  { destruct a as [|a0 a].
    - cbn in Ea. injection Ea as -> ->. now exists b.
    - cbn in Ea. injection Ea as -> ->.
      exists (a ++ String d b). rewrite append_assoc. cbn.
      now rewrite <- Eb. }
  destruct Er as (x & Ex). rewrite Ex at 1 2.
  apply string_drop_app.
Qed.

Lemma undash_spaces_dash (a r : string) :
  all_chars is_space a = true ->
  undash false (a ++ String "-" r) = String "-" (undash true r).
Proof.
  induction a as [|c a IH]; intros H; [reflexivity|].
  cbn in H. apply andb_prop in H as [Hc Ha].
  cbn [append undash]. rewrite (space_not_dash c Hc), Hc.
  assert (L : starts_dash (drop_while is_space (a ++ String "-" r)) = true).
  { clear - Ha. induction a as [|d a IH]; [reflexivity|].
    cbn in Ha. apply andb_prop in Ha as [Hd Ha].
    cbn. rewrite Hd. now apply IH. }
  rewrite L. cbn [orb]. now apply IH.
Qed.

Lemma undash_after (r : string) :
  undash true r = undash false (drop_while is_space r).
Proof.
  induction r as [|c r IH]; [reflexivity|].
  cbn [drop_while]. destruct (is_space c) eqn:Hc.
  - cbn [undash]. rewrite (space_not_dash c Hc), Hc. exact IH.
  - cbn [undash]. rewrite Hc.
    destruct (Ascii.eqb c "-"); reflexivity.
Qed.

(** [re.sub(r'\s*-\s*', '-', s)] is [undash]. *)
Lemma sub_dash_undash (s : string) :
  Re.sub re_dash_spaces "-" s = undash false s.
Proof.
  remember (String.length s) as n eqn:Hn.
  assert (L : String.length s <= n) by lia. clear Hn.
  revert s L. induction n as [|n IH]; intros s L.
  - destruct s; [reflexivity | cbn in L; lia].
  - destruct s as [|c r]; [reflexivity|].
    cbn in L. rewrite sub_dash_step.
    destruct (drop_while is_space (String c r)) as [|d r'] eqn:E.
    + rewrite IH by lia.
      cbn [drop_while] in E. destruct (is_space c) eqn:Hc; [|discriminate].
      cbn [undash]. rewrite (space_not_dash c Hc), Hc, E. reflexivity.
    + destruct (Ascii.eqb d "-") eqn:Hd.
      * apply Ascii.eqb_eq in Hd. subst d.
        destruct (drop_while_suffix is_space (String c r)) as (a & Ea & Aa).
        rewrite E in Ea. rewrite Ea, (undash_spaces_dash a r' Aa).
        rewrite undash_after. f_equal. apply IH.
        pose proof (length_drop_while is_space r').
        pose proof (length_drop_while is_space (String c r)) as L2.
        rewrite E in L2. cbn in L2. lia.
      * rewrite IH by lia.
        cbn [drop_while] in E. cbn [undash].
        destruct (is_space c) eqn:Hc.
        -- rewrite (space_not_dash c Hc), E. cbn [starts_dash].
           now rewrite Hd.
        -- injection E as -> ->. now rewrite Hd.
Qed.

(** ** The four passes are [canon] *)

Ltac sep_cases c Hc :=
  unfold is_sep;
  destruct (Ascii.eqb c "-") eqn:?Hd;
  [ apply Ascii.eqb_eq in Hd; subst c
  | destruct (Ascii.eqb c "/") eqn:?Hs;
    [ apply Ascii.eqb_eq in Hs; subst c | ] ].

Lemma passes_canon (s : string) :
  undash false (replace "/" "-" (squeeze GFresh s)) = canon Fresh s
  /\ undash false (replace "/" "-" (squeeze GWord s)) = canon InWord s
  /\ undash true (replace "/" "-" (squeeze GWord s)) = canon AfterDash s
  /\ undash false (replace "/" "-" (squeeze GGap s)) = canon Gap s
  /\ undash true (replace "/" "-" (squeeze GGap s)) = canon AfterDash s.
Proof.
  induction s as [|c r (F & W & A & G & AG)]; [repeat split|].
  cbn [squeeze canon].
  destruct (is_space c) eqn:Hc; [repeat split; assumption|].
  sep_cases c Hc.
  all: assert (S1 : is_space " " = true) by reflexivity.
  all: assert (S2 : is_space "-" = false) by reflexivity.
  all: assert (S3 : Ascii.eqb " " "/" = false) by reflexivity.
  all: assert (S4 : Ascii.eqb " " "-" = false) by reflexivity.
  all: assert (S5 : Ascii.eqb "-" "-" = true) by reflexivity.
  all: assert (S6 : Ascii.eqb "-" "/" = false) by reflexivity.
  all: assert (S7 : Ascii.eqb "/" "/" = true) by reflexivity.
  all: repeat first
         [ progress cbn [replace append undash drop_while starts_dash orb]
         | progress rewrite ?S1, ?S2, ?S3, ?S4, ?S5, ?S6, ?S7, ?Hc, ?Hd, ?Hs ].
  all: rewrite ?A, ?W; repeat split.
Qed.

(** [prepare_sku] in one pass. *)
Lemma prepare_canon (s : string) : prepare_sku s = canon Fresh s.
Proof.
  unfold prepare_sku.
  rewrite collapse_squeeze, sub_dash_undash. apply passes_canon.
Qed.

(** ** Formatting variants *)

Lemma all_chars_app (p : ascii -> bool) (a b : string) :
  all_chars p (a ++ b) = all_chars p a && all_chars p b.
Proof.
  induction a as [|c a IH]; [reflexivity|].
  cbn. now rewrite IH, andb_assoc.
Qed.

(** A text is blank when all its characters are whitespace. *)
Lemma blank_all_spaces (s : string) : blank s = all_chars is_space s.
Proof.
  induction s as [|c r IH]; [reflexivity|].
  cbn [all_chars]. destruct (is_space c) eqn:Hc.
  - rewrite <- IH. unfold blank, strip. cbn [lstrip]. now rewrite Hc.
  - unfold blank. destruct (strip_word c r Hc) as (r' & ->). reflexivity.
Qed.

Lemma canon_prefix (x y : string) :
  (forall st, canon st x = canon st y) ->
  forall a st, canon st (a ++ x) = canon st (a ++ y).
Proof.
  intros H a. induction a as [|c a IH]; intros st; [apply H|].
  cbn [append canon]. now rewrite !IH.
Qed.

Lemma canon_space (st : scan_state) (w : ascii) (b : string) :
  is_space w = true ->
  canon st (String w b)
  = canon (match st with InWord => Gap | _ => st end) b.
Proof. intros H. cbn [canon]. now rewrite H. Qed.

Lemma canon_dash (st : scan_state) (b : string) :
  canon st (String "-" b) = String "-" (canon AfterDash b).
Proof. reflexivity. Qed.

(** A formatting step without change of case leaves the prepared text and
    the blank test as they are. *)
Lemma step_prepare (s t : string) :
  variant_step false s t ->
  prepare_sku s = prepare_sku t /\ blank s = blank t.
Proof.
  intros H. rewrite !prepare_canon, !blank_all_spaces.
  destruct H as [a b w w' Hw Hw' | a b w Hw | a b w Hw | a b | a b c Hcase].
  - split.
    + apply canon_prefix. intros st.
      rewrite !(canon_space _ _ _ Hw), (canon_space _ _ _ Hw').
      now destruct st.
    + rewrite !all_chars_app. cbn. now rewrite Hw, Hw'.
  - split.
    + apply canon_prefix. intros st.
      now rewrite (canon_space _ _ _ Hw), !canon_dash.
    + rewrite !all_chars_app. cbn. now rewrite Hw.
  - split.
    + apply canon_prefix. intros st.
      now rewrite !canon_dash, (canon_space _ _ _ Hw).
    + rewrite !all_chars_app. cbn. now rewrite Hw.
  - split.
    + apply canon_prefix. intros st. reflexivity.
    + rewrite !all_chars_app. reflexivity.
  - discriminate Hcase.
Qed.

Lemma same_sku_prepare (s t : string) :
  same_sku false s t ->
  prepare_sku s = prepare_sku t /\ blank s = blank t.
Proof.
  induction 1 as [s | s t u Hst _ [IH1 IH2] | s t u Hts _ [IH1 IH2]].
  - now split.
  - destruct (step_prepare Hst) as [E1 E2]. split; congruence.
  - destruct (step_prepare Hts) as [E1 E2]. split; congruence.
Qed.

Lemma blank_empty (s : string) : nonempty s = false -> blank s = true.
Proof. destruct s; [reflexivity | discriminate]. Qed.

(** [normalize_sku] on a text is decided by the blank test and the prepared
    text. *)
Lemma normalize_sku_by_prepared (s t : string) :
  prepare_sku s = prepare_sku t -> blank s = blank t ->
  normalize_sku (VStr s) = normalize_sku (VStr t).
Proof.
  intros Ep Eb. unfold normalize_sku. cbn [truthy str].
  rewrite <- Ep, <- Eb.
  destruct (blank s) eqn:B.
  - now rewrite !orb_true_r.
  - assert (nonempty s = true) as ->.
    { destruct (nonempty s) eqn:N; [reflexivity|].
      now rewrite (blank_empty s N) in B. }
    assert (nonempty t = true) as ->.
    { destruct (nonempty t) eqn:N; [reflexivity|].
      rewrite (blank_empty t N) in Eb. congruence. }
    reflexivity.
Qed.

(** C2, as the code has it: two raw SKU texts that differ only in the length
    of whitespace runs, in whitespace around dashes or in slashes for dashes
    get the same normalized key from [normalize_sku] (and the same base and
    variation); letter case is left out, it is kept by [normalize_sku]. *)
Theorem normalize_sku_formatting (s t : string) :
  same_sku false s t ->
  normalized_key s = normalized_key t
  /\ normalize_sku (VStr s) = normalize_sku (VStr t).
Proof.
  intros H. destruct (same_sku_prepare H) as [Ep Eb].
  pose proof (normalize_sku_by_prepared s t Ep Eb) as E.
  unfold normalized_key. now rewrite E.
Qed.

Lemma same_sku_example :
  same_sku false "WPCHF  001 /	C1" "WPCHF 001-C1".
Proof.
  apply (@same_back false _ "WPCHF 001 /	C1").
  { apply (@step_run false "WPCHF" "001 /	C1" " " " "); reflexivity. }
  apply (@same_step false _ "WPCHF 001 -	C1").
  { apply (@step_slash false "WPCHF 001 " "	C1"). }
  apply (@same_back false _ "WPCHF 001 -C1").
  { apply (@step_after_dash false "WPCHF 001 " "C1" "009"); reflexivity. }
  apply (@same_back false _ "WPCHF 001-C1").
  { apply (@step_before_dash false "WPCHF 001" "C1" " "); reflexivity. }
  apply same_refl.
Qed.

Lemma normalize_sku_formatting_witness :
  normalized_key "WPCHF  001 /	C1" = normalized_key "WPCHF 001-C1"
  /\ normalize_sku (VStr "WPCHF  001 /	C1")
     = normalize_sku (VStr "WPCHF 001-C1").
Proof.
  apply (@normalize_sku_formatting "WPCHF  001 /	C1" "WPCHF 001-C1").
  apply (@same_back false _ "WPCHF 001 /	C1").
  { apply (@step_run false "WPCHF" "001 /	C1" " " " "); reflexivity. }
  apply (@same_step false _ "WPCHF 001 -	C1").
  { apply (@step_slash false "WPCHF 001 " "	C1"). }
  apply (@same_back false _ "WPCHF 001 -C1").
  { apply (@step_after_dash false "WPCHF 001 " "C1" "009"); reflexivity. }
  apply (@same_back false _ "WPCHF 001-C1").
  { apply (@step_before_dash false "WPCHF 001" "C1" " "); reflexivity. }
  apply same_refl.
Defined.

(** Two raw SKUs that differ in the case of one letter and get different
    normalized keys. *)
Lemma normalize_sku_keeps_case :
  same_sku true "wPJF001" "WPJF001"
  /\ normalized_key "wPJF001" <> normalized_key "WPJF001".
Proof.
  split.
  - apply (@same_step true _ "WPJF001"); [|apply same_refl].
    apply (@step_case true "" "PJF001" "w"). reflexivity.
  - vm_compute. discriminate.
Qed.

(** ** The matcher on repetitions that cannot give back *)

Lemma take_drop_while (p : ascii -> bool) (s : string) :
  s = take_while p s ++ drop_while p s.
Proof.
  induction s as [|c r IH]; [reflexivity|].
  cbn. destruct (p c); [cbn; now rewrite <- IH | reflexivity].
Qed.

Lemma all_take_while (p : ascii -> bool) (s : string) :
  all_chars p (take_while p s) = true.
Proof.
  induction s as [|c r IH]; [reflexivity|].
  cbn. destruct (p c) eqn:E; [cbn; now rewrite E | reflexivity].
Qed.

Lemma take_while_all (p : ascii -> bool) (s : string) :
  all_chars p s = true -> take_while p s = s /\ drop_while p s = "".
Proof.
  induction s as [|c r IH]; [now split|].
  cbn. destruct (p c); [|discriminate].
  intros H. destruct (IH H) as [-> ->]. now split.
Qed.

Lemma append_empty (s : string) : s ++ "" = s.
Proof. induction s as [|c r IH]; cbn; [reflexivity | now rewrite IH]. Qed.

Lemma adds_outside (w : string) (x : result) : adds false w x = x.
Proof. induction w as [|c w IH]; [reflexivity | exact IH]. Qed.

Lemma adds_group (w g : string) (gs : list string) (rest : string) :
  adds true w (g :: gs, rest) = ((w ++ g) :: gs, rest).
Proof.
  induction w as [|c w IH]; [reflexivity|].
  cbn [adds]. rewrite IH. reflexivity.
Qed.

(** A greedy repetition whose continuation refuses the characters of its
    class reads the whole run and never gives a character back. *)
Lemma m_star_commit (p : ascii -> bool) (k : pattern) (ing : bool) :
  (forall c r, p c = true -> m k ing (String c r) = None) ->
  forall s,
    m (Star p :: k) ing s
    = option_map (adds ing (take_while p s)) (m k ing (drop_while p s)).
Proof.
  intros R s. induction s as [|c r IH].
  - rewrite m_star. cbn. now destruct (m k ing "").
  - rewrite m_star. cbn [take_while drop_while].
    destruct (p c) eqn:Hp.
    + rewrite IH. destruct (m k ing (drop_while p r)) as [x|].
      * reflexivity.
      * cbn. now apply R.
    + cbn. now destruct (m k ing (String c r)).
Qed.

Lemma m_star_skip (p : ascii -> bool) (k : pattern) (ing : bool) (s : string) :
  take_while p s = "" -> m (Star p :: k) ing s = m k ing s.
Proof.
  intros H. rewrite m_star. destruct s as [|c r]; [reflexivity|].
  cbn in H. destruct (p c); [discriminate | reflexivity].
Qed.

Lemma m_close (k : pattern) (ing : bool) (s : string) :
  m (Close :: k) ing s
  = match m k false s with
    | Some (gs, rest) => Some ("" :: gs, rest)
    | None => None
    end.
Proof. reflexivity. Qed.

Lemma m_one (p : ascii -> bool) (k : pattern) (ing : bool) (s : string) :
  m (One p :: k) ing s
  = match s with
    | String c r => if p c then option_map (add ing c) (m k ing r) else None
    | "" => None
    end.
Proof. reflexivity. Qed.

Lemma m_open (k : pattern) (ing : bool) (s : string) :
  m (Open :: k) ing s = m k true s.
Proof. reflexivity. Qed.

Lemma m_eos (k : pattern) (ing : bool) (s : string) :
  m (Eos :: k) ing s = if at_end s then m k ing s else None.
Proof. reflexivity. Qed.

(** [class+)] at the end of a group, before a continuation that refuses the
    class: the group takes the whole run, which must not be empty. *)
Lemma m_group_plus (p : ascii -> bool) (k : pattern) (s : string) :
  (forall c r, p c = true -> m k false (String c r) = None) ->
  m (One p :: Star p :: Close :: k) true s
  = if nonempty (take_while p s) then
      match m k false (drop_while p s) with
      | Some (gs, rest) => Some (take_while p s :: gs, rest)
      | None => None
      end
    else None.
Proof.
  intros R. rewrite m_one. destruct s as [|c r]; [reflexivity|].
  cbn [take_while drop_while]. destruct (p c) eqn:Hp; [|reflexivity].
  cbn [nonempty].
  rewrite m_star_commit.
  - rewrite m_close.
    destruct (m k false (drop_while p r)) as [[gs rest]|]; [|reflexivity].
    cbn [option_map]. rewrite adds_group, append_empty. reflexivity.
  - intros c' r' Hc'. rewrite m_close. now rewrite (R c' r' Hc').
Qed.

Lemma dot_not_end (c : ascii) (r : string) :
  is_dot c = true -> at_end (String c r) = false.
Proof.
  unfold is_dot. intros H. apply negb_true_iff in H.
  cbn. destruct r; [exact H | reflexivity].
Qed.

(** [(.+)$] on a text without line feed: the group takes all of it. *)
Lemma m_rest_group (v : string) :
  all_chars is_dot v = true ->
  m [Open; One is_dot; Star is_dot; Close; Eos] false v
  = if nonempty v then Some ([v], "") else None.
Proof.
  intros H. rewrite m_open, m_group_plus.
  - destruct (take_while_all is_dot v H) as [-> ->]. reflexivity.
  - intros c r Hc. rewrite m_eos. now rewrite (dot_not_end c r Hc).
Qed.

(** ** Character classes *)

Ltac ascii_cases c := destruct c as [[|] [|] [|] [|] [|] [|] [|] [|]].

Lemma AZ_not_space (c : ascii) : is_AZ c = true -> is_space c = false.
Proof. ascii_cases c; intros H; first [reflexivity | discriminate H]. Qed.

Lemma AZ_not_digit (c : ascii) : is_AZ c = true -> is_digit c = false.
Proof. ascii_cases c; intros H; first [reflexivity | discriminate H]. Qed.

Lemma space_not_digit (c : ascii) : is_space c = true -> is_digit c = false.
Proof. ascii_cases c; intros H; first [reflexivity | discriminate H]. Qed.

Lemma digit_not_space (c : ascii) : is_digit c = true -> is_space c = false.
Proof. ascii_cases c; intros H; first [reflexivity | discriminate H]. Qed.

Lemma digit_not_dash (c : ascii) : is_digit c = true -> Ascii.eqb c "-" = false.
Proof. ascii_cases c; intros H; first [reflexivity | discriminate H]. Qed.

Lemma digit_is_dot (c : ascii) : is_digit c = true -> is_dot c = true.
Proof. ascii_cases c; intros H; first [reflexivity | discriminate H]. Qed.

Lemma not_space_is_dot (c : ascii) : is_space c = false -> is_dot c = true.
Proof. ascii_cases c; intros H; first [reflexivity | discriminate H]. Qed.

Lemma option_map_add_outside (c : ascii) (o : option result) :
  option_map (add false c) o = o.
Proof. now destruct o. Qed.

(** ** The head of the three patterns *)

Lemma re_pattern1_head :
  re_pattern1 = code_pattern (One (is_char "-") :: rest_pattern).
Proof. reflexivity. Qed.

Lemma re_pattern2_head :
  re_pattern2 = code_pattern (One is_space :: Star is_space :: rest_pattern).
Proof. reflexivity. Qed.

Lemma re_pattern3_head : re_pattern3 = code_pattern [Eos].
Proof. reflexivity. Qed.

(** The digits and what follows them. *)
Lemma m_digits (k : pattern) (s : string) :
  (forall c r, is_digit c = true -> m k false (String c r) = None) ->
  m (Open :: One is_digit :: Star is_digit :: Close :: k) false s
  = if nonempty (take_while is_digit s) then
      match m k false (drop_while is_digit s) with
      | Some (gs, rest) => Some (take_while is_digit s :: gs, rest)
      | None => None
      end
    else None.
Proof. intros R. rewrite m_open. now apply m_group_plus. Qed.

Lemma m_digits_refuses (k : pattern) (c : ascii) (r : string) :
  is_digit c = false ->
  m (Open :: One is_digit :: Star is_digit :: Close :: k) false (String c r)
  = None.
Proof. intros H. rewrite m_open, m_one. now rewrite H. Qed.

(** The optional whitespace, the digits and what follows them. *)
Lemma m_spaces_digits (k : pattern) (s : string) :
  (forall c r, is_digit c = true -> m k false (String c r) = None) ->
  m (Star is_space :: Open :: One is_digit :: Star is_digit :: Close :: k)
    false s
  = let s2 := drop_while is_space s in
    if nonempty (take_while is_digit s2) then
      match m k false (drop_while is_digit s2) with
      | Some (gs, rest) => Some (take_while is_digit s2 :: gs, rest)
      | None => None
      end
    else None.
Proof.
  intros R. rewrite m_star_commit.
  - rewrite (m_digits k (drop_while is_space s) R).
    cbv zeta.
    destruct (nonempty _); [|reflexivity].
    destruct (m k false _) as [[gs rest]|]; [|reflexivity].
    cbn [option_map]. now rewrite adds_outside.
  - intros c r Hc. apply m_digits_refuses. now apply space_not_digit.
Qed.

(** The head of the patterns reads a product code in one way only. *)
Lemma m_code_pattern (k : pattern) (t : string) :
  (forall c r, is_digit c = true -> m k false (String c r) = None) ->
  m (code_pattern k) false t
  = match code_head t with
    | Some (p, n, r3) =>
        match m k false r3 with
        | Some (gs, rest) => Some (p :: n :: gs, rest)
        | None => None
        end
    | None => None
    end.
Proof.
  intros R. unfold code_pattern, code_head.
  rewrite m_open, m_one.
  destruct t as [|c0 [|c1 r]]; [reflexivity | |].
  - unfold is_char. destruct (Ascii.eqb c0 "W"); reflexivity.
  - unfold is_char at 1. destruct (Ascii.eqb c0 "W"); [|reflexivity].
    rewrite m_one. unfold is_char at 1.
    destruct (Ascii.eqb c1 "P"); [|reflexivity].
    cbn [andb]. rewrite m_group_plus.
    + destruct (nonempty (take_while is_AZ r)); [|reflexivity].
      rewrite (m_spaces_digits k (drop_while is_AZ r) R). cbv zeta.
      cbn [andb].
      destruct (nonempty (take_while is_digit _)); [|reflexivity].
      destruct (m k false _) as [[gs rest]|]; reflexivity.
    + intros c r' Hc. rewrite m_star.
      rewrite (AZ_not_space c Hc).
      apply m_digits_refuses. now apply AZ_not_digit.
Qed.

(** ** Tidy texts *)

Lemma tidy_tail (c : ascii) (r : string) :
  tidy (String c r) = true -> tidy r = true.
Proof. cbn. intros H. now apply andb_prop in H. Qed.

Lemma tidy_drop_while (p : ascii -> bool) (s : string) :
  tidy s = true -> tidy (drop_while p s) = true.
Proof.
  induction s as [|c r IH]; [auto|].
  intros H. cbn [drop_while]. destruct (p c); [|exact H].
  apply IH. exact (tidy_tail _ _ H).
Qed.

Lemma tidy_space (c : ascii) (r : string) :
  tidy (String c r) = true -> is_space c = true ->
  c = " "%char /\ starts_word r = true.
Proof.
  cbn. intros H Hc. rewrite Hc in H.
  apply andb_prop in H as [H _]. apply andb_prop in H as [H1 H2].
  apply Ascii.eqb_eq in H1. now split.
Qed.

Lemma tidy_plain (t : string) : tidy t = true -> all_chars plain t = true.
Proof.
  induction t as [|c r IH]; [reflexivity|].
  intros H. cbn [all_chars]. rewrite (IH (tidy_tail _ _ H)), andb_true_r.
  unfold plain. destruct (is_space c) eqn:Hc; [|reflexivity].
  destruct (tidy_space _ _ H Hc) as [-> _]. reflexivity.
Qed.

Lemma plain_is_dot (c : ascii) : plain c = true -> is_dot c = true.
Proof. ascii_cases c; intros H; first [reflexivity | discriminate H]. Qed.

Lemma all_chars_weaken (p q : ascii -> bool) (s : string) :
  (forall c, p c = true -> q c = true) ->
  all_chars p s = true -> all_chars q s = true.
Proof.
  intros I. induction s as [|c r IH]; [reflexivity|].
  cbn. intros H. apply andb_prop in H as [H1 H2].
  now rewrite (I c H1), (IH H2).
Qed.

Lemma tidy_dot (t : string) : tidy t = true -> all_chars is_dot t = true.
Proof.
  intros H. apply (all_chars_weaken plain is_dot t plain_is_dot).
  now apply tidy_plain.
Qed.

Lemma starts_word_no_space_run (v : string) :
  starts_word v = true -> take_while is_space v = "" /\ nonempty v = true.
Proof.
  destruct v as [|c v]; [discriminate|].
  cbn. intros H. apply negb_true_iff in H. now rewrite H.
Qed.

Lemma tidy_not_end (c : ascii) (r : string) :
  tidy (String c r) = true -> at_end (String c r) = false.
Proof.
  intros H. apply dot_not_end.
  pose proof (tidy_dot _ H) as D. cbn in D. now apply andb_prop in D.
Qed.

(** What follows the head of the code, in a tidy text. *)
Lemma code_head_tidy (t p n r3 : string) :
  tidy t = true -> code_head t = Some (p, n, r3) -> tidy r3 = true.
Proof.
  intros T. unfold code_head.
  destruct t as [|c0 [|c1 r]]; try discriminate.
  destruct (_ && _); [|discriminate].
  destruct (_ && _); [|discriminate].
  intros H. injection H as _ _ <-.
  do 3 apply tidy_drop_while.
  exact (tidy_tail _ _ (tidy_tail _ _ T)).
Qed.

Lemma code_head_rest (t p n r3 : string) :
  code_head t = Some (p, n, r3) ->
  match r3 with String c _ => is_digit c = false | "" => True end.
Proof.
  unfold code_head.
  destruct t as [|c0 [|c1 r]]; try discriminate.
  destruct (_ && _); [|discriminate].
  destruct (_ && _); [|discriminate].
  intros H. injection H as _ _ <-.
  generalize (drop_while is_space (drop_while is_AZ r)). intros s.
  induction s as [|c s IH]; [exact I|].
  cbn [drop_while]. destruct (is_digit c) eqn:E; [exact IH | exact E].
Qed.

(** ** The three patterns on a tidy text, by its shape *)

Lemma m_dash_rest_refuses (c : ascii) (r : string) :
  is_digit c = true ->
  m (One (is_char "-") :: rest_pattern) false (String c r) = None.
Proof.
  intros H. rewrite m_one. unfold is_char. now rewrite (digit_not_dash c H).
Qed.

Lemma m_space_rest_refuses (c : ascii) (r : string) :
  is_digit c = true ->
  m (One is_space :: Star is_space :: rest_pattern) false (String c r) = None.
Proof.
  intros H. rewrite m_one. now rewrite (digit_not_space c H).
Qed.

Lemma m_eos_refuses (c : ascii) (r : string) :
  is_digit c = true -> m [Eos] false (String c r) = None.
Proof.
  intros H. rewrite m_eos.
  now rewrite (dot_not_end c r (digit_is_dot c H)).
Qed.

Lemma pattern1_by_shape (t : string) :
  tidy t = true ->
  rmatch re_pattern1 t
  = match shape_of t with
    | Dashed p n v => Some [p; n; v]
    | _ => None
    end.
Proof.
  intros T. unfold rmatch, shape_of.
  rewrite re_pattern1_head, (m_code_pattern _ t m_dash_rest_refuses).
  destruct (code_head t) as [[[p n] r3]|] eqn:E; [|reflexivity].
  pose proof (code_head_tidy t T E) as T3.
  rewrite m_one. destruct r3 as [|c v]; [reflexivity|].
  unfold is_char. destruct (Ascii.eqb c "-") eqn:Hc.
  - rewrite option_map_add_outside. unfold rest_pattern.
    rewrite (m_rest_group v (tidy_dot _ (tidy_tail _ _ T3))).
    destruct (nonempty v); reflexivity.
  - destruct (Ascii.eqb c " "); [destruct (nonempty v)|]; reflexivity.
Qed.

Lemma pattern2_by_shape (t : string) :
  tidy t = true ->
  rmatch re_pattern2 t
  = match shape_of t with
    | Spaced p n v => Some [p; n; v]
    | _ => None
    end.
Proof.
  intros T. unfold rmatch, shape_of.
  rewrite re_pattern2_head, (m_code_pattern _ t m_space_rest_refuses).
  destruct (code_head t) as [[[p n] r3]|] eqn:E; [|reflexivity].
  pose proof (code_head_tidy t T E) as T3.
  rewrite m_one. destruct r3 as [|c v]; [reflexivity|].
  destruct (is_space c) eqn:Hc.
  - destruct (tidy_space _ _ T3 Hc) as [-> W].
    destruct (starts_word_no_space_run v W) as [Z N].
    rewrite option_map_add_outside, (m_star_skip _ _ _ _ Z).
    unfold rest_pattern.
    rewrite (m_rest_group v (tidy_dot _ (tidy_tail _ _ T3))).
    cbn. now rewrite N.
  - destruct (Ascii.eqb c "-"); [destruct (nonempty v); reflexivity|].
    destruct (Ascii.eqb c " ") eqn:Hb; [|reflexivity].
    apply Ascii.eqb_eq in Hb. subst c. discriminate Hc.
Qed.

Lemma pattern3_by_shape (t : string) :
  tidy t = true ->
  rmatch re_pattern3 t
  = match shape_of t with
    | Bare p n => Some [p; n]
    | _ => None
    end.
Proof.
  intros T. unfold rmatch, shape_of.
  rewrite re_pattern3_head, (m_code_pattern _ t m_eos_refuses).
  destruct (code_head t) as [[[p n] r3]|] eqn:E; [|reflexivity].
  pose proof (code_head_tidy t T E) as T3.
  rewrite m_eos. destruct r3 as [|c v]; [reflexivity|].
  rewrite (tidy_not_end _ _ T3).
  destruct (Ascii.eqb c "-"); [destruct (nonempty v); reflexivity|].
  destruct (Ascii.eqb c " "); [destruct (nonempty v)|]; reflexivity.
Qed.

(** ** The prepared text is tidy *)

Lemma tidy_canon (s : string) (st : scan_state) : tidy (canon st s) = true.
Proof.
  revert st. induction s as [|c r IH]; intros st; [reflexivity|].
  cbn [canon]. destruct (is_space c) eqn:Hc; [apply IH|].
  destruct (is_sep c).
  - cbn. apply IH.
  - destruct st; cbn [tidy starts_word]; rewrite Hc, IH; reflexivity.
Qed.

Lemma tidy_prepared (s : string) : tidy (prepare_sku s) = true.
Proof. rewrite prepare_canon. apply tidy_canon. Qed.

(** [normalize_sku] on a text that is not blank, by the shape of the
    prepared text. *)
Lemma normalize_sku_by_shape (s : string) :
  blank s = false ->
  normalize_sku (VStr s) = normalized_of_shape (prepare_sku s).
Proof.
  intros B. unfold normalize_sku, normalized_of_shape. cbn [truthy str].
  rewrite B.
  assert (nonempty s = true) as ->.
  { destruct s; [discriminate B | reflexivity]. }
  cbn [negb orb].
  pose proof (tidy_prepared s) as T.
  rewrite (pattern1_by_shape _ T), (pattern2_by_shape _ T),
    (pattern3_by_shape _ T).
  destruct (shape_of (prepare_sku s)); reflexivity.
Qed.

(** ** Characters of the parts of a normalized key *)

Lemma all_chars_lstrip (P : ascii -> bool) (v : string) :
  all_chars P v = true -> all_chars P (lstrip v) = true.
Proof.
  induction v as [|c r IH]; [auto|].
  intros H. cbn [lstrip]. destruct (is_space c); [|exact H].
  cbn in H. apply andb_prop in H as [_ H]. now apply IH.
Qed.




Lemma plain_unspaced (t : string) :
  all_chars plain t = true -> all_chars no_space (replace " " "" t) = true.
Proof.
  induction t as [|c r IH]; [auto|].
  cbn [all_chars replace]. intros H. apply andb_prop in H as [Hc Hr].
  destruct (Ascii.eqb c " ") eqn:E; cbn; [now apply IH|].
  rewrite (IH Hr), andb_true_r.
  unfold plain in Hc. rewrite E, orb_false_r in Hc. exact Hc.
Qed.


Lemma AZ_no_space (c : ascii) : is_AZ c = true -> no_space c = true.
Proof. intros H. unfold no_space. now rewrite (AZ_not_space c H). Qed.

Lemma digit_no_space (c : ascii) : is_digit c = true -> no_space c = true.
Proof. intros H. unfold no_space. now rewrite (digit_not_space c H). Qed.



Lemma digit_upper_fixed (c : ascii) : is_digit c = true -> upper_fixed c = true.
Proof. ascii_cases c; intros H; first [reflexivity | discriminate H]. Qed.

Lemma upper_fixed_all (s : string) :
  all_chars upper_fixed s = true <-> upper s = s.
Proof.
  induction s as [|c r IH]; [now split|].
  cbn [all_chars upper]. unfold upper_fixed at 1. split.
  - intros H. apply andb_prop in H as [Hc Hr].
    apply Ascii.eqb_eq in Hc. rewrite Hc. f_equal. now apply IH.
  - intros H. injection H as Hc Hr.
    rewrite Hc, Ascii.eqb_refl. now apply IH.
Qed.

(** The parts of the head of a code. *)
Lemma code_head_parts (t p n r3 : string) :
  code_head t = Some (p, n, r3) ->
  all_chars is_AZ p = true /\ all_chars is_digit n = true
  /\ nonempty p = true
  /\ exists sp, t = p ++ sp ++ n ++ r3 /\ all_chars is_space sp = true.
Proof.
  unfold code_head.
  destruct t as [|c0 [|c1 r]]; try discriminate.
  destruct (Ascii.eqb c0 "W" && Ascii.eqb c1 "P") eqn:E; [|discriminate].
  apply andb_prop in E as [E0 E1].
  apply Ascii.eqb_eq in E0, E1. subst c0 c1.
  destruct (_ && _); [|discriminate].
  intros H. injection H as <- <- <-.
  repeat split.
  - cbn. apply all_take_while.
  - apply all_take_while.
  - destruct (drop_while_suffix is_space (drop_while is_AZ r)) as (sp & E & A).
    exists sp. split; [|exact A].
    cbn [append]. do 2 f_equal.
    rewrite <- (take_drop_while is_digit
                  (drop_while is_space (drop_while is_AZ r))).
    rewrite <- E. apply take_drop_while.
Qed.

Lemma all_chars_code_rest (P : ascii -> bool) (t p n r3 : string) :
  code_head t = Some (p, n, r3) ->
  all_chars P t = true -> all_chars P r3 = true.
Proof.
  intros H A. destruct (code_head_parts t H) as (_ & _ & _ & sp & E & _).
  rewrite E, !all_chars_app in A.
  apply andb_prop in A as [_ A]. apply andb_prop in A as [_ A].
  now apply andb_prop in A as [_ A].
Qed.

(** The shape of a text and its parts. *)
Lemma shape_of_cases (t : string) :
  match shape_of t with
  | Dashed p n v =>
      code_head t = Some (p, n, String "-" v) /\ nonempty v = true
  | Spaced p n v =>
      code_head t = Some (p, n, String " " v) /\ nonempty v = true
  | Bare p n => code_head t = Some (p, n, "")
  | Other => True
  end.
Proof.
  unfold shape_of. destruct (code_head t) as [[[p n] r3]|]; [|exact I].
  destruct r3 as [|c v]; [reflexivity|].
  destruct (Ascii.eqb c "-") eqn:Ed.
  - apply Ascii.eqb_eq in Ed. subst c.
    destruct (nonempty v) eqn:N; [now split | exact I].
  - destruct (Ascii.eqb c " ") eqn:Eb; [|exact I].
    apply Ascii.eqb_eq in Eb. subst c.
    destruct (nonempty v) eqn:N; [now split | exact I].
Qed.



(** ** Upper case *)

Lemma upper_char_space (c : ascii) : is_space (upper_char c) = is_space c.
Proof. ascii_cases c; reflexivity. Qed.

Lemma upper_char_idem (c : ascii) : upper_char (upper_char c) = upper_char c.
Proof. ascii_cases c; reflexivity. Qed.

Lemma upper_char_blank (c : ascii) :
  Ascii.eqb (upper_char c) " " = Ascii.eqb c " ".
Proof. ascii_cases c; reflexivity. Qed.

Lemma upper_char_dash (c : ascii) :
  Ascii.eqb (upper_char c) "-" = Ascii.eqb c "-".
Proof. ascii_cases c; reflexivity. Qed.

Lemma upper_char_slash (c : ascii) :
  Ascii.eqb (upper_char c) "/" = Ascii.eqb c "/".
Proof. ascii_cases c; reflexivity. Qed.

Lemma upper_char_digit (c : ascii) : is_digit (upper_char c) = is_digit c.
Proof. ascii_cases c; reflexivity. Qed.

Lemma upper_idem (s : string) : upper (upper s) = upper s.
Proof.
  induction s as [|c r IH]; [reflexivity|].
  cbn. now rewrite upper_char_idem, IH.
Qed.

Lemma upper_app (a b : string) : upper (a ++ b) = upper a ++ upper b.
Proof. induction a as [|c a IH]; cbn; [reflexivity | now rewrite IH]. Qed.

Lemma upper_unspaced (s : string) :
  upper (replace " " "" s) = replace " " "" (upper s).
Proof.
  induction s as [|c r IH]; [reflexivity|].
  cbn [replace upper]. rewrite upper_char_blank.
  destruct (Ascii.eqb c " "); cbn; now rewrite IH.
Qed.


(** ** The prepared text of a text that is not blank *)


Lemma canon_fresh_starts (s : string) :
  blank s = false ->
  exists c r, canon Fresh s = String c r /\ is_space c = false.
Proof.
  rewrite blank_all_spaces.
  induction s as [|c r IH]; [discriminate|].
  cbn [all_chars canon]. destruct (is_space c) eqn:Hc.
  - cbn [andb]. exact IH.
  - intros _. destruct (is_sep c); eauto.
Qed.

Lemma unspaced_starts (c : ascii) (r : string) :
  is_space c = false -> nonempty (replace " " "" (String c r)) = true.
Proof.
  intros H. cbn. destruct (Ascii.eqb c " ") eqn:E; [|reflexivity].
  apply Ascii.eqb_eq in E. subst c. discriminate H.
Qed.

Lemma nonempty_app (a b : string) :
  nonempty a = true -> nonempty (a ++ b) = true.
Proof. destruct a; [discriminate | reflexivity]. Qed.

(** The normalized key of a text that is not blank is not empty. *)
Lemma normalized_key_nonempty (s : string) (k : string)
    (b v : option string) :
  blank s = false ->
  normalized_of_shape (prepare_sku s) = (Some k, b, v) ->
  nonempty k = true.
Proof.
  intros B. unfold normalized_of_shape.
  pose proof (shape_of_cases (prepare_sku s)) as C.
  destruct (shape_of (prepare_sku s)) as [p n x | p n x | p n |].
  - destruct C as [C _]. destruct (code_head_parts _ C) as (_ & _ & N & _).
    intros E. injection E as <- _ _. now apply nonempty_app, nonempty_app.
  - destruct C as [C _]. destruct (code_head_parts _ C) as (_ & _ & N & _).
    intros E. injection E as <- _ _. now apply nonempty_app, nonempty_app.
  - destruct (code_head_parts _ C) as (_ & _ & N & _).
    intros E. injection E as <- _ _. now apply nonempty_app.
  - intros E. injection E as <- _ _.
    rewrite prepare_canon.
    destruct (canon_fresh_starts s B) as (c & r & -> & Hc).
    now apply unspaced_starts.
Qed.

(** The exact-match key of a text that is not blank. *)
Lemma exact_key_of_text (s k : string) (b v : option string) :
  blank s = false ->
  normalize_sku (VStr s) = (Some k, b, v) ->
  exact_key (VStr s) = Some (upper (replace " " "" k)).
Proof.
  intros B E. unfold exact_key. cbn [truthy].
  assert (nonempty s = true) as ->.
  { destruct s; [discriminate B | reflexivity]. }
  cbn [negb]. rewrite E. cbn [truthy_opt fmt].
  rewrite (normalize_sku_by_shape s B) in E.
  now rewrite (normalized_key_nonempty s B E).
Qed.

Lemma exact_key_blank (s : string) :
  blank s = true -> exact_key (VStr s) = None.
Proof.
  intros B. unfold exact_key, normalize_sku. cbn [truthy str]. rewrite B.
  destruct (negb (nonempty s)); [reflexivity|].
  rewrite orb_true_r. reflexivity.
Qed.

(** The first stage of [find_images_for_sku] looks this key up. *)
Lemma find_images_exact (raw_sku : value) (fm : folder_map) (key : string)
    (info : folder_info) :
  exact_key raw_sku = Some key ->
  dict_get fm key = Some info ->
  find_images_for_sku raw_sku fm = Folder.images info.
Proof.
  unfold exact_key, find_images_for_sku.
  destruct (negb (truthy raw_sku)); [discriminate|].
  destruct (normalize_sku raw_sku) as [[normalized base_sku] variation].
  destruct (negb (truthy_opt normalized)); [discriminate|].
  intros E. injection E as ->. now intros ->.
Qed.

(** ** The normalized key: case and whitespace *)




(** ** The prepared text of an upper-cased SKU *)

Lemma upper_char_sep (c : ascii) : is_sep (upper_char c) = is_sep c.
Proof. unfold is_sep. now rewrite upper_char_dash, upper_char_slash. Qed.

Lemma canon_upper (s : string) (st : scan_state) :
  canon st (upper s) = upper (canon st s).
Proof.
  revert st. induction s as [|c r IH]; intros st; [reflexivity|].
  cbn [upper canon]. rewrite upper_char_space, upper_char_sep.
  destruct (is_space c); [apply IH|].
  destruct (is_sep c); [cbn; now rewrite IH|].
  destruct st; cbn; now rewrite IH.
Qed.

Lemma prepare_upper (s : string) :
  prepare_sku (upper s) = upper (prepare_sku s).
Proof. rewrite !prepare_canon. apply canon_upper. Qed.

Lemma blank_upper (s : string) : blank (upper s) = blank s.
Proof.
  rewrite !blank_all_spaces.
  induction s as [|c r IH]; [reflexivity|].
  cbn. now rewrite upper_char_space, IH.
Qed.

Lemma lstrip_upper (v : string) : lstrip (upper v) = upper (lstrip v).
Proof.
  induction v as [|c r IH]; [reflexivity|].
  cbn [upper lstrip]. rewrite upper_char_space.
  destruct (is_space c); [exact IH | reflexivity].
Qed.

Lemma rstrip_upper (v : string) : rstrip (upper v) = upper (rstrip v).
Proof.
  induction v as [|c r IH]; [reflexivity|].
  cbn [upper rstrip]. rewrite IH, upper_char_space.
  destruct (rstrip r); [destruct (is_space c)|]; reflexivity.
Qed.

Lemma strip_upper (v : string) : strip (upper v) = upper (strip v).
Proof. unfold strip. now rewrite lstrip_upper, rstrip_upper. Qed.

Lemma nonempty_upper (v : string) : nonempty (upper v) = nonempty v.
Proof. now destruct v. Qed.

(** A run of a class that [upper] respects. *)
Lemma run_upper (p : ascii -> bool) (s : string) :
  (forall c, p (upper_char c) = p c) ->
  take_while p (upper s) = upper (take_while p s)
  /\ drop_while p (upper s) = upper (drop_while p s).
Proof.
  intros R. induction s as [|c r [IH1 IH2]]; [now split|].
  cbn [upper take_while drop_while]. rewrite R.
  destruct (p c); [|now split].
  split; [cbn; now rewrite IH1 | exact IH2].
Qed.

Lemma not_az_upper (c : ascii) : is_az c = false -> upper_char c = c.
Proof. unfold upper_char. now intros ->. Qed.

Lemma AZ_not_az (c : ascii) : is_AZ c = true -> is_az c = false.
Proof. ascii_cases c; intros H; first [reflexivity | discriminate H]. Qed.

Lemma space_not_az (c : ascii) : is_space c = true -> is_az c = false.
Proof. ascii_cases c; intros H; first [reflexivity | discriminate H]. Qed.

Lemma digit_not_az (c : ascii) : is_digit c = true -> is_az c = false.
Proof. ascii_cases c; intros H; first [reflexivity | discriminate H]. Qed.

(** The run of capitals, when no small letter follows it. *)
Lemma AZ_run_upper (r : string) :
  match drop_while is_AZ r with
  | String c _ => is_az c = false
  | "" => True
  end ->
  take_while is_AZ (upper r) = take_while is_AZ r
  /\ drop_while is_AZ (upper r) = upper (drop_while is_AZ r).
Proof.
  induction r as [|c r IH]; [now split|].
  cbn [upper take_while drop_while].
  destruct (is_AZ c) eqn:Hc.
  - intros H. destruct (IH H) as [IH1 IH2].
    rewrite (not_az_upper c (AZ_not_az c Hc)), Hc, IH1. now split.
  - intros H. rewrite (not_az_upper c H), Hc.
    split; [reflexivity|]. cbn. now rewrite (not_az_upper c H).
Qed.

Lemma upper_all_fixed (s : string) (p : ascii -> bool) :
  (forall c, p c = true -> upper_fixed c = true) ->
  all_chars p s = true -> upper s = s.
Proof.
  intros I H. apply upper_fixed_all.
  exact (all_chars_weaken p upper_fixed s I H).
Qed.

(** The head of the code of an upper-cased text. *)
Lemma code_head_upper (t p n r3 : string) :
  code_head t = Some (p, n, r3) ->
  code_head (upper t) = Some (p, n, upper r3).
Proof.
  unfold code_head.
  destruct t as [|c0 [|c1 r]]; try discriminate.
  destruct (Ascii.eqb c0 "W" && Ascii.eqb c1 "P") eqn:E; [|discriminate].
  apply andb_prop in E as [E0 E1].
  apply Ascii.eqb_eq in E0, E1. subst c0 c1.
  destruct (nonempty (take_while is_AZ r)
            && nonempty (take_while is_digit
                           (drop_while is_space (drop_while is_AZ r))))
    eqn:N; [|discriminate].
  intros H. injection H as <- <- <-.
  apply andb_prop in N as [N1 N2].
  assert (B : match drop_while is_AZ r with
              | String c _ => is_az c = false
              | "" => True
              end).
  { destruct (drop_while is_AZ r) as [|c r1]; [exact I|].
    cbn [drop_while] in N2. destruct (is_space c) eqn:Hs.
    - now apply space_not_az.
    - cbn in N2. destruct (is_digit c) eqn:Hd; [|discriminate N2].
      now apply digit_not_az. }
  destruct (AZ_run_upper r B) as [U1 U2].
  destruct (run_upper is_space (drop_while is_AZ r) upper_char_space)
    as [_ U3].
  destruct (run_upper is_digit (drop_while is_space (drop_while is_AZ r))
              upper_char_digit) as [U4 U5].
  change (upper (String "W" (String "P" r)))
    with (String "W" (String "P" (upper r))).
  cbn [Ascii.eqb Bool.eqb andb].
  change (Ascii.eqb "W" "W" && Ascii.eqb "P" "P") with true. cbv iota.
  rewrite U1, U2, U3, U4, U5, N1.
  rewrite (upper_all_fixed _ is_digit digit_upper_fixed
             (all_take_while is_digit _)).
  rewrite N2. reflexivity.
Qed.

(** The shape of an upper-cased text that has a recognised shape. *)
Lemma shape_upper (t : string) :
  match shape_of t with
  | Dashed p n v => shape_of (upper t) = Dashed p n (upper v)
  | Spaced p n v => shape_of (upper t) = Spaced p n (upper v)
  | Bare p n => shape_of (upper t) = Bare p n
  | Other => True
  end.
Proof.
  pose proof (shape_of_cases t) as C.
  destruct (shape_of t) as [p n v | p n v | p n |]; [| | |exact I].
  - destruct C as [C N]. unfold shape_of.
    rewrite (code_head_upper t C). cbn [upper].
    change (Ascii.eqb (upper_char "-") "-") with true. cbv iota.
    now rewrite nonempty_upper, N.
  - destruct C as [C N]. unfold shape_of.
    rewrite (code_head_upper t C). cbn [upper].
    change (Ascii.eqb (upper_char " ") "-") with false.
    change (Ascii.eqb (upper_char " ") " ") with true. cbv iota.
    now rewrite nonempty_upper, N.
  - unfold shape_of. now rewrite (code_head_upper t C).
Qed.

(** ** Texts without their blanks *)

Lemma unspaced_app (a b : string) :
  replace " " "" (a ++ b) = replace " " "" a ++ replace " " "" b.
Proof.
  induction a as [|c a IH]; [reflexivity|].
  cbn [append replace]. destruct (Ascii.eqb c " "); cbn; now rewrite IH.
Qed.

Lemma unspaced_idem (t : string) :
  replace " " "" (replace " " "" t) = replace " " "" t.
Proof.
  induction t as [|c r IH]; [reflexivity|].
  cbn [replace]. destruct (Ascii.eqb c " ") eqn:E; cbn [append]; [exact IH|].
  cbn [replace]. now rewrite E, IH.
Qed.

Lemma plain_space_blank (c : ascii) :
  plain c = true -> is_space c = true -> Ascii.eqb c " " = true.
Proof. unfold plain. intros H S. rewrite S in H. exact H. Qed.

Lemma unspaced_spaces (sp : string) :
  all_chars is_space sp = true -> all_chars plain sp = true ->
  replace " " "" sp = "".
Proof.
  induction sp as [|c r IH]; [reflexivity|].
  cbn [all_chars replace]. intros S P.
  apply andb_prop in S as [Sc Sr]. apply andb_prop in P as [Pc Pr].
  rewrite (plain_space_blank c Pc Sc). now apply IH.
Qed.

Lemma unspaced_lstrip (v : string) :
  all_chars plain v = true ->
  replace " " "" (lstrip v) = replace " " "" v.
Proof.
  induction v as [|c r IH]; [reflexivity|].
  cbn [all_chars lstrip]. intros P. apply andb_prop in P as [Pc Pr].
  destruct (is_space c) eqn:Sc; [|reflexivity].
  cbn [replace]. rewrite (plain_space_blank c Pc Sc). now apply IH.
Qed.

Lemma unspaced_rstrip (v : string) :
  all_chars plain v = true ->
  replace " " "" (rstrip v) = replace " " "" v.
Proof.
  induction v as [|c r IH]; [reflexivity|].
  cbn [all_chars rstrip]. intros P. apply andb_prop in P as [Pc Pr].
  specialize (IH Pr). destruct (rstrip r) as [|d r'].
  - destruct (is_space c) eqn:Sc.
    + cbn [replace]. now rewrite (plain_space_blank c Pc Sc), <- IH.
    + cbn [replace]. now rewrite <- IH.
  - cbn [replace] in *. now rewrite IH.
Qed.

Lemma unspaced_strip (v : string) :
  all_chars plain v = true ->
  replace " " "" (strip v) = replace " " "" v.
Proof.
  intros P. unfold strip.
  rewrite (unspaced_rstrip _ (all_chars_lstrip plain v P)).
  now apply unspaced_lstrip.
Qed.

Lemma unspaced_dash (y : string) :
  replace " " "" (String "-" y) = String "-" (replace " " "" y).
Proof. reflexivity. Qed.

(** Unless the text has the shape with a blank before the remainder, the
    normalized key without its blanks is the prepared text without its
    blanks. *)
Lemma unspaced_key (t k : string) (b v : option string) :
  tidy t = true ->
  match shape_of t with Spaced _ _ _ => False | _ => True end ->
  normalized_of_shape t = (Some k, b, v) ->
  replace " " "" k = replace " " "" t.
Proof.
  intros T. pose proof (tidy_plain t T) as A.
  unfold normalized_of_shape.
  pose proof (shape_of_cases t) as C.
  destruct (shape_of t) as [p n x | p n x | p n |].
  - intros _ E. injection E as <- _ _. destruct C as [C _].
    destruct (code_head_parts t C) as (_ & _ & _ & sp & Et & Ssp).
    pose proof (all_chars_code_rest plain t C A) as Px.
    cbn in Px. apply andb_prop in Px as [_ Px].
    assert (Psp : all_chars plain sp = true).
    { rewrite Et, !all_chars_app in A.
      apply andb_prop in A as [_ A]. now apply andb_prop in A as [A _]. }
    rewrite Et, !unspaced_app, !unspaced_dash.
    rewrite (unspaced_spaces sp Ssp Psp), (unspaced_strip x Px).
    cbn [append]. now rewrite append_assoc.
  - contradiction.
  - intros _ E. injection E as <- _ _.
    destruct (code_head_parts t C) as (_ & _ & _ & sp & Et & Ssp).
    assert (Psp : all_chars plain sp = true).
    { rewrite Et, !all_chars_app in A.
      apply andb_prop in A as [_ A]. now apply andb_prop in A as [A _]. }
    rewrite Et, !unspaced_app.
    rewrite (unspaced_spaces sp Ssp Psp). cbn [append replace].
    now rewrite append_empty.
  - intros _ E. injection E as <- _ _. apply unspaced_idem.
Qed.

(** The branch of [normalize_sku], by the shape of the prepared text. *)
Lemma takes_fallback_shape (s : string) :
  takes_fallback s
  = match shape_of (prepare_sku s) with Other => true | _ => false end.
Proof.
  unfold takes_fallback. cbv zeta. pose proof (tidy_prepared s) as T.
  rewrite (pattern1_by_shape _ T), (pattern2_by_shape _ T),
    (pattern3_by_shape _ T).
  destruct (shape_of (prepare_sku s)); reflexivity.
Qed.

Lemma takes_pattern2_shape (s : string) :
  takes_pattern2 s
  = match shape_of (prepare_sku s) with Spaced _ _ _ => true | _ => false end.
Proof.
  unfold takes_pattern2. cbv zeta. pose proof (tidy_prepared s) as T.
  rewrite (pattern1_by_shape _ T), (pattern2_by_shape _ T).
  destruct (shape_of (prepare_sku s)); reflexivity.
Qed.

Lemma normalized_of_shape_some (t : string) :
  exists k b v, normalized_of_shape t = (Some k, b, v).
Proof.
  unfold normalized_of_shape. destruct (shape_of t); eauto.
Qed.

(** The exact-match key of a text and of its upper-cased form. *)
Lemma exact_key_upper (s : string) :
  takes_fallback s && takes_pattern2 (upper s) = false ->
  exact_key (VStr s) = exact_key (VStr (upper s)).
Proof.
  intros H. destruct (blank s) eqn:B.
  { rewrite (exact_key_blank s B), exact_key_blank;
      [reflexivity | now rewrite blank_upper]. }
  assert (B' : blank (upper s) = false) by now rewrite blank_upper.
  rewrite takes_fallback_shape, takes_pattern2_shape, prepare_upper in H.
  pose proof (normalize_sku_by_shape s B) as N.
  pose proof (normalize_sku_by_shape (upper s) B') as N'.
  rewrite prepare_upper in N'.
  pose proof (tidy_prepared s) as T.
  pose proof (tidy_prepared (upper s)) as T'. rewrite prepare_upper in T'.
  set (t := prepare_sku s) in *.
  destruct (normalized_of_shape_some t) as (k & b & v & E).
  destruct (normalized_of_shape_some (upper t)) as (k' & b' & v' & E').
  rewrite E in N. rewrite E' in N'.
  rewrite (exact_key_of_text s B N), (exact_key_of_text (upper s) B' N').
  f_equal.
  pose proof (shape_upper t) as SU.
  destruct (shape_of t) as [p n x | p n x | p n |] eqn:Sh.
  - (* code, dash, remainder *)
    rewrite (unspaced_key t T ltac:(now rewrite Sh) E).
    rewrite (unspaced_key (upper t) T' ltac:(now rewrite SU) E').
    now rewrite <- (upper_unspaced t), upper_idem.
  - (* code, blank, remainder *)
    unfold normalized_of_shape in E, E'. rewrite Sh in E. rewrite SU in E'.
    injection E as <- _ _. injection E' as <- _ _.
    rewrite strip_upper.
    rewrite !upper_unspaced, !upper_app. cbn [append upper].
    rewrite upper_idem. reflexivity.
  - (* code alone *)
    rewrite (unspaced_key t T ltac:(now rewrite Sh) E).
    rewrite (unspaced_key (upper t) T' ltac:(now rewrite SU) E').
    now rewrite <- (upper_unspaced t), upper_idem.
  - (* no code in s *)
    cbn [andb] in H.
    rewrite (unspaced_key t T ltac:(now rewrite Sh) E).
    rewrite (unspaced_key (upper t) T'
               ltac:(destruct (shape_of (upper t));
                     first [exact I | discriminate H]) E').
    now rewrite <- (upper_unspaced t), upper_idem.
Qed.

(** ** Folder keys *)

Lemma dict_set_keys (V : Type) (d : list (string * V)) (k0 : string) (v0 : V)
    (k : string) (v : V) :
  In (k, v) (dict_set d k0 v0) -> k = k0 \/ exists v', In (k, v') d.
Proof.
  induction d as [|[k1 v1] d IH]; cbn.
  - intros [E | []]. injection E as <- _. now left.
  - destruct (String.eqb k1 k0) eqn:Ek.
    + apply String.eqb_eq in Ek. subst k1.
      intros [E | H].
      * injection E as <- _. now left.
      * right. exists v. now right.
    + intros [E | H].
      * injection E as <- <-. right. exists v1. now left.
      * destruct (IH H) as [-> | (v' & Hv)]; [now left|].
        right. exists v'. now right.
Qed.

Lemma get_folder_key_upper (folder_name : string) :
  upper (get_folder_key folder_name) = get_folder_key folder_name.
Proof. unfold get_folder_key. apply upper_idem. Qed.

Lemma scan_keys_upper (images_dir : string) (content : option (list dir_item))
    (key : string) (info : folder_info) :
  In (key, info) (scan_image_folders images_dir content) ->
  exists folder_name, key = get_folder_key folder_name.
Proof.
  unfold scan_image_folders. destruct content as [items|]; [|intros []].
  assert (G : forall (acc : folder_map),
             (forall k i, In (k, i) acc ->
                          exists f, k = get_folder_key f) ->
             forall k i,
               In (k, i)
                 (fold_left
                    (fun folders it =>
                       match it with
                       | PlainFile _ => folders
                       | Folder item listing =>
                           let item_path := path_join images_dir item in
                           let key := get_folder_key item in
                           dict_set folders key
                             (Folder.mk item_path item
                                (map (path_join item_path)
                                   (filter
                                      (fun f =>
                                         existsb (endswith (lower f))
                                           IMAGE_EXTENSIONS)
                                      listing)))
                       end) items acc) ->
               exists f, k = get_folder_key f).
  { induction items as [|it items IH]; intros acc Hacc k i; [apply Hacc|].
    cbn [fold_left]. apply IH. clear k i.
    intros k i. destruct it as [f | item listing]; [apply Hacc|].
    cbv zeta. intros H. apply dict_set_keys in H as [-> | (v' & H)].
    - now exists item.
    - now apply (Hacc k v'). }
  apply G. intros k i [].
Qed.

(** ** The exact match and letter case *)

(** X22: the exact match and letter case.  The key [find_images_for_sku]
    looks up first (the normalized value without blanks, in upper case) is
    the same for a raw
    SKU and for its upper-cased form, except when [normalize_sku] takes its
    fallback on the SKU (no pattern matches, as for a product code in small
    letters) while the upper-cased form has a remainder after a blank (second
    pattern): only the second pattern puts a dash in.  The key is always in
    upper case, it decides the first stage, and [scan_image_folders] puts every
    folder key in upper case as well. *)
Theorem exact_match_case :
  (forall s,
      takes_fallback s && takes_pattern2 (upper s) = false ->
      exact_key (VStr s) = exact_key (VStr (upper s)))
  /\ (forall raw_sku key, exact_key raw_sku = Some key -> upper key = key)
  /\ (forall raw_sku fm key info,
         exact_key raw_sku = Some key -> dict_get fm key = Some info ->
         find_images_for_sku raw_sku fm = Folder.images info)
  /\ (forall folder_name,
         upper (get_folder_key folder_name) = get_folder_key folder_name)
  /\ (forall images_dir content key info,
         In (key, info) (scan_image_folders images_dir content) ->
         upper key = key).
Proof.
  split; [exact exact_key_upper|]. split; [|split; [|split]].
  - intros raw_sku key. unfold exact_key.
    destruct (negb (truthy raw_sku)); [discriminate|].
    destruct (normalize_sku raw_sku) as [[normalized b] v].
    destruct (negb (truthy_opt normalized)); [discriminate|].
    intros E. injection E as <-. apply upper_idem.
  - exact find_images_exact.
  - exact get_folder_key_upper.
  - intros images_dir content key info H.
    destruct (scan_keys_upper _ _ _ _ H) as (f & ->).
    apply get_folder_key_upper.
Qed.

Lemma exact_match_case_witness :
  exact_key (VStr "wpjf 001 - 127") = exact_key (VStr (upper "wpjf 001 - 127"))
  /\ upper "WPJF001-127" = "WPJF001-127"
  /\ find_images_for_sku (VStr "wpjf 001 - 127")
       (scan_image_folders "./images"
          (Some [Folder "wpjf 001-127 (1)" ["a.jpg"]]))
     = ["./images/wpjf 001-127 (1)/a.jpg"].
Proof.
  split; [|split].
  - apply (proj1 exact_match_case "wpjf 001 - 127"). reflexivity.
  - apply (proj1 (proj2 exact_match_case) (VStr "wpjf 001 - 127")).
    reflexivity.
  - apply (proj1 (proj2 (proj2 exact_match_case)) (VStr "wpjf 001 - 127")
             (scan_image_folders "./images"
                (Some [Folder "wpjf 001-127 (1)" ["a.jpg"]]))
             "WPJF001-127"
             (Folder.mk "./images/wpjf 001-127 (1)" "wpjf 001-127 (1)"
                ["./images/wpjf 001-127 (1)/a.jpg"])); reflexivity.
Defined.

(** A raw SKU in small letters with a remainder after a blank, whose key
    differs from the key of its upper-cased form. *)
Lemma exact_key_differs_in_case :
  exact_key (VStr "wpjf 0012 blue") = Some "WPJF0012BLUE"
  /\ exact_key (VStr (upper "wpjf 0012 blue")) = Some "WPJF0012-BLUE"
  /\ exact_key (VStr "wpjf 0012 blue")
     <> exact_key (VStr (upper "wpjf 0012 blue")).
Proof.
  split; [vm_compute; reflexivity|].
  split; [vm_compute; reflexivity|].
  vm_compute. discriminate.
Qed.

(* ================================================================== *)
(** * Further properties of the three modules *)
(* ================================================================== *)

(** ** Dicts *)

Lemma dict_get_In (V : Type) (d : list (string * V)) (k : string) (v : V) :
  dict_get d k = Some v -> In (k, v) d.
Proof.
  induction d as [|[k1 v1] d IH]; cbn; [discriminate|].
  destruct (String.eqb k1 k) eqn:E.
  - apply String.eqb_eq in E. subst k1. intros H. injection H as <-.
    now left.
  - intros H. right. now apply IH.
Qed.

Lemma dict_get_set_same (V : Type) (d : list (string * V)) (k : string)
    (v : V) :
  dict_get (dict_set d k v) k = Some v.
Proof.
  induction d as [|[k1 v1] d IH]; cbn.
  - now rewrite String.eqb_refl.
  - destruct (String.eqb k1 k) eqn:E; cbn; now rewrite E.
Qed.

Lemma dict_get_set_other (V : Type) (d : list (string * V)) (k k' : string)
    (v : V) :
  k <> k' -> dict_get (dict_set d k v) k' = dict_get d k'.
Proof.
  intros N. apply String.eqb_neq in N.
  induction d as [|[k1 v1] d IH]; cbn.
  - now rewrite N.
  - destruct (String.eqb k1 k) eqn:E; cbn.
    + apply String.eqb_eq in E. subst k1. now rewrite N.
    + now rewrite IH.
Qed.

Lemma dict_set_fst (V : Type) (d : list (string * V)) (k : string) (v : V) :
  map fst (dict_set d k v)
  = if existsb (String.eqb k) (map fst d) then map fst d
    else (map fst d ++ [k])%list.
Proof.
  induction d as [|[k1 v1] d IH]; cbn; [reflexivity|].
  rewrite (String.eqb_sym k k1).
  destruct (String.eqb k1 k) eqn:E; cbn; [reflexivity|].
  rewrite IH. now destruct (existsb _ _).
Qed.

Lemma dict_set_NoDup (V : Type) (d : list (string * V)) (k : string) (v : V) :
  NoDup (map fst d) -> NoDup (map fst (dict_set d k v)).
Proof.
  intros H. rewrite dict_set_fst.
  destruct (existsb (String.eqb k) (map fst d)) eqn:E; [assumption|].
  apply NoDup_app; [assumption | repeat constructor; intros [] |].
  intros x Hx [Ex | []]. subst x.
  assert (existsb (String.eqb k) (map fst d) = true).
  { apply existsb_exists. exists k. split; [assumption|].
    apply String.eqb_refl. }
  congruence.
Qed.

(** ** Categories *)

Lemma category_lists (key : string) (categories : list nat) :
  In (key, categories) CATEGORY_MAPPING ->
  exists rest, categories = FILLETTE_CATEGORY_ID :: rest
               /\ (rest = [] \/ List.length rest = 2).
Proof.
  unfold CATEGORY_MAPPING. cbn [In]. intros H.
  repeat (destruct H as [H | H];
          [injection H as <- <-; eexists; split; [reflexivity|];
           first [now left | now right]|]).
  contradiction.
Qed.

(** X1: [get_categories_for_famille] raises only on a value that is true and
    no text (the NaN of an empty cell, a number other than 0); every list it
    returns is an entry of [CATEGORY_MAPPING] and so starts with the main
    category 296, alone or followed by two more; no value, the empty text
    and a text that contains no key give the default list [296]. *)
Theorem categories_of_famille :
  (forall famille,
      match get_categories_for_famille famille with
      | Some categories =>
          famille_ok famille = true
          /\ (exists key, In (key, categories) CATEGORY_MAPPING)
          /\ exists rest,
               categories = FILLETTE_CATEGORY_ID :: rest
               /\ (rest = [] \/ List.length rest = 2)
      | None => famille_ok famille = false
      end)
  /\ get_categories_for_famille VNone = Some [FILLETTE_CATEGORY_ID]
  /\ get_categories_for_famille (VStr "") = Some [FILLETTE_CATEGORY_ID]
  /\ (forall s,
         nonempty s = true ->
         (forall key categories,
             In (key, categories) CATEGORY_MAPPING ->
             is_infix key (strip (upper s)) = false) ->
         get_categories_for_famille (VStr s) = Some [FILLETTE_CATEGORY_ID]).
Proof.
  split; [|split; [reflexivity | split; [reflexivity|]]].
  - intros famille.
    assert (D : In ("DEFAULT", default_categories) CATEGORY_MAPPING)
      by (cbn; auto 10).
    unfold get_categories_for_famille.
    destruct (negb (truthy famille)) eqn:T.
    + split; [|split].
      * destruct famille as [| |s|z]; try reflexivity; try discriminate T.
        cbn in T. apply negb_true_iff, negb_false_iff in T.
        cbn. exact T.
      * now exists "DEFAULT".
      * exact (category_lists D).
    + destruct famille as [| |s|z]; try reflexivity; try discriminate T.
      * destruct (dict_get CATEGORY_MAPPING (strip (upper s)))
          as [categories|] eqn:G.
        -- apply dict_get_In in G.
           split; [reflexivity|]. split; [eauto|].
           exact (category_lists G).
        -- destruct (find _ CATEGORY_MAPPING) as [[key categories]|] eqn:F.
           ++ apply find_some in F as [F _].
              split; [reflexivity|]. split; [eauto|].
              exact (category_lists F).
           ++ split; [reflexivity|]. split; [eauto|].
              exact (category_lists D).
      * cbn in T. apply negb_false_iff in T. cbn.
        now apply negb_true_iff in T.
  - intros s N H. unfold get_categories_for_famille. cbn [truthy].
    rewrite N. cbn [negb].
    destruct (dict_get CATEGORY_MAPPING (strip (upper s)))
      as [categories|] eqn:G.
    + apply dict_get_In in G.
      pose proof (H _ _ G) as I.
      assert (P : forall x, is_infix x x = true).
      { intros x. destruct x as [|c x]; [reflexivity|].
        cbn [is_infix]. apply orb_true_iff. left.
        apply prefix_correct. cbn [String.length substring].
        clear. f_equal. induction x as [|d x IH]; [reflexivity|].
        cbn. now rewrite IH. }
      now rewrite P in I.
    + destruct (find _ CATEGORY_MAPPING) as [[key categories]|] eqn:F;
        [|reflexivity].
      apply find_some in F as [F1 F2].
      apply andb_prop in F2 as [_ F2]. now rewrite (H _ _ F1) in F2.
Qed.

Lemma categories_of_famille_witness :
  get_categories_for_famille (VStr "Bermuda") = Some [FILLETTE_CATEGORY_ID].
Proof.
  apply (proj2 (proj2 (proj2 categories_of_famille)) "Bermuda").
  - reflexivity.
  - unfold CATEGORY_MAPPING. cbn [In]. intros key categories H.
    repeat (destruct H as [H | H]; [injection H as <- <-; reflexivity|]).
    contradiction.
Defined.

(** ** The scan of the image folders *)

Lemma fold_left_invariant (A B : Type) (f : A -> B -> A) (P : A -> Prop)
    (l : list B) (a : A) :
  P a -> (forall a b, In b l -> P a -> P (f a b)) -> P (fold_left f l a).
Proof.
  revert a. induction l as [|b l IH]; intros a Ha Hf; [exact Ha|].
  cbn. apply IH.
  - apply Hf; [now left | exact Ha].
  - intros a' b' Hb'. apply Hf. now right.
Qed.

Lemma dict_set_In (V : Type) (d : list (string * V)) (k0 : string) (v0 : V)
    (k : string) (v : V) :
  In (k, v) (dict_set d k0 v0) -> (k = k0 /\ v = v0) \/ In (k, v) d.
Proof.
  induction d as [|[k1 v1] d IH]; cbn.
  - intros [E | []]. injection E as <- <-. now left.
  - destruct (String.eqb k1 k0) eqn:Ek.
    + apply String.eqb_eq in Ek. subst k1.
      intros [E | H]; [injection E as <- <-; now left | right; now right].
    + intros [E | H]; [right; now left|].
      destruct (IH H) as [? | ?]; [now left | right; now right].
Qed.

Lemma scan_fold (images_dir : string) (items : list dir_item) :
  scan_image_folders images_dir (Some items)
  = fold_left (scan_step images_dir) items [].
Proof. reflexivity. Qed.

(** A folder stays reachable by its key while the scan goes on. *)
Lemma scan_keeps_key (images_dir key : string) (items : list dir_item)
    (acc : folder_map) :
  (exists info, dict_get acc key = Some info
                /\ get_folder_key (Folder.name info) = key) ->
  exists info,
    dict_get (fold_left (scan_step images_dir) items acc) key = Some info
    /\ get_folder_key (Folder.name info) = key.
Proof.
  revert acc. induction items as [|it items IH]; intros acc H; [exact H|].
  cbn [fold_left]. apply IH.
  destruct it as [f | item listing]; [exact H|].
  cbn [scan_step]. cbv zeta.
  destruct (String.eqb (get_folder_key item) key) eqn:E.
  - apply String.eqb_eq in E. rewrite <- E, dict_get_set_same.
    eexists. split; [reflexivity | reflexivity].
  - apply String.eqb_neq in E. now rewrite (dict_get_set_other _ _ E).
Qed.

(** Every entry of the scanned map stands for a folder of the listing. *)
Lemma scan_entries (images_dir : string) (items : list dir_item)
    (key : string) (info : folder_info) :
  In (key, info) (scan_image_folders images_dir (Some items)) ->
  exists listing,
    In (Folder (Folder.name info) listing) items
    /\ key = get_folder_key (Folder.name info)
    /\ Folder.path info = path_join images_dir (Folder.name info)
    /\ Folder.images info
       = map (path_join (Folder.path info)) (filter is_image_file listing).
Proof.
  rewrite scan_fold. revert key info.
  apply (fold_left_invariant (scan_step images_dir)
           (fun acc => forall key info, In (key, info) acc ->
              exists listing,
                In (Folder (Folder.name info) listing) items
                /\ key = get_folder_key (Folder.name info)
                /\ Folder.path info
                   = path_join images_dir (Folder.name info)
                /\ Folder.images info
                   = map (path_join (Folder.path info))
                       (filter is_image_file listing))).
  - intros key info [].
  - intros acc it Hit Hacc key info H.
    destruct it as [f | item listing]; [now apply Hacc|].
    apply dict_set_In in H as [[-> ->] | H]; [|now apply Hacc].
    exists listing. cbn. repeat split. exact Hit.
Qed.

(** Every folder of the listing is reachable under its key. *)
Lemma scan_reaches (images_dir : string) (items : list dir_item)
    (item : string) (listing : list string) :
  In (Folder item listing) items ->
  exists info,
    dict_get (scan_image_folders images_dir (Some items))
      (get_folder_key item) = Some info
    /\ get_folder_key (Folder.name info) = get_folder_key item.
Proof.
  intros H. rewrite scan_fold.
  generalize (@nil (string * folder_info)).
  induction items as [|it items IH]; intros acc; [destruct H|].
  destruct H as [-> | H]; [|apply IH, H].
  cbn [fold_left]. apply scan_keeps_key.
  cbn [scan_step]. cbv zeta. rewrite dict_get_set_same.
  eexists. split; reflexivity.
Qed.

(** X2: [scan_image_folders] returns the empty map for a directory that does
    not exist; the keys of its map are pairwise different; every entry
    stands for a folder of the listing, under the key of the folder's name,
    with the folder's path and exactly its image files (by extension, in any
    case of letters) as paths in that folder; and every folder of the
    listing is reachable under its key, where a folder with the same key
    (such as a duplicate "name (1)") may have taken its place. *)
Theorem scan_image_folders_map (images_dir : string) :
  scan_image_folders images_dir None = []
  /\ (forall content,
         NoDup (map fst (scan_image_folders images_dir content)))
  /\ (forall items key info,
         In (key, info) (scan_image_folders images_dir (Some items)) ->
         exists listing,
           In (Folder (Folder.name info) listing) items
           /\ key = get_folder_key (Folder.name info)
           /\ Folder.path info = path_join images_dir (Folder.name info)
           /\ Folder.images info
              = map (path_join (Folder.path info))
                  (filter is_image_file listing))
  /\ (forall items item listing,
         In (Folder item listing) items ->
         exists info,
           dict_get (scan_image_folders images_dir (Some items))
             (get_folder_key item) = Some info
           /\ get_folder_key (Folder.name info) = get_folder_key item).
Proof.
  split; [reflexivity|]. split; [|split].
  - intros [items|]; [|constructor].
    rewrite scan_fold. apply fold_left_invariant; [constructor|].
    intros acc it _ H. destruct it as [f | item listing]; [exact H|].
    now apply dict_set_NoDup.
  - intros items key info. apply scan_entries.
  - intros items item listing. apply scan_reaches.
Qed.

Lemma scan_image_folders_map_witness :
  (exists listing,
      In (Folder "wpjf 001 (1)" listing)
        [Folder "WPJF 001" ["a.JPG"; "notes.txt"]; PlainFile "x.png";
         Folder "wpjf 001 (1)" ["b.webp"]]
      /\ "WPJF001" = get_folder_key "wpjf 001 (1)"
      /\ "./images/wpjf 001 (1)" = path_join "./images" "wpjf 001 (1)"
      /\ ["./images/wpjf 001 (1)/b.webp"]
         = map (path_join "./images/wpjf 001 (1)")
             (filter is_image_file listing))
  /\ exists info,
       dict_get
         (scan_image_folders "./images"
            (Some [Folder "WPJF 001" ["a.JPG"; "notes.txt"];
                   PlainFile "x.png";
                   Folder "wpjf 001 (1)" ["b.webp"]]))
         (get_folder_key "WPJF 001") = Some info
       /\ get_folder_key (Folder.name info) = get_folder_key "WPJF 001".
Proof.
  split.
  - apply (proj1 (proj2 (proj2 (scan_image_folders_map "./images")))
             [Folder "WPJF 001" ["a.JPG"; "notes.txt"]; PlainFile "x.png";
              Folder "wpjf 001 (1)" ["b.webp"]]
             "WPJF001"
             (Folder.mk "./images/wpjf 001 (1)" "wpjf 001 (1)"
                ["./images/wpjf 001 (1)/b.webp"])).
    vm_compute. left. reflexivity.
  - apply (proj2 (proj2 (proj2 (scan_image_folders_map "./images")))
             [Folder "WPJF 001" ["a.JPG"; "notes.txt"]; PlainFile "x.png";
              Folder "wpjf 001 (1)" ["b.webp"]]
             "WPJF 001" ["a.JPG"; "notes.txt"]).
    left. reflexivity.
Defined.

(** ** The mapping of all SKUs *)

Lemma mapping_keeps (fm : folder_map) (skus : list (option string))
    (acc : list (string * list string)) (raw : string) :
  dict_get acc raw = Some (find_images_for_sku (VStr raw) fm) ->
  dict_get (fold_left (mapping_step fm) skus acc) raw
  = Some (find_images_for_sku (VStr raw) fm).
Proof.
  revert acc. induction skus as [|i skus IH]; intros acc H; [exact H|].
  cbn [fold_left]. apply IH. unfold mapping_step. cbv zeta.
  set (k := match i with Some s => s | None => "" end).
  destruct (String.eqb k raw) eqn:E.
  - apply String.eqb_eq in E. rewrite E. apply dict_get_set_same.
  - apply String.eqb_neq in E. now rewrite (dict_get_set_other _ _ E).
Qed.

(** X3: the mapping built by [build_sku_to_images_mapping] has one entry for
    each raw SKU of its input, whatever the number of rows with that SKU: the
    images [find_images_for_sku] finds for it in the scanned folders; an
    element without raw SKU counts as the empty text, which has no images;
    and the mapping has no other entries. *)
Theorem sku_to_images_mapping (xlsx_skus : list (option string))
    (images_dir : string) (content : option (list dir_item)) :
  let fm := scan_image_folders images_dir content in
  let mapping := build_sku_to_images_mapping xlsx_skus images_dir content in
  NoDup (map fst mapping)
  /\ (forall raw, In (Some raw) xlsx_skus ->
        dict_get mapping raw = Some (find_images_for_sku (VStr raw) fm))
  /\ (In None xlsx_skus -> dict_get mapping "" = Some [])
  /\ (forall raw imgs, In (raw, imgs) mapping ->
        imgs = find_images_for_sku (VStr raw) fm
        /\ (In (Some raw) xlsx_skus \/ (raw = "" /\ In None xlsx_skus))).
Proof.
  cbv zeta. unfold build_sku_to_images_mapping. cbv zeta.
  set (fm := scan_image_folders images_dir content).
  change (fun mapping sku_info =>
            dict_set mapping match sku_info with Some s => s | None => "" end
              (find_images_for_sku
                 (VStr match sku_info with Some s => s | None => "" end) fm))
    with (mapping_step fm).
  assert (L : forall i acc,
             In i xlsx_skus ->
             dict_get (fold_left (mapping_step fm) xlsx_skus acc)
               match i with Some s => s | None => "" end
             = Some (find_images_for_sku
                       (VStr match i with Some s => s | None => "" end) fm)).
  { intros i. induction xlsx_skus as [|j skus IH]; intros acc H; [destruct H|].
    destruct H as [-> | H]; [|apply IH, H].
    cbn [fold_left]. apply mapping_keeps.
    unfold mapping_step. cbv zeta. apply dict_get_set_same. }
  split; [|split; [|split]].
  - apply fold_left_invariant; [constructor|].
    intros acc i _ H. now apply dict_set_NoDup.
  - intros raw H. exact (L (Some raw) [] H).
  - intros H. exact (L None [] H).
  - apply (fold_left_invariant (mapping_step fm)
             (fun acc => forall raw imgs, In (raw, imgs) acc ->
                imgs = find_images_for_sku (VStr raw) fm
                /\ (In (Some raw) xlsx_skus
                    \/ (raw = "" /\ In None xlsx_skus)))).
    + intros raw imgs [].
    + intros acc i Hi Hacc raw imgs H.
      apply dict_set_In in H as [[-> ->] | H]; [|now apply Hacc].
      split; [reflexivity|].
      destruct i as [s|]; [now left | right; now split].
Qed.

Lemma sku_to_images_mapping_witness :
  dict_get
    (build_sku_to_images_mapping
       [Some "WPJF 001-127"; None; Some "WPJF 001-127"] "./images"
       (Some [Folder "WPJF001" ["a.jpg"]]))
    "WPJF 001-127"
  = Some (find_images_for_sku (VStr "WPJF 001-127")
            (scan_image_folders "./images"
               (Some [Folder "WPJF001" ["a.jpg"]]))).
Proof.
  apply (proj1 (proj2 (sku_to_images_mapping
                         [Some "WPJF 001-127"; None; Some "WPJF 001-127"]
                         "./images" (Some [Folder "WPJF001" ["a.jpg"]])))).
  left. reflexivity.
Defined.

(** ** The key of a duplicate folder *)

Lemma paren_not_space (c : ascii) :
  is_space c = true -> is_char "(" c = false.
Proof. ascii_cases c; intros H; first [reflexivity | discriminate H]. Qed.

Lemma digit_not_close (c : ascii) :
  is_digit c = true -> is_char ")" c = false.
Proof. ascii_cases c; intros H; first [reflexivity | discriminate H]. Qed.

Lemma digit_not_open (c : ascii) :
  is_digit c = true -> Ascii.eqb c "(" = false.
Proof. ascii_cases c; intros H; first [reflexivity | discriminate H]. Qed.

Lemma space_not_open (c : ascii) :
  is_space c = true -> Ascii.eqb c "(" = false.
Proof. ascii_cases c; intros H; first [reflexivity | discriminate H]. Qed.

Lemma adds_outside_map (w : string) (o : option result) :
  option_map (adds false w) o = o.
Proof. destruct o as [x|]; [cbn; now rewrite adds_outside | reflexivity]. Qed.

(** [\s*\(\d+\)$] matches where, behind the leading whitespace, a number in
    parentheses ends the text. *)
Lemma m_dup_suffix (s : string) :
  m re_dup_suffix false s
  = match drop_while is_space s with
    | String c u =>
        if Ascii.eqb c "(" then
          if nonempty (take_while is_digit u) then
            match drop_while is_digit u with
            | String d e =>
                if Ascii.eqb d ")" then
                  if at_end e then Some ([], e) else None
                else None
            | "" => None
            end
          else None
        else None
    | "" => None
    end.
Proof.
  unfold re_dup_suffix. cbn [Lit Plus app].
  rewrite m_star_commit.
  2:{ intros c r Hc. rewrite m_one. now rewrite (paren_not_space c Hc). }
  rewrite adds_outside_map.
  rewrite m_one. destruct (drop_while is_space s) as [|c u]; [reflexivity|].
  unfold is_char at 1. destruct (Ascii.eqb c "("); [|reflexivity].
  rewrite option_map_add_outside, m_one.
  destruct u as [|d u]; [reflexivity|].
  cbn [take_while drop_while]. destruct (is_digit d) eqn:Hd; [|reflexivity].
  cbn [nonempty]. rewrite option_map_add_outside, m_star_commit.
  2:{ intros c' r Hc'. rewrite m_one. now rewrite (digit_not_close c' Hc'). }
  rewrite adds_outside_map, m_one.
  destruct (drop_while is_digit u) as [|d' e]; [reflexivity|].
  unfold is_char. destruct (Ascii.eqb d' ")"); [|reflexivity].
  rewrite option_map_add_outside, m_eos.
  destruct (at_end e); reflexivity.
Qed.

Lemma contains_app (c : ascii) (a b : string) :
  contains c (a ++ b) = contains c a || contains c b.
Proof.
  induction a as [|d a IH]; [reflexivity|].
  cbn. now rewrite IH, orb_assoc.
Qed.

Lemma digits_no_open (w : string) :
  all_chars is_digit w = true -> contains "(" w = false.
Proof.
  induction w as [|c w IH]; [reflexivity|].
  cbn. intros H. apply andb_prop in H as [Hc Hw].
  now rewrite (digit_not_open c Hc), (IH Hw).
Qed.

Lemma at_end_no_open (e : string) :
  at_end e = true -> contains "(" e = false.
Proof.
  destruct e as [|c [|d e]]; cbn; try discriminate; [reflexivity|].
  intros H. apply Ascii.eqb_eq in H. now subst c.
Qed.

Lemma drop_while_app_all (p : ascii -> bool) (a b : string) :
  all_chars p a = true -> drop_while p (a ++ b) = drop_while p b.
Proof.
  induction a as [|c a IH]; [reflexivity|].
  cbn. intros H. apply andb_prop in H as [Hc Ha]. now rewrite Hc, IH.
Qed.

Lemma take_while_app_all (p : ascii -> bool) (a b : string) :
  all_chars p a = true -> take_while p (a ++ b) = a ++ take_while p b.
Proof.
  induction a as [|c a IH]; [reflexivity|].
  cbn. intros H. apply andb_prop in H as [Hc Ha]. now rewrite Hc, IH.
Qed.

Lemma string_drop_all (r : string) : string_drop (String.length r) r = "".
Proof. induction r as [|c r IH]; [reflexivity | exact IH]. Qed.

(** No match of the suffix pattern starts before a character that is not
    whitespace when an opening parenthesis follows later. *)
Lemma m_dup_suffix_inside (d : ascii) (y t : string) :
  is_space d = false -> contains "(" t = true ->
  m re_dup_suffix false (String d (y ++ t)) = None.
Proof.
  intros Hd Ht. rewrite m_dup_suffix. cbn [drop_while]. rewrite Hd.
  destruct (Ascii.eqb d "("); [|reflexivity].
  destruct (nonempty (take_while is_digit (y ++ t))); [|reflexivity].
  destruct (drop_while is_digit (y ++ t)) as [|d' e] eqn:E; [reflexivity|].
  destruct (Ascii.eqb d' ")") eqn:E'; [|reflexivity].
  destruct (at_end e) eqn:E''; [|reflexivity].
  exfalso.
  assert (C : contains "(" (y ++ t) = true).
  { rewrite contains_app, Ht. apply orb_true_r. }
  rewrite (take_drop_while is_digit (y ++ t)), E, contains_app in C.
  rewrite (digits_no_open _ (all_take_while is_digit (y ++ t))) in C.
  apply Ascii.eqb_eq in E'. subst d'. cbn in C.
  now rewrite (at_end_no_open e E'') in C.
Qed.

Lemma drop_while_word (x t : string) :
  ends_in_word x = true -> nonempty x = true ->
  exists d y, drop_while is_space (x ++ t) = String d (y ++ t)
              /\ is_space d = false.
Proof.
  induction x as [|c x IH]; [discriminate 2|].
  intros E _. cbn [append drop_while].
  destruct (is_space c) eqn:Hc.
  - destruct x as [|c' x'].
    + cbn in E. now rewrite Hc in E.
    + apply IH; [exact E | reflexivity].
  - now exists c, x.
Qed.

Lemma ends_in_word_tail (c : ascii) (x : string) :
  ends_in_word (String c x) = true -> ends_in_word x = true.
Proof. destruct x; [reflexivity | auto]. Qed.

(** [re.sub(r'\s*\(\d+\)$', '', ..)] takes the number in parentheses and
    the whitespace before it off a name. *)
Lemma sub_dup_suffix (name ws ds : string) :
  ends_in_word name = true ->
  all_chars is_space ws = true ->
  all_chars is_digit ds = true -> nonempty ds = true ->
  Re.sub re_dup_suffix "" (name ++ ws ++ String "(" (ds ++ ")")) = name.
Proof.
  intros Hn Hw Hd Nd.
  assert (T : contains "(" (ws ++ String "(" (ds ++ ")")) = true).
  { rewrite contains_app. cbn. apply orb_true_r. }
  induction name as [|c x IH].
  - cbn [append].
    destruct (ws ++ String "(" (ds ++ ")")) as [|c r] eqn:E;
      [discriminate T|].
    unfold Re.sub. cbn [sub_from]. rewrite m_dup_suffix, <- E.
    rewrite (drop_while_app_all is_space ws _ Hw).
    cbn [drop_while]. change (is_space "(") with false. cbv iota.
    change (Ascii.eqb "(" "(") with true. cbv iota.
    rewrite (take_while_app_all is_digit ds ")" Hd).
    rewrite (drop_while_app_all is_digit ds ")" Hd).
    cbn [take_while drop_while]. change (is_digit ")") with false. cbv iota.
    rewrite append_empty, Nd.
    change (Ascii.eqb ")" ")") with true. cbv iota. cbn [at_end append].
    rewrite sub_from_skip, Nat.sub_0_r, string_drop_all. reflexivity.
  - cbn [append]. unfold Re.sub. cbn [sub_from].
    destruct (drop_while_word (String c x) (ws ++ String "(" (ds ++ ")"))
                Hn eq_refl) as (d & y & E & Hd').
    assert (M : m re_dup_suffix false
                  (String c (x ++ ws ++ String "(" (ds ++ ")"))) = None).
    { rewrite m_dup_suffix.
      change (String c (x ++ ws ++ String "(" (ds ++ ")")))
        with (String c x ++ ws ++ String "(" (ds ++ ")")).
      rewrite E.
      pose proof (m_dup_suffix_inside d y _ Hd' T) as M.
      rewrite m_dup_suffix in M. cbn [drop_while] in M.
      rewrite Hd' in M. exact M. }
    rewrite M. f_equal. apply IH. exact (ends_in_word_tail _ _ Hn).
Qed.

(** X4: a folder that the system has renamed as a duplicate, "name (n)" with
    any whitespace before the parenthesis, gets the key of the name: the name
    without its blanks, in upper case; this is the key of the folder "name"
    itself when that name carries no such suffix.  The name must not end in
    whitespace. *)
Theorem folder_key_of_duplicate (name ws ds : string) :
  ends_in_word name = true ->
  all_chars is_space ws = true ->
  all_chars is_digit ds = true -> nonempty ds = true ->
  get_folder_key (name ++ ws ++ String "(" (ds ++ ")"))
  = upper (replace " " "" name)
  /\ (Re.sub re_dup_suffix "" name = name ->
      get_folder_key (name ++ ws ++ String "(" (ds ++ ")"))
      = get_folder_key name).
Proof.
  intros Hn Hw Hd Nd. unfold get_folder_key.
  rewrite (sub_dup_suffix name ws ds Hn Hw Hd Nd).
  split; [reflexivity|]. now intros ->.
Qed.

Lemma folder_key_of_duplicate_witness :
  get_folder_key ("WPJF 001-120" ++ " " ++ String "(" ("12" ++ ")"))
  = upper (replace " " "" "WPJF 001-120")
  /\ (Re.sub re_dup_suffix "" "WPJF 001-120" = "WPJF 001-120" ->
      get_folder_key ("WPJF 001-120" ++ " " ++ String "(" ("12" ++ ")"))
      = get_folder_key "WPJF 001-120").
Proof.
  apply (folder_key_of_duplicate "WPJF 001-120" " " "12"); reflexivity.
Defined.

(** ** The parts of a normalized SKU *)

Lemma rstrip_idem (v : string) : rstrip (rstrip v) = rstrip v.
Proof.
  induction v as [|c r IH]; [reflexivity|].
  cbn [rstrip]. destruct (rstrip r) as [|d r'] eqn:E.
  - destruct (is_space c) eqn:Hc; [reflexivity|]. cbn. now rewrite Hc.
  - cbn [rstrip] in *. now rewrite IH.
Qed.

Lemma strip_idem (v : string) : strip (strip v) = strip v.
Proof.
  unfold strip. destruct (lstrip_starts v) as [-> | (c & r & -> & Hc)];
    [reflexivity|].
  destruct (rstrip_word c r Hc) as (r' & E).
  rewrite E, (lstrip_word c r' Hc), <- E. apply rstrip_idem.
Qed.

Lemma tidy_not_blank (v : string) :
  tidy v = true -> nonempty v = true -> nonempty (strip v) = true.
Proof.
  intros T N.
  assert (B : blank v = false).
  { rewrite blank_all_spaces. destruct v as [|c v]; [discriminate N|].
    cbn [all_chars]. destruct (is_space c) eqn:Hc; [|reflexivity].
    destruct (tidy_space _ _ T Hc) as [_ W].
    destruct v as [|d v]; [discriminate W|].
    cbn in W. apply negb_true_iff in W. cbn. now rewrite W. }
  unfold blank in B. now apply negb_false_iff in B.
Qed.

Lemma no_space_unspaced (b : string) :
  all_chars no_space b = true -> replace " " "" b = b.
Proof.
  induction b as [|c b IH]; [reflexivity|].
  cbn. intros H. apply andb_prop in H as [Hc Hb].
  destruct (Ascii.eqb c " ") eqn:E.
  - apply Ascii.eqb_eq in E. subst c. discriminate Hc.
  - now rewrite (IH Hb).
Qed.

Lemma prefix_app (p z : string) : String.prefix p (p ++ z) = true.
Proof.
  induction p as [|c p IH]; [now destruct z|].
  cbn. destruct (ascii_dec c c) as [_|N]; [exact IH | now destruct N].
Qed.

Lemma prefix_refl (p : string) : String.prefix p p = true.
Proof. rewrite <- (append_empty p) at 2. apply prefix_app. Qed.

Lemma code_head_prefix (t p n r3 : string) :
  code_head t = Some (p, n, r3) -> startswith (p ++ n) "WP" = true.
Proof.
  unfold code_head.
  destruct t as [|c0 [|c1 r]]; try discriminate.
  destruct (Ascii.eqb c0 "W" && Ascii.eqb c1 "P") eqn:E; [|discriminate].
  apply andb_prop in E as [E0 E1].
  apply Ascii.eqb_eq in E0, E1. subst c0 c1.
  destruct (_ && _); [|discriminate].
  intros H. injection H as <- _ _. unfold startswith.
  apply (prefix_app "WP" (take_while is_AZ r ++ n)).
Qed.

(** The three components of [normalize_sku] on a tidy text. *)
Lemma normalized_parts (t : string) :
  tidy t = true ->
  (exists c r, t = String c r /\ is_space c = false) ->
  exists k b v,
    normalized_of_shape t = (Some k, Some b, v)
    /\ nonempty b = true
    /\ all_chars no_space b = true
    /\ match v with
       | None => k = b
       | Some x =>
           k = b ++ "-" ++ x /\ nonempty x = true /\ strip x = x
           /\ startswith b "WP" = true
       end.
Proof.
  intros T (c0 & r0 & Et & Hc0). pose proof (tidy_plain t T) as A.
  unfold normalized_of_shape.
  pose proof (shape_of_cases t) as C.
  destruct (shape_of t) as [p n x | p n x | p n |].
  - destruct C as [C N].
    destruct (code_head_parts t C) as (Hp & Hn & Np & _).
    pose proof (code_head_tidy t T C) as T3. apply tidy_tail in T3.
    eexists _, _, _. split; [reflexivity|]. split; [|split].
    + now apply nonempty_app.
    + rewrite all_chars_app.
      now rewrite (all_chars_weaken is_AZ no_space p AZ_no_space Hp),
        (all_chars_weaken is_digit no_space n digit_no_space Hn).
    + split; [reflexivity|]. split; [now apply tidy_not_blank|].
      split; [apply strip_idem | exact (code_head_prefix t C)].
  - destruct C as [C N].
    destruct (code_head_parts t C) as (Hp & Hn & Np & _).
    pose proof (code_head_tidy t T C) as T3. apply tidy_tail in T3.
    eexists _, _, _. split; [reflexivity|]. split; [|split].
    + now apply nonempty_app.
    + rewrite all_chars_app.
      now rewrite (all_chars_weaken is_AZ no_space p AZ_no_space Hp),
        (all_chars_weaken is_digit no_space n digit_no_space Hn).
    + split; [reflexivity|]. split; [now apply tidy_not_blank|].
      split; [apply strip_idem | exact (code_head_prefix t C)].
  - destruct (code_head_parts t C) as (Hp & Hn & Np & _).
    eexists _, _, _. split; [reflexivity|]. split; [|split].
    + now apply nonempty_app.
    + rewrite all_chars_app.
      now rewrite (all_chars_weaken is_AZ no_space p AZ_no_space Hp),
        (all_chars_weaken is_digit no_space n digit_no_space Hn).
    + reflexivity.
  - eexists _, _, _. split; [reflexivity|]. split; [|split].
    + rewrite Et. now apply unspaced_starts.
    + now apply plain_unspaced.
    + reflexivity.
Qed.

Lemma normalize_sku_parts (s : string) :
  blank s = false ->
  exists k b v,
    normalize_sku (VStr s) = (Some k, Some b, v)
    /\ nonempty b = true
    /\ all_chars no_space b = true
    /\ match v with
       | None => k = b
       | Some x =>
           k = b ++ "-" ++ x /\ nonempty x = true /\ strip x = x
           /\ startswith b "WP" = true
       end.
Proof.
  intros B. rewrite (normalize_sku_by_shape s B).
  apply normalized_parts; [apply tidy_prepared|].
  rewrite prepare_canon. exact (canon_fresh_starts s B).
Qed.

(** X5: on every text that is not blank [normalize_sku] returns a base that
    is not empty and has no whitespace, and a normalized key that is the base
    itself when there is no variation and base, dash and variation otherwise;
    a variation, when there is one, is not empty and is trimmed, and the base
    then starts with WP.  On a blank text and on no value all three
    components are absent. *)
Theorem normalize_sku_components :
  normalize_sku VNone = (None, None, None)
  /\ (forall s, blank s = true -> normalize_sku (VStr s) = (None, None, None))
  /\ (forall s,
         blank s = false ->
         exists k b v,
           normalize_sku (VStr s) = (Some k, Some b, v)
           /\ nonempty b = true
           /\ all_chars no_space b = true
           /\ match v with
              | None => k = b
              | Some x =>
                  k = b ++ "-" ++ x /\ nonempty x = true /\ strip x = x
                  /\ startswith b "WP" = true
              end).
Proof.
  split; [reflexivity|]. split; [|exact normalize_sku_parts].
  intros s B. unfold normalize_sku. cbn [str]. rewrite B.
  now rewrite orb_true_r.
Qed.

Lemma normalize_sku_components_witness :
  normalize_sku (VStr "  ") = (None, None, None)
  /\ exists k b v,
       normalize_sku (VStr "WPGR 001   -226") = (Some k, Some b, v)
       /\ nonempty b = true
       /\ all_chars no_space b = true
       /\ match v with
          | None => k = b
          | Some x =>
              k = b ++ "-" ++ x /\ nonempty x = true /\ strip x = x
              /\ startswith b "WP" = true
          end.
Proof.
  split.
  - apply (proj1 (proj2 normalize_sku_components) "  "). reflexivity.
  - apply (proj2 (proj2 normalize_sku_components) "WPGR 001   -226").
    reflexivity.
Defined.

(** ** The resolver and the base of the SKU *)

Lemma first_with_prefix_sound (p : string) (fm : folder_map)
    (info : folder_info) :
  first_with_prefix p fm = Some info ->
  exists key, In (key, info) fm /\ startswith key p = true.
Proof.
  induction fm as [|[k i] fm IH]; cbn; [discriminate|].
  destruct (startswith k p) eqn:E.
  - intros H. injection H as <-. exists k. split; [now left | exact E].
  - intros H. destruct (IH H) as (key & Hin & Hp).
    exists key. split; [now right | exact Hp].
Qed.

Lemma first_with_prefix_complete (p : string) (fm : folder_map)
    (key : string) (info : folder_info) :
  In (key, info) fm -> startswith key p = true ->
  first_with_prefix p fm <> None.
Proof.
  induction fm as [|[k i] fm IH]; cbn; [intros []|].
  intros [E | H] Hp.
  - injection E as -> ->. now rewrite Hp.
  - destruct (startswith k p); [discriminate | now apply IH].
Qed.

Lemma find_images_resolve (raw_sku : value) (fm : folder_map) :
  find_images_for_sku raw_sku fm = resolve raw_sku fm.
Proof.
  unfold find_images_for_sku, resolve, resolver_stages.
  destruct (negb (truthy raw_sku)); [reflexivity|].
  destruct (normalize_sku raw_sku) as [[normalized base_sku] variation].
  destruct (negb (truthy_opt normalized)); [reflexivity|].
  cbn [first_match].
  destruct (dict_get fm _) as [i1|]; [reflexivity|].
  destruct (if truthy_opt variation then _ else _) as [i2|]; [reflexivity|].
  destruct (if truthy_opt base_sku then dict_get _ _ else _) as [i3|];
    [reflexivity|].
  destruct (if truthy_opt base_sku then first_with_prefix _ _ else _);
    reflexivity.
Qed.

(** The stages of the resolver on a text that is not blank. *)
Lemma resolver_stages_of_text (s : string) (fm : folder_map)
    (k b : string) (v : option string) :
  blank s = false ->
  normalize_sku (VStr s) = (Some k, Some b, v) ->
  nonempty b = true ->
  resolver_stages (VStr s) fm
  = [dict_get fm (upper (replace " " "" k));
     (if truthy_opt v
      then dict_get fm (upper (b ++ "-" ++ replace " " "" (fmt v)))
      else None);
     dict_get fm (upper b);
     first_with_prefix (upper b) fm].
Proof.
  intros B E N. unfold resolver_stages. cbn [truthy].
  assert (nonempty s = true) as ->.
  { destruct s; [discriminate B | reflexivity]. }
  cbn [negb]. rewrite E. cbn [truthy_opt fmt].
  pose proof E as E'. rewrite (normalize_sku_by_shape s B) in E'.
  rewrite (normalized_key_nonempty s B E'), N. reflexivity.
Qed.

(** X6: for a raw SKU text that is not blank, [find_images_for_sku] returns
    the images of a folder whose key starts with the base of the SKU in upper
    case whenever the map has such a folder, and the empty list when it has
    none; a blank text, no value and an empty map give the empty list. *)
Theorem find_images_by_base :
  (forall fm, find_images_for_sku VNone fm = [])
  /\ (forall s fm, blank s = true -> find_images_for_sku (VStr s) fm = [])
  /\ (forall raw_sku, find_images_for_sku raw_sku [] = [])
  /\ (forall s fm,
         blank s = false ->
         exists b,
           snd (fst (normalize_sku (VStr s))) = Some b
           /\ ((forall key info, In (key, info) fm ->
                                 startswith key (upper b) = false) ->
               find_images_for_sku (VStr s) fm = [])
           /\ (forall key0 info0,
                  In (key0, info0) fm -> startswith key0 (upper b) = true ->
                  exists key info,
                    In (key, info) fm /\ startswith key (upper b) = true
                    /\ find_images_for_sku (VStr s) fm = Folder.images info)).
Proof.
  split; [reflexivity|]. split; [|split].
  - intros s fm B. unfold find_images_for_sku, normalize_sku.
    cbn [truthy str]. rewrite B. destruct (negb (nonempty s)); [reflexivity|].
    now rewrite orb_true_r.
  - intros raw_sku. rewrite find_images_resolve.
    unfold resolve, resolver_stages.
    destruct (negb (truthy raw_sku)); [reflexivity|].
    destruct (normalize_sku raw_sku) as [[normalized base_sku] variation].
    destruct (negb (truthy_opt normalized)); [reflexivity|].
    cbn. destruct (truthy_opt variation), (truthy_opt base_sku); reflexivity.
  - intros s fm B.
    destruct (normalize_sku_parts s B) as (k & b & v & E & Nb & Sb & P).
    exists b. split; [now rewrite E|].
    assert (K : exists z, replace " " "" k = b ++ z).
    { destruct v as [x|].
      - destruct P as (-> & _). rewrite unspaced_app, (no_space_unspaced b Sb).
        eauto.
      - subst k. exists "".
        now rewrite (no_space_unspaced b Sb), append_empty. }
    destruct K as (z & K).
    assert (S : forall info,
               first_match (resolver_stages (VStr s) fm) = Some info ->
               exists key, In (key, info) fm
                           /\ startswith key (upper b) = true).
    { intros info. rewrite (resolver_stages_of_text s fm B E Nb).
      cbn [first_match].
      destruct (dict_get fm (upper (replace " " "" k))) as [i1|] eqn:G1.
      { intros H. injection H as ->. apply dict_get_In in G1.
        eexists. split; [exact G1|].
        rewrite K, upper_app. apply prefix_app. }
      destruct (if truthy_opt v then _ else _) as [i2|] eqn:G2.
      { intros H. injection H as ->.
        destruct (truthy_opt v); [|discriminate G2].
        apply dict_get_In in G2.
        eexists. split; [exact G2|].
        rewrite upper_app. apply prefix_app. }
      destruct (dict_get fm (upper b)) as [i3|] eqn:G3.
      { intros H. injection H as ->. apply dict_get_In in G3.
        eexists. split; [exact G3 | apply prefix_refl]. }
      destruct (first_with_prefix (upper b) fm) as [i4|] eqn:G4;
        [|discriminate].
      intros H. injection H as ->. now apply first_with_prefix_sound. }
    split.
    + intros None_. rewrite find_images_resolve. unfold resolve.
      destruct (first_match (resolver_stages (VStr s) fm)) as [info|] eqn:F;
        [|reflexivity].
      destruct (S info eq_refl) as (key & Hin & Hp).
      now rewrite (None_ key info Hin) in Hp.
    + intros key0 info0 Hin0 Hp0.
      rewrite find_images_resolve. unfold resolve.
      destruct (first_match (resolver_stages (VStr s) fm)) as [info|] eqn:F.
      * destruct (S info eq_refl) as (key & Hin & Hp). now exists key, info.
      * exfalso. rewrite (resolver_stages_of_text s fm B E Nb) in F.
        cbn [first_match] in F.
        destruct (dict_get fm (upper (replace " " "" k))); [discriminate|].
        destruct (if truthy_opt v then _ else _); [discriminate|].
        destruct (dict_get fm (upper b)); [discriminate|].
        destruct (first_with_prefix (upper b) fm) eqn:G4; [discriminate|].
        exact (first_with_prefix_complete _ _ _ _ Hin0 Hp0 G4).
Qed.

Lemma find_images_by_base_witness :
  find_images_for_sku (VStr " 	") [] = []
  /\ exists b,
       snd (fst (normalize_sku (VStr "wpjf 001-999"))) = Some b
       /\ ((forall key info,
               In (key, info)
                 (scan_image_folders "./img"
                    (Some [Folder "WPGR002" ["g.png"]])) ->
               startswith key (upper b) = false) ->
           find_images_for_sku (VStr "wpjf 001-999")
             (scan_image_folders "./img" (Some [Folder "WPGR002" ["g.png"]]))
           = [])
       /\ (forall key0 info0,
              In (key0, info0)
                (scan_image_folders "./img"
                   (Some [Folder "WPGR002" ["g.png"]])) ->
              startswith key0 (upper b) = true ->
              exists key info,
                In (key, info)
                  (scan_image_folders "./img"
                     (Some [Folder "WPGR002" ["g.png"]]))
                /\ startswith key (upper b) = true
                /\ find_images_for_sku (VStr "wpjf 001-999")
                     (scan_image_folders "./img"
                        (Some [Folder "WPGR002" ["g.png"]]))
                   = Folder.images info).
Proof.
  split.
  - apply (proj1 (proj2 find_images_by_base) " 	" []). reflexivity.
  - apply (proj2 (proj2 (proj2 find_images_by_base)) "wpjf 001-999"
             (scan_image_folders "./img" (Some [Folder "WPGR002" ["g.png"]]))).
    reflexivity.
Defined.

(** ** The grouping of the rows *)

Lemma dict_append_fst (V : Type) (d : list (string * list V)) (k : string)
    (v : V) :
  map fst (dict_append d k v)
  = if existsb (String.eqb k) (map fst d) then map fst d
    else (map fst d ++ [k])%list.
Proof.
  induction d as [|[k1 v1] d IH]; cbn; [reflexivity|].
  rewrite (String.eqb_sym k k1).
  destruct (String.eqb k1 k) eqn:E; cbn; [reflexivity|].
  rewrite IH. now destruct (existsb _ _).
Qed.

Lemma dict_append_NoDup (V : Type) (d : list (string * list V)) (k : string)
    (v : V) :
  NoDup (map fst d) -> NoDup (map fst (dict_append d k v)).
Proof.
  intros H. rewrite dict_append_fst.
  destruct (existsb (String.eqb k) (map fst d)) eqn:E; [assumption|].
  apply NoDup_app; [assumption | repeat constructor; intros [] |].
  intros x Hx [Ex | []]. subst x.
  assert (existsb (String.eqb k) (map fst d) = true).
  { apply existsb_exists. exists k. split; [assumption|].
    apply String.eqb_refl. }
  congruence.
Qed.

Lemma dict_append_In (V : Type) (d : list (string * list V)) (k : string)
    (v : V) (k' : string) (vs' : list V) :
  In (k', vs') (dict_append d k v) ->
  In (k', vs') d
  \/ (k' = k /\ exists vs0, vs' = (vs0 ++ [v])%list
                            /\ (In (k, vs0) d \/ vs0 = [])).
Proof.
  induction d as [|[k1 v1] d IH]; cbn.
  - intros [E | []]. injection E as <- <-. right. split; [reflexivity|].
    exists []. split; [reflexivity | now right].
  - destruct (String.eqb k1 k) eqn:Ek.
    + apply String.eqb_eq in Ek. subst k1.
      intros [E | H].
      * injection E as <- <-. right. split; [reflexivity|].
        exists v1. split; [reflexivity | left; now left].
      * left. now right.
    + intros [E | H]; [left; now left|].
      destruct (IH H) as [? | (-> & vs0 & -> & [? | ->])].
      * left. now right.
      * right. split; [reflexivity|]. exists vs0.
        split; [reflexivity | left; now right].
      * right. split; [reflexivity|]. exists [].
        split; [reflexivity | now right].
Qed.

Lemma dict_append_keeps (V : Type) (d : list (string * list V)) (k : string)
    (v : V) (k' : string) (vs0 : list V) (x : V) :
  In (k', vs0) d -> In x vs0 ->
  exists vs', In (k', vs') (dict_append d k v) /\ In x vs'.
Proof.
  induction d as [|[k1 v1] d IH]; cbn; [intros []|].
  intros [E | H] Hx.
  - injection E as -> ->. destruct (String.eqb k' k).
    + exists (vs0 ++ [v])%list. split; [now left|].
      apply in_or_app. now left.
    + exists vs0. split; [now left | exact Hx].
  - destruct (String.eqb k1 k).
    + exists vs0. split; [now right | exact Hx].
    + destruct (IH H Hx) as (vs' & H1 & H2).
      exists vs'. split; [now right | exact H2].
Qed.

Lemma dict_append_new (V : Type) (d : list (string * list V)) (k : string)
    (v : V) :
  exists vs', In (k, vs') (dict_append d k v) /\ In v vs'.
Proof.
  induction d as [|[k1 v1] d (vs' & H1 & H2)]; cbn.
  - exists [v]. split; now left.
  - destruct (String.eqb k1 k) eqn:E.
    + apply String.eqb_eq in E. subst k1.
      exists (v1 ++ [v])%list. split; [now left|].
      apply in_or_app. right. now left.
    + exists vs'. split; [now right | exact H2].
Qed.

Lemma increasing_app (l : list nat) (n : nat) :
  increasing l = true -> (forall x, In x l -> x < n) ->
  increasing (l ++ [n]) = true.
Proof.
  induction l as [|x l IH]; [reflexivity|].
  intros H B. destruct l as [|y l].
  - cbn. rewrite andb_true_r. apply Nat.ltb_lt. apply B. now left.
  - cbn [increasing app] in *. apply andb_prop in H as [H1 H2].
    rewrite H1. cbn [andb]. apply IH; [exact H2|].
    intros z Hz. apply B. now right.
Qed.

Section Grouping.

Variable clean_price : value -> option string.

(** One turn of the grouping, by the key of the row. *)
Lemma group_row_result (df : list (list value))
    (groups groups' : list (string * list variant)) (idx : nat) :
  group_row clean_price df groups idx = Some groups' ->
  match row_base df idx with
  | None => groups' = groups
  | Some k =>
      exists v, groups' = dict_append groups k v
                /\ Variant.row_idx v = idx
                /\ variant_of_row clean_price df k v
  end.
Proof.
  unfold group_row, variant_of_row, row_variant, iloc.
  unfold row_base at 1.
  destruct (nth_error df idx) as [row|] eqn:Er; [|discriminate].
  destruct (nth_error row XLSX_COLUMNS.sku) as [raw|] eqn:Es; [|discriminate].
  destruct (isna raw) eqn:Na; [now intros H; injection H as <-|].
  destruct (parse_sku raw) as [base var] eqn:Ep. cbn [fst].
  destruct base as [b|]; cbn [truthy_opt negb];
    [|now intros H; injection H as <-].
  destruct (nonempty b) eqn:Nb; cbn [negb];
    [|now intros H; injection H as <-].
  destruct (nth_error row XLSX_COLUMNS.color) eqn:E1; [|discriminate].
  destruct (nth_error row XLSX_COLUMNS.price) eqn:E2; [|discriminate].
  destruct (nth_error row XLSX_COLUMNS.name) eqn:E3; [|discriminate].
  destruct (nth_error row XLSX_COLUMNS.famille) eqn:E4; [|discriminate].
  destruct (nth_error row XLSX_COLUMNS.tech_description) eqn:E5;
    [|discriminate].
  destruct (nth_error row XLSX_COLUMNS.description) eqn:E6; [|discriminate].
  intros H. injection H as <-. cbn [fmt].
  eexists. split; [reflexivity|]. cbn [Variant.row_idx Variant.row].
  split; [reflexivity|]. split.
  { unfold row_base. rewrite Er, Es, Na, Ep. cbn [fst]. now rewrite Nb. }
  split; [exact Er|].
  rewrite ?Es, Ep, E1, E2, E3, E4, E5, E6. reflexivity.
Qed.

Lemma group_row_total (df : list (list value))
    (groups : list (string * list variant)) (idx : nat) (row : list value) :
  nth_error df idx = Some row -> 9 <= List.length row ->
  exists groups', group_row clean_price df groups idx = Some groups'.
Proof.
  intros Er L. unfold group_row, iloc. rewrite Er.
  destruct (nine_cells row L)
    as (c0 & c1 & c2 & c3 & c4 & c5 & c6 & c7 & c8 & rest & ->).
  cbn [nth_error XLSX_COLUMNS.sku XLSX_COLUMNS.color XLSX_COLUMNS.price
       XLSX_COLUMNS.name XLSX_COLUMNS.famille XLSX_COLUMNS.tech_description
       XLSX_COLUMNS.description].
  destruct (isna c2); [eauto|].
  destruct (parse_sku c2) as [base var].
  destruct (negb (truthy_opt base)); eauto.
Qed.

Lemma grouped_step (df : list (list value)) (lo a : nat)
    (g g1 : list (string * list variant)) :
  grouped clean_price df lo a g -> lo <= a ->
  group_row clean_price df g a = Some g1 ->
  grouped clean_price df lo (S a) g1.
Proof.
  intros (ND & Snd & Cpl) La H.
  apply group_row_result in H.
  destruct (row_base df a) as [k|] eqn:Eb.
  - destruct H as (v & -> & Iv & Vv).
    split; [now apply dict_append_NoDup|]. split.
    + intros k' vs' Hin.
      apply dict_append_In in Hin
        as [Hin | (-> & vs0 & -> & [Hin | ->])].
      * destruct (Snd _ _ Hin) as (N & I & B).
        split; [exact N|]. split; [exact I|].
        intros x Hx. destruct (B x Hx) as [R W]. split; [lia | exact W].
      * destruct (Snd _ _ Hin) as (N & I & B).
        split; [now destruct vs0|]. split.
        -- rewrite map_app. cbn [map]. apply increasing_app; [exact I|].
           intros x Hx. apply in_map_iff in Hx as (y & <- & Hy).
           destruct (B y Hy) as [R _]. lia.
        -- intros x Hx. apply in_app_or in Hx as [Hx | [<- | []]].
           ++ destruct (B x Hx) as [R W]. split; [lia | exact W].
           ++ split; [lia | exact Vv].
      * split; [discriminate|]. split; [reflexivity|].
        intros x [<- | []]. split; [lia | exact Vv].
    + intros idx k' R Hb.
      destruct (Nat.eq_dec idx a) as [-> | Ne].
      * rewrite Eb in Hb. injection Hb as <-.
        destruct (dict_append_new g k v) as (vs' & H1 & H2).
        now exists vs', v.
      * destruct (Cpl idx k' ltac:(lia) Hb) as (vs & x & H1 & H2 & H3).
        destruct (dict_append_keeps g k v _ _ _ H1 H2) as (vs' & H4 & H5).
        now exists vs', x.
  - subst g1. split; [exact ND|]. split.
    + intros k' vs' Hin. destruct (Snd _ _ Hin) as (N & I & B).
      split; [exact N|]. split; [exact I|].
      intros x Hx. destruct (B x Hx) as [R W]. split; [lia | exact W].
    + intros idx k' R Hb.
      destruct (Nat.eq_dec idx a) as [-> | Ne]; [congruence|].
      apply Cpl; [lia | exact Hb].
Qed.

Lemma group_fold_none (df : list (list value)) (l : list nat) :
  fold_left
    (fun acc idx => groups <- acc ;; group_row clean_price df groups idx)
    l None = None.
Proof. induction l as [|x l IH]; [reflexivity | exact IH]. Qed.

Lemma grouped_fold (df : list (list value)) (lo : nat) (n a : nat)
    (g res : list (string * list variant)) :
  grouped clean_price df lo a g -> lo <= a ->
  fold_left
    (fun acc idx => groups <- acc ;; group_row clean_price df groups idx)
    (seq a n) (Some g) = Some res ->
  grouped clean_price df lo (a + n) res.
Proof.
  revert a g. induction n as [|n IH]; intros a g G La H.
  - cbn in H. injection H as <-. now rewrite Nat.add_0_r.
  - cbn [seq fold_left] in H.
    destruct (group_row clean_price df g a) as [g1|] eqn:E.
    + replace (a + S n) with (S a + n) by lia.
      apply (IH (S a) g1); [exact (grouped_step G La E) | lia | exact H].
    + rewrite group_fold_none in H. discriminate H.
Qed.

Lemma group_fold_total (df : list (list value)) (lo hi : nat) (n a : nat)
    (g : list (string * list variant)) :
  rows_wide df lo hi -> lo <= a -> a + n <= hi ->
  exists res,
    fold_left
      (fun acc idx => groups <- acc ;; group_row clean_price df groups idx)
      (seq a n) (Some g) = Some res.
Proof.
  intros W. revert a g. induction n as [|n IH]; intros a g La Lh.
  - now exists g.
  - cbn [seq fold_left].
    destruct (W a ltac:(lia)) as (row & Er & Lr).
    destruct (group_row_total df g a Er Lr) as (g1 & ->).
    apply IH; lia.
Qed.

(** The grouping of a range of rows. *)
Lemma group_rows_grouped (df : list (list value)) (start_row end_row : nat)
    (groups : list (string * list variant)) :
  group_rows_by_base_sku clean_price df start_row end_row = Some groups ->
  grouped clean_price df start_row end_row groups.
Proof.
  unfold group_rows_by_base_sku. intros H.
  destruct (Nat.le_gt_cases start_row end_row) as [L | L].
  - assert (G0 : grouped clean_price df start_row start_row []).
    { split; [constructor|].
      split; [intros k vs [] | intros idx k R; lia]. }
    pose proof (@grouped_fold df start_row (end_row - start_row) start_row []
                  groups G0 (le_n _) H) as G.
    replace (start_row + (end_row - start_row)) with end_row in G by lia.
    exact G.
  - replace (end_row - start_row) with 0 in H by lia.
    cbn in H. injection H as <-.
    split; [constructor|]. split; [intros k vs [] | intros idx k R; lia].
Qed.

Lemma group_rows_total (df : list (list value)) (start_row end_row : nat) :
  rows_wide df start_row end_row ->
  exists groups,
    group_rows_by_base_sku clean_price df start_row end_row = Some groups.
Proof.
  intros W. unfold group_rows_by_base_sku.
  destruct (Nat.le_gt_cases start_row end_row) as [L | L].
  - apply (@group_fold_total df start_row end_row (end_row - start_row)
             start_row []); [exact W | lia | lia].
  - replace (end_row - start_row) with 0 by lia. now exists [].
Qed.

End Grouping.

(** X7: when [group_rows_by_base_sku] returns, its groups have pairwise
    different keys and none is empty; the variants of a group are in the
    order of their rows, and each is the variant built from a row of the
    range whose SKU cell is not empty and parses to the key of the group
    (the raw SKU, variation, colour, sizes, price, name, famille and
    descriptions of that row); and every row of the range with such a SKU
    cell is in the group of its base, so rows without SKU are the only ones
    left out.  It returns (no [IndexError]) when the rows of the range exist
    and have nine cells at least. *)
Theorem group_rows_partition (clean_price : value -> option string)
    (df : list (list value)) (start_row end_row : nat) :
  (forall groups,
      group_rows_by_base_sku clean_price df start_row end_row = Some groups ->
      NoDup (map fst groups)
      /\ (forall k vs, In (k, vs) groups ->
            vs <> []
            /\ increasing (map Variant.row_idx vs) = true
            /\ forall v, In v vs ->
                 start_row <= Variant.row_idx v < end_row
                 /\ variant_of_row clean_price df k v)
      /\ (forall idx k,
            start_row <= idx < end_row -> row_base df idx = Some k ->
            exists vs v, In (k, vs) groups /\ In v vs
                         /\ Variant.row_idx v = idx))
  /\ (rows_wide df start_row end_row ->
      exists groups,
        group_rows_by_base_sku clean_price df start_row end_row
        = Some groups).
Proof.
  split.
  - intros groups H. exact (group_rows_grouped _ _ _ _ H).
  - apply group_rows_total.
Qed.

Lemma group_rows_partition_witness :
  exists groups,
    group_rows_by_base_sku no_price
      [sku_row "WPJF 001-127"; [VNaN; VNaN; VNaN]; sku_row "WPJF 001 -120"]
      0 3 = Some groups
    /\ grouped no_price
         [sku_row "WPJF 001-127"; [VNaN; VNaN; VNaN]; sku_row "WPJF 001 -120"]
         0 3 groups.
Proof.
  eexists. split; [reflexivity|].
  apply (proj1 (group_rows_partition no_price
                  [sku_row "WPJF 001-127"; [VNaN; VNaN; VNaN];
                   sku_row "WPJF 001 -120"] 0 3)).
  reflexivity.
Defined.

(** ** A run over the groups *)



Section Running.

Variable clean_price : value -> option string.
Variable price_lt : string -> string -> bool.
Variable get_product_by_sku : string -> option product.
Variable push :
  string -> list variant -> string -> list string -> list string ->
  option string -> list string -> list nat -> option product ->
  string + (nat * nat).
Variable dry_run : bool.

(** What one group leaves in the buckets. *)
Lemma create_outcome (base_sku : string) (variants : list variant)
    (fm : folder_map) (st : sync_state) (ok : bool) (st' : sync_state) :
  Whole.create_product_from_group price_lt get_product_by_sku push dry_run
    base_sku variants fm st = Some (ok, st') ->
  (ok = true /\ exists c, st' = create st c /\ created_sku c = base_sku)
  \/ (ok = false
      /\ exists reason, st' = skip st base_sku reason /\ In reason skip_reasons)
  \/ (ok = false /\ dry_run = false
      /\ exists error, st' = fail st base_sku error).
Proof.
  unfold Whole.create_product_from_group.
  set (existing := find_existing get_product_by_sku base_sku variants).
  destruct (match existing with
            | Some p => _
            | None => false
            end).
  { intros H. injection H as <- <-. right. left. split; [reflexivity|].
    exists "complete". split; [reflexivity | now left]. }
  destruct (iloc variants 0) as [first|]; [|discriminate].
  destruct (negb (nonempty _)).
  { intros H. injection H as <- <-. right. left. split; [reflexivity|].
    exists "no_name". split; [reflexivity | right; now left]. }
  destruct (collect_sizes variants) as [|x sizes].
  { intros H. injection H as <- <-. right. left. split; [reflexivity|].
    exists "no_sizes". split; [reflexivity | right; right; now left]. }
  destruct (get_categories_for_famille _) as [categories|]; [|discriminate].
  destruct dry_run.
  { intros H. injection H as <- <-. left. split; [reflexivity|].
    eexists. split; reflexivity. }
  destruct (push _ _ _ _ _ _ _ _ _) as [error|[id variations]].
  - intros H. injection H as <- <-. right. right.
    repeat split. now exists error.
  - intros H. injection H as <- <-. left. split; [reflexivity|].
    eexists. split; reflexivity.
Qed.


Ltac conjs := repeat match goal with |- _ /\ _ => split end.

Lemma process_accounting (groups : list (string * list variant))
    (fm : folder_map) (limit : option nat) :
  forall (p s : nat) (st : sync_state) (p' s' : nat) (st' : sync_state),
  Whole.process_groups price_lt get_product_by_sku push dry_run
    groups fm limit p s st = Some (p', s', st') ->
  accounted dry_run groups p s st p' s' st'.
Proof.
  unfold accounted.
  induction groups as [|[base_sku variants] rest IH]; intros p s st p' s' st'.
  - cbn. intros H. injection H as <- <- <-.
    exists [], [], []. rewrite !app_nil_r. cbn.
    conjs; try lia; try tauto; intros ? [].
  - cbn [Whole.process_groups].
    destruct (match limit with
              | Some l => negb (l =? 0) && (l <=? p)
              | None => false
              end).
    { intros H. injection H as <- <- <-.
      exists [], [], []. rewrite !app_nil_r. cbn.
      conjs; try lia; try tauto; intros ? []. }
    destruct (Whole.create_product_from_group _ _ _ _ _ _ _ _)
      as [[ok st1]|] eqn:E; [|discriminate].
    cbn [fst snd]. intros H.
    destruct (IH _ _ _ _ _ _ H)
      as (cs & sk & fl & H1 & H2 & H3 & H4 & H5 & H6 & H7 & H8 & H9).
    apply create_outcome in E.
    destruct E as [(-> & c & -> & Ec)
                  | [(-> & reason & -> & Hr) | (-> & Hd & error & ->)]];
      cbn [create skip fail created_products skipped_products failed_products]
        in H1, H2, H3.
    + exists (c :: cs), sk, fl. rewrite <- app_assoc in H1.
      cbn [List.length map app].
      conjs; try assumption; try lia.
      intros sku Hs. specialize (H7 sku). cbn [map app In fst] in Hs |- *.
      rewrite ?in_app_iff in H7. rewrite ?in_app_iff in Hs. cbn [In] in Hs.
      rewrite ?in_app_iff in Hs. intuition congruence.
    + exists cs, ((base_sku, reason) :: sk), fl. rewrite <- app_assoc in H2.
      cbn [List.length map app].
      conjs; try assumption; try lia.
      * intros sku Hs. specialize (H7 sku). cbn [map app In fst] in Hs |- *.
        rewrite ?in_app_iff in H7. rewrite ?in_app_iff in Hs. cbn [In] in Hs.
        rewrite ?in_app_iff in Hs. intuition congruence.
      * intros e [<- | He]; [exact Hr | now apply H8].
    + exists cs, sk, ((base_sku, error) :: fl). rewrite <- app_assoc in H3.
      cbn [List.length map app].
      conjs; try assumption; try lia.
      * intros sku Hs. specialize (H7 sku). cbn [map app In fst] in Hs |- *.
        rewrite ?in_app_iff in H7. rewrite ?in_app_iff in Hs. cbn [In] in Hs.
        rewrite ?in_app_iff in Hs. intuition congruence.
      * intros D. congruence.
Qed.

Lemma process_no_limit (groups : list (string * list variant))
    (fm : folder_map) :
  forall (p s : nat) (st : sync_state),
  Whole.process_groups price_lt get_product_by_sku push dry_run
    groups fm (Some 0) p s st
  = Whole.process_groups price_lt get_product_by_sku push dry_run
      groups fm None p s st.
Proof.
  induction groups as [|[base_sku variants] rest IH]; intros p s st;
    [reflexivity|].
  cbn [Whole.process_groups Nat.eqb negb andb].
  destruct (Whole.create_product_from_group _ _ _ _ _ _ _ _);
    [apply IH | reflexivity].
Qed.

Lemma process_limit (groups : list (string * list variant))
    (fm : folder_map) (l : nat) :
  0 < l ->
  forall (p s : nat) (st : sync_state), p <= l ->
  Whole.process_groups price_lt get_product_by_sku push dry_run
    groups fm (Some l) p s st
  = Whole.process_groups price_lt get_product_by_sku push dry_run
      (firstn (l - p) groups) fm None p s st.
Proof.
  intros L.
  induction groups as [|[base_sku variants] rest IH]; intros p s st P.
  - now rewrite firstn_nil.
  - cbn [Whole.process_groups].
    assert (E0 : (l =? 0) = false) by (apply Nat.eqb_neq; lia).
    rewrite E0. cbn [negb andb].
    destruct (l <=? p) eqn:E.
    + apply Nat.leb_le in E. replace (l - p) with 0 by lia. reflexivity.
    + apply Nat.leb_gt in E.
      replace (l - p) with (S (l - S p)) by lia.
      cbn [firstn Whole.process_groups].
      destruct (Whole.create_product_from_group _ _ _ _ _ _ _ _);
        [apply IH; lia | reflexivity].
Qed.


End Running.



(** X8: the counts of a run agree with its buckets.  When the loop of
    [sync_from_xlsx] over the groups ends, each bucket is the one before
    with new entries at its end; [success] grew by the number of new created
    entries and [processed] by the number of all new entries, which is at
    most the number of groups; every new entry bears the key of a group,
    every skip one of the reasons complete, no_name and no_sizes; a dry run
    adds no failure. *)
Theorem run_accounting (price_lt : string -> string -> bool)
    (get_product_by_sku : string -> option product)
    (push :
       string -> list variant -> string -> list string -> list string ->
       option string -> list string -> list nat -> option product ->
       string + (nat * nat))
    (dry_run : bool) (groups : list (string * list variant))
    (fm : folder_map) (limit : option nat) (p s : nat) (st : sync_state)
    (p' s' : nat) (st' : sync_state) :
  Whole.process_groups price_lt get_product_by_sku push dry_run
    groups fm limit p s st = Some (p', s', st') ->
  accounted dry_run groups p s st p' s' st'.
Proof. apply process_accounting. Qed.

Lemma run_accounting_witness :
  accounted false
    [("WPJF 001", [named_variant 0 "WPJF 001-127" (VStr "Jean")]);
     ("WPJF 002", [named_variant 1 "WPJF 002" VNone])]
    0 0 empty_state
    2 0 (mk_state [] [("WPJF 002", "no_name")] [("WPJF 001", "offline")]).
Proof.
  apply (@run_accounting txt_lt no_product offline false
           [("WPJF 001", [named_variant 0 "WPJF 001-127" (VStr "Jean")]);
            ("WPJF 002", [named_variant 1 "WPJF 002" VNone])]
           [] None 0 0 empty_state).
  reflexivity.
Defined.

(** X9: a limit cuts the run after that many groups.  With a limit [l]
    above 0 the loop of [sync_from_xlsx] does to the groups what the loop
    without a limit does to the first [l] of them, and the groups after
    those are not looked at; the limit 0 is no limit. *)
Theorem limit_takes_first_groups (price_lt : string -> string -> bool)
    (get_product_by_sku : string -> option product)
    (push :
       string -> list variant -> string -> list string -> list string ->
       option string -> list string -> list nat -> option product ->
       string + (nat * nat))
    (dry_run : bool) (groups : list (string * list variant))
    (fm : folder_map) (l : nat) (st : sync_state) :
  Whole.process_groups price_lt get_product_by_sku push dry_run
    groups fm (Some l) 0 0 st
  = Whole.process_groups price_lt get_product_by_sku push dry_run
      (if l =? 0 then groups else firstn l groups) fm None 0 0 st.
Proof.
  destruct l as [|l]; cbn [Nat.eqb].
  - apply process_no_limit.
  - rewrite process_limit by lia. now rewrite Nat.sub_0_r.
Qed.






(** ** What a group hands to the product: colours, sizes, price, images *)

Lemma mem_not_In (x : string) (l : list string) :
  mem x l = false <-> ~ In x l.
Proof.
  rewrite <- mem_In. destruct (mem x l); split; congruence.
Qed.

Lemma size_le_total (a b : string) : size_le a b = false -> size_le b a = true.
Proof.
  unfold size_le. intros H.
  apply orb_false_iff in H as [H1 H2].
  apply Nat.ltb_ge in H1.
  destruct (String.length b <? String.length a) eqn:L; [reflexivity|].
  apply Nat.ltb_ge in L.
  assert (E : String.length a = String.length b) by lia.
  rewrite E, Nat.eqb_refl in H2 |- *. cbn [orb andb] in H2 |- *.
  rewrite String.compare_antisym.
  destruct (String.compare a b); [discriminate | discriminate | reflexivity].
Qed.

Lemma insert_size_In (a x : string) (l : list string) :
  In x (insert_size a l) <-> x = a \/ In x l.
Proof.
  induction l as [|y r IH]; cbn [insert_size].
  - cbn. intuition.
  - destruct (size_le a y); cbn [In]; [intuition|].
    rewrite IH. intuition.
Qed.

Lemma insert_size_order (a : string) (l : list string) :
  in_size_order l = true -> in_size_order (insert_size a l) = true.
Proof.
  induction l as [|y r IH]; [reflexivity|].
  intros O. cbn [insert_size].
  destruct (size_le a y) eqn:A.
  - cbn [in_size_order]. now rewrite A.
  - apply size_le_total in A.
    destruct r as [|z r'].
    + cbn. now rewrite A.
    + cbn [in_size_order] in O. apply andb_prop in O as [O1 O2].
      specialize (IH O2). cbn [insert_size] in IH |- *.
      destruct (size_le a z) eqn:B.
      * cbn [in_size_order]. rewrite A, B. exact O2.
      * cbn [in_size_order] in IH |- *. now rewrite O1.
Qed.

Lemma insert_size_NoDup (a : string) (l : list string) :
  ~ In a l -> NoDup l -> NoDup (insert_size a l).
Proof.
  induction l as [|y r IH]; cbn [insert_size]; intros N D.
  - constructor; [intros [] | constructor].
  - destruct (size_le a y); [now constructor|].
    inversion D as [|? ? Dy Dr]; subst.
    constructor.
    + rewrite insert_size_In. intros [-> | H]; [apply N; now left | tauto].
    + apply IH; [intros H; apply N; now right | exact Dr].
Qed.

Lemma sorted_sizes_spec (l : list string) :
  in_size_order (sorted_sizes l) = true
  /\ NoDup (sorted_sizes l)
  /\ forall x, In x (sorted_sizes l) <-> In x l.
Proof.
  induction l as [|a l (O & D & M)]; cbn [sorted_sizes fold_right].
  - repeat split; [constructor | intros [] | intros []].
  - fold (sorted_sizes l). destruct (mem a (sorted_sizes l)) eqn:E.
    + split; [exact O|]. split; [exact D|].
      intros x. rewrite M. cbn [In]. apply mem_In in E. apply M in E.
      split; [tauto | intros [<- | H]; assumption].
    + apply mem_not_In in E.
      split; [now apply insert_size_order|].
      split; [now apply insert_size_NoDup|].
      intros x. rewrite insert_size_In, M. cbn [In]. intuition.
Qed.

Lemma collect_colors_snoc (vs : list variant) (v : variant) :
  collect_colors (vs ++ [v]) = color_step (collect_colors vs) v.
Proof. unfold collect_colors. now rewrite fold_left_app. Qed.

(** The turn of the price loop for one variant. *)
Lemma collect_price_snoc (price_lt : string -> string -> bool)
    (vs : list variant) (v : variant) :
  collect_price price_lt (vs ++ [v])
  = match Variant.price v with
    | Some p =>
        if nonempty p
           && match collect_price price_lt vs with
              | None => true
              | Some b => price_lt p b
              end
        then Some p else collect_price price_lt vs
    | None => collect_price price_lt vs
    end.
Proof. unfold collect_price. now rewrite fold_left_app. Qed.

Lemma collect_price_spec (price_lt : string -> string -> bool)
    (vs : list variant) :
  (forall a, price_lt a a = false) ->
  (forall a b c, price_lt a b = true -> price_lt b c = true ->
                 price_lt a c = true) ->
  match collect_price price_lt vs with
  | None => forall v, In v vs -> Variant.price v = None
                                 \/ Variant.price v = Some ""
  | Some p =>
      nonempty p = true
      /\ (exists v, In v vs /\ Variant.price v = Some p)
      /\ forall v q, In v vs -> Variant.price v = Some q ->
                     nonempty q = true -> price_lt q p = false
  end.
Proof.
  intros Irr Tr.
  induction vs as [|v vs IH] using rev_ind; [intros v []|].
  rewrite collect_price_snoc.
  destruct (Variant.price v) as [p|] eqn:Ep.
  - destruct (nonempty p) eqn:Np; cbn [andb].
    + destruct (collect_price price_lt vs) as [b|].
      * destruct IH as (Nb & (w & Hw & Ew) & Min).
        destruct (price_lt p b) eqn:Lt.
        -- split; [exact Np|]. split.
           { exists v. split; [apply in_or_app; right; now left | exact Ep]. }
           intros u q Hu Eq Nq. apply in_app_or in Hu as [Hu | [<- | []]].
           ++ destruct (price_lt q p) eqn:Q; [|reflexivity].
              pose proof (Min u q Hu Eq Nq) as Mq.
              rewrite (Tr _ _ _ Q Lt) in Mq. discriminate.
           ++ assert (q = p) by congruence. subst q. apply Irr.
        -- split; [exact Nb|]. split.
           { exists w. split; [apply in_or_app; now left | exact Ew]. }
           intros u q Hu Eq Nq. apply in_app_or in Hu as [Hu | [<- | []]].
           ++ exact (Min u q Hu Eq Nq).
           ++ assert (q = p) by congruence. now subst q.
      * split; [exact Np|]. split.
        { exists v. split; [apply in_or_app; right; now left | exact Ep]. }
        intros u q Hu Eq Nq. apply in_app_or in Hu as [Hu | [<- | []]].
        -- destruct (IH u Hu) as [H | H]; rewrite H in Eq;
             [discriminate | injection Eq as <-; discriminate].
        -- assert (q = p) by congruence. subst q. apply Irr.
    + assert (P0 : p = "") by (destruct p; [reflexivity | discriminate]).
      subst p.
      destruct (collect_price price_lt vs) as [b|].
      * destruct IH as (Nb & (w & Hw & Ew) & Min).
        split; [exact Nb|]. split.
        { exists w. split; [apply in_or_app; now left | exact Ew]. }
        intros u q Hu Eq Nq. apply in_app_or in Hu as [Hu | [<- | []]].
        -- exact (Min u q Hu Eq Nq).
        -- assert (q = "") by congruence. subst q. discriminate.
      * intros u Hu. apply in_app_or in Hu as [Hu | [<- | []]];
          [now apply IH | now right].
  - destruct (collect_price price_lt vs) as [b|].
    + destruct IH as (Nb & (w & Hw & Ew) & Min).
      split; [exact Nb|]. split.
      { exists w. split; [apply in_or_app; now left | exact Ew]. }
      intros u q Hu Eq Nq. apply in_app_or in Hu as [Hu | [<- | []]].
      * exact (Min u q Hu Eq Nq).
      * congruence.
    + intros u Hu. apply in_app_or in Hu as [Hu | [<- | []]];
        [now apply IH | now left].
Qed.

(** The images loop, by the images it has seen. *)
Lemma images_fold (imgs : list string) :
  forall product_images seen_images,
    fold_left
      (fun '(product_images, seen_images) img_path =>
         let img_name := basename img_path in
         if mem img_name seen_images then (product_images, seen_images)
         else ((product_images ++ [img_path])%list,
               img_name :: seen_images))
      imgs ([], []) = (product_images, seen_images) ->
    (forall n, In n seen_images <-> In n (map basename product_images))
    /\ NoDup (map basename product_images)
    /\ (forall x, In x product_images -> In x imgs)
    /\ (forall x, In x imgs -> In (basename x) seen_images).
Proof.
  induction imgs as [|img imgs IH] using rev_ind; intros pi seen.
  - cbn. intros H. injection H as <- <-. cbn.
    repeat split; try tauto. constructor.
  - rewrite fold_left_app. cbn [fold_left].
    destruct (fold_left _ imgs ([], [])) as [pi0 seen0].
    destruct (IH pi0 seen0 eq_refl) as (S0 & D0 & I0 & C0).
    destruct (mem (basename img) seen0) eqn:E; intros H; injection H as <- <-.
    + split; [exact S0|]. split; [exact D0|]. split.
      * intros x Hx. apply in_or_app. left. now apply I0.
      * intros x Hx. apply in_app_or in Hx as [Hx | [<- | []]];
          [now apply C0 | now apply mem_In].
    + apply mem_not_In in E. split; [|split; [|split]].
      * intros n. rewrite map_app, in_app_iff. cbn [In map].
        rewrite S0. tauto.
      * rewrite map_app. cbn [map]. apply NoDup_app; [exact D0 | |].
        -- constructor; [intros [] | constructor].
        -- intros n Hn [<- | []]. apply E. now apply S0.
      * intros x Hx. apply in_app_or in Hx as [Hx | [<- | []]];
          apply in_or_app; [left; now apply I0 | right; now left].
      * intros x Hx. apply in_app_or in Hx as [Hx | [<- | []]];
          [right; now apply C0 | now left].
Qed.

Lemma collect_colors_spec (variants : list variant) :
  NoDup (collect_colors variants)
  /\ forall c, In c (collect_colors variants)
               <-> exists v, In v variants
                             /\ truthy (Variant.color v) = true
                             /\ nonempty (strip (str (Variant.color v))) = true
                             /\ c = strip (str (Variant.color v)).
Proof.
  induction variants as [|v vs (D & M)] using rev_ind.
  - split; [constructor|]. intros c. cbn. split; [intros [] |].
    intros (v & [] & _).
  - rewrite collect_colors_snoc. unfold color_step.
    destruct (truthy (Variant.color v)
              && nonempty (strip (str (Variant.color v)))) eqn:T.
    + apply andb_prop in T as [T1 T2].
      destruct (mem (strip (str (Variant.color v))) (collect_colors vs))
        eqn:E.
      * split; [exact D|]. intros c. rewrite M. split.
        -- intros (w & Hw & R). exists w. split; [|exact R].
           apply in_or_app. now left.
        -- intros (w & Hw & R1 & R2 & R3).
           apply in_app_or in Hw as [Hw | [<- | []]].
           ++ exists w. tauto.
           ++ apply M. subst c. now apply mem_In.
      * apply mem_not_In in E. split.
        -- apply NoDup_app; [exact D | |].
           ++ constructor; [intros [] | constructor].
           ++ intros c Hc [<- | []]. now apply E.
        -- intros c. rewrite in_app_iff, M. cbn [In]. split.
           ++ intros [(w & Hw & R) | [<- | []]].
              ** exists w. split; [apply in_or_app; now left | exact R].
              ** exists v. split; [apply in_or_app; right; now left|].
                 tauto.
           ++ intros (w & Hw & R1 & R2 & R3).
              apply in_app_or in Hw as [Hw | [<- | []]].
              ** left. exists w. tauto.
              ** right. left. now symmetry.
    + split; [exact D|]. intros c. rewrite M. split.
      * intros (w & Hw & R). exists w. split; [|exact R].
        apply in_or_app. now left.
      * intros (w & Hw & R1 & R2 & R3).
        apply in_app_or in Hw as [Hw | [<- | []]].
        -- exists w. tauto.
        -- rewrite R1, R2 in T. discriminate.
Qed.

(** X13: the sizes of a product.  The sizes [create_product_from_group]
    gives to a product are the sizes of its variants, each once, shorter
    labels first and labels of one length in the order of their
    characters. *)
Theorem collect_sizes_sorted (variants : list variant) :
  in_size_order (collect_sizes variants) = true
  /\ NoDup (collect_sizes variants)
  /\ forall x, In x (collect_sizes variants)
               <-> exists v, In v variants /\ In x (Variant.sizes v).
Proof.
  unfold collect_sizes.
  destruct (sorted_sizes_spec (flat_map Variant.sizes variants))
    as (O & D & M).
  split; [exact O|]. split; [exact D|].
  intros x. rewrite M. apply in_flat_map.
Qed.

(** X14: the colours of a product.  The colours loop of
    [create_product_from_group] keeps each colour once: its result has no
    text twice, and a text is in it exactly when it is the trimmed text of
    the colour of a variant whose colour is a true value and not blank. *)
Theorem collect_colors_distinct (variants : list variant) :
  NoDup (collect_colors variants)
  /\ forall c, In c (collect_colors variants)
               <-> exists v, In v variants
                             /\ truthy (Variant.color v) = true
                             /\ nonempty (strip (str (Variant.color v))) = true
                             /\ c = strip (str (Variant.color v)).
Proof. apply collect_colors_spec. Qed.

(** X15: the price of a product is the lowest of its variants.  When
    [float(a) < float(b)] is a strict order on the cleaned prices, the price
    loop of [create_product_from_group] ends with no price exactly when no
    variant has one, and else with the price of a variant below which no
    variant has a price. *)
Theorem collect_price_lowest (price_lt : string -> string -> bool)
    (variants : list variant) :
  (forall a, price_lt a a = false) ->
  (forall a b c, price_lt a b = true -> price_lt b c = true ->
                 price_lt a c = true) ->
  match collect_price price_lt variants with
  | None => forall v, In v variants -> Variant.price v = None
                                       \/ Variant.price v = Some ""
  | Some p =>
      nonempty p = true
      /\ (exists v, In v variants /\ Variant.price v = Some p)
      /\ forall v q, In v variants -> Variant.price v = Some q ->
                     nonempty q = true -> price_lt q p = false
  end.
Proof. apply collect_price_spec. Qed.

(** X16: the images of a product.  The images
    [create_product_from_group] collects for the main product bear pairwise
    different file names; each is an image found for the raw SKU of a
    variant, and every image found for a variant is in the result under its
    file name, by itself or by an image of the same name met before. *)
Theorem collect_images_by_name (variants : list variant) (fm : folder_map) :
  NoDup (map basename (collect_images variants fm))
  /\ (forall img, In img (collect_images variants fm) ->
        exists v, In v variants
                  /\ In img (find_images_for_sku (VStr (Variant.raw_sku v)) fm))
  /\ (forall v img, In v variants ->
        In img (find_images_for_sku (VStr (Variant.raw_sku v)) fm) ->
        exists img', In img' (collect_images variants fm)
                     /\ basename img' = basename img).
Proof.
  unfold collect_images.
  destruct (fold_left _ _ ([], [])) as [pi seen] eqn:E.
  destruct (images_fold _ E) as (S0 & D0 & I0 & C0). cbn [fst].
  split; [exact D0|]. split.
  - intros img H. apply I0, in_flat_map in H. exact H.
  - intros v img Hv Hi.
    assert (H : In (basename img) (map basename pi)).
    { apply S0, C0, in_flat_map. exists v. now split. }
    apply in_map_iff in H as (img' & H1 & H2). exists img'. now split.
Qed.

Lemma collect_price_lowest_witness :
  nonempty "99.5" = true
  /\ (exists v,
        In v [Variant.mk 0 [] "WPJF 001-127" (Some "127") (VStr "127")
                ["2-3"] (Some "120.0") (VStr "Jean") VNone (VStr "")
                (VStr "");
              Variant.mk 1 [] "WPJF 001-120" (Some "120") (VStr "120")
                ["3-4"] (Some "99.5") VNone VNone (VStr "") (VStr "")]
        /\ Variant.price v = Some "99.5")
  /\ forall v q,
       In v [Variant.mk 0 [] "WPJF 001-127" (Some "127") (VStr "127")
               ["2-3"] (Some "120.0") (VStr "Jean") VNone (VStr "")
               (VStr "");
             Variant.mk 1 [] "WPJF 001-120" (Some "120") (VStr "120")
               ["3-4"] (Some "99.5") VNone VNone (VStr "") (VStr "")] ->
       Variant.price v = Some q -> nonempty q = true ->
       (String.length q <? String.length "99.5") = false.
Proof.
  exact
    (@collect_price_lowest
       (fun a b => String.length a <? String.length b)
       [Variant.mk 0 [] "WPJF 001-127" (Some "127") (VStr "127")
          ["2-3"] (Some "120.0") (VStr "Jean") VNone (VStr "") (VStr "");
        Variant.mk 1 [] "WPJF 001-120" (Some "120") (VStr "120")
          ["3-4"] (Some "99.5") VNone VNone (VStr "") (VStr "")]
       (fun a => Nat.ltb_irrefl (String.length a))
       (fun a b c H1 H2 =>
          proj2 (Nat.ltb_lt _ _)
            (Nat.lt_trans _ _ _ (proj1 (Nat.ltb_lt _ _) H1)
               (proj1 (Nat.ltb_lt _ _) H2)))).
Defined.

(** ** The SKU parser on product codes *)

Lemma squeeze_lead (lead x : string) :
  all_chars is_space lead = true ->
  squeeze GFresh (lead ++ x) = squeeze GFresh x.
Proof.
  induction lead as [|c r IH]; [reflexivity|].
  cbn [all_chars append squeeze]. intros H. apply andb_prop in H as [Hc Hr].
  rewrite Hc. now apply IH.
Qed.

Lemma squeeze_trail (st : gap_state) (trail : string) :
  all_chars is_space trail = true -> squeeze st trail = "".
Proof.
  revert st. induction trail as [|c r IH]; [reflexivity|].
  cbn [all_chars squeeze]. intros st H. apply andb_prop in H as [Hc Hr].
  rewrite Hc. now apply IH.
Qed.

(** A word written behind a word. *)
Lemma squeeze_word (w x : string) (st : gap_state) :
  st <> GGap ->
  all_chars (fun c => negb (is_space c)) w = true ->
  squeeze st (w ++ x)
  = w ++ squeeze (if nonempty w then GWord else st) x.
Proof.
  revert st. induction w as [|c r IH]; [reflexivity|].
  cbn [all_chars append squeeze nonempty]. intros st N H.
  apply andb_prop in H as [Hc Hr]. apply negb_true_iff in Hc. rewrite Hc.
  rewrite (IH GWord) by (discriminate || exact Hr).
  destruct st; try contradiction; now destruct (nonempty r).
Qed.

(** A run of whitespace between two words. *)
Lemma squeeze_gap (gap : string) (c : ascii) (x : string) (st : gap_state) :
  st <> GFresh ->
  all_chars is_space gap = true -> is_space c = false ->
  squeeze st (gap ++ String c x)
  = (if nonempty gap then " "
     else match st with GGap => " " | _ => "" end)
    ++ String c (squeeze GWord x).
Proof.
  revert st. induction gap as [|g r IH]; intros st N H Hc.
  - cbn [append squeeze nonempty]. rewrite Hc. now destruct st.
  - cbn [all_chars append squeeze nonempty] in H |- *.
    apply andb_prop in H as [Hg Hr]. rewrite Hg.
    destruct st; try contradiction;
      rewrite (IH GGap) by (discriminate || assumption);
      now destruct (nonempty r).
Qed.

Lemma rstrip_ends_in_word (x : string) :
  ends_in_word x = true -> rstrip x = x.
Proof.
  induction x as [|c r IH]; [reflexivity|].
  intros E. cbn [rstrip]. destruct r as [|d r'].
  - cbn in E |- *. apply negb_true_iff in E. now rewrite E.
  - rewrite IH by exact E. reflexivity.
Qed.

Lemma strip_plain (c : ascii) (r : string) :
  is_space c = false -> ends_in_word (String c r) = true ->
  strip (String c r) = String c r.
Proof.
  intros Hc E. unfold strip. rewrite (lstrip_word c r Hc).
  now apply rstrip_ends_in_word.
Qed.

Lemma ends_in_word_app (a b : string) :
  nonempty b = true -> ends_in_word b = true -> ends_in_word (a ++ b) = true.
Proof.
  intros N E. induction a as [|c r IH]; [exact E|].
  cbn [append ends_in_word]. destruct (r ++ b) eqn:R; [|exact IH].
  destruct r; [|discriminate]. cbn in R. subst b. discriminate.
Qed.

Lemma digits_end_in_word (d : string) :
  all_chars is_digit d = true -> ends_in_word d = true.
Proof.
  induction d as [|c r IH]; [reflexivity|].
  cbn [all_chars]. intros H. apply andb_prop in H as [Hc Hr].
  cbn [ends_in_word]. destruct r; [|now apply IH].
  ascii_cases c; try discriminate Hc; reflexivity.
Qed.

Lemma digit_is_word (c : ascii) :
  is_digit c = true ->
  is_space c = false /\ Ascii.eqb c "-" = false /\ is_dot c = true
  /\ is_AZ c = false.
Proof. ascii_cases c; try discriminate; repeat split. Qed.

Lemma letter_is_word (c : ascii) :
  is_AZ c = true ->
  is_space c = false /\ Ascii.eqb c "-" = false /\ is_dot c = true
  /\ is_digit c = false.
Proof. ascii_cases c; try discriminate; repeat split. Qed.

Lemma space_not_letter (c : ascii) : is_space c = true -> is_AZ c = false.
Proof. ascii_cases c; try discriminate; reflexivity. Qed.

Lemma adds_false (w : string) (x : result) : adds false w x = x.
Proof. induction w as [|c r IH]; [reflexivity | exact IH]. Qed.

(** The end of the dash pattern: whitespace, the dash, whitespace and the
    digits to the end of the text. *)
Lemma m_dash_tail (sp1 sp2 d : string) :
  all_chars is_space sp1 = true -> all_chars is_space sp2 = true ->
  all_chars is_digit d = true -> nonempty d = true ->
  m ([Close; Star is_space] ++ Lit "-" ++ [Star is_space; Open]
       ++ Plus is_digit ++ [Close; Eos])%list true
    (sp1 ++ "-" ++ sp2 ++ d)
  = Some ([""; d], "").
Proof.
  intros S1 S2 D N. cbn [app Lit Plus].
  destruct d as [|c ds]; [discriminate|].
  cbn [all_chars] in D. apply andb_prop in D as [Dc Dd].
  destruct (digit_is_word c Dc) as (Cs & Cd & _).
  rewrite m_close, m_star_commit.
  2:{ intros e r He. rewrite m_one. unfold is_char.
      now rewrite (space_not_dash e He). }
  rewrite drop_while_app_all by exact S1.
  cbn [append drop_while]. change (is_space "-") with false. cbn iota.
  rewrite m_one. unfold is_char at 1. cbn [Ascii.eqb Bool.eqb].
  rewrite m_star_commit.
  2:{ intros e r He. rewrite m_open, m_one.
      now rewrite (space_not_digit e He). }
  rewrite drop_while_app_all by exact S2.
  cbn [drop_while]. rewrite Cs.
  rewrite m_open, m_group_plus.
  2:{ intros e r He. rewrite m_eos. cbn [at_end].
      destruct r; [|reflexivity].
      destruct (digit_is_word e He) as (_ & _ & Hd & _).
      unfold is_dot in Hd. apply negb_true_iff in Hd. now rewrite Hd. }
  destruct (@take_while_all is_digit (String c ds)) as (T & R).
  { cbn. now rewrite Dc. }
  rewrite T, R. cbn [nonempty]. rewrite m_eos. cbn [at_end m].
  cbn [option_map add]. rewrite !adds_false. reflexivity.
Qed.

Lemma m_lazy (p : ascii -> bool) (k : pattern) (ing : bool) (s : string) :
  m (StarLazy p :: k) ing s
  = match m k ing s with
    | Some x => Some x
    | None =>
        match s with
        | String c r =>
            if p c then option_map (add ing c) (m (StarLazy p :: k) ing r)
            else None
        | "" => None
        end
    end.
Proof. destruct s; reflexivity. Qed.

Lemma drop_while_no_dash (x tail : string) :
  all_chars (fun c => negb (Ascii.eqb c "-")) x = true ->
  ends_in_word x = true -> nonempty x = true ->
  exists e r, drop_while is_space (x ++ tail) = String e r
              /\ Ascii.eqb e "-" = false.
Proof.
  induction x as [|c x IH]; [discriminate 3|].
  intros D E _. cbn [all_chars] in D. apply andb_prop in D as [Dc Dx].
  cbn [append drop_while]. destruct (is_space c) eqn:Hc.
  - destruct x as [|c' x'].
    + cbn in E. rewrite Hc in E. discriminate.
    + apply IH; [exact Dx | exact E | reflexivity].
  - exists c, (x ++ tail). split; [reflexivity|].
    now apply negb_true_iff in Dc.
Qed.

(** The lazy first group of the dash pattern reads on to the last dash: a
    text without a dash that does not end in whitespace is read whole when
    the rest of the pattern matches behind it. *)
Lemma m_lazy_base (k : pattern) (b tail : string) (x : result) :
  all_chars is_dot b = true ->
  all_chars (fun c => negb (Ascii.eqb c "-")) b = true ->
  ends_in_word b = true ->
  m (Close :: Star is_space :: One (is_char "-") :: k) true tail = Some x ->
  m (StarLazy is_dot :: Close :: Star is_space :: One (is_char "-") :: k)
    true (b ++ tail)
  = Some (adds true b x).
Proof.
  intros A D E T. induction b as [|c b IH].
  - cbn [append adds]. now rewrite m_lazy, T.
  - cbn [all_chars] in A. apply andb_prop in A as [Ac Ab].
    assert (N : m (Close :: Star is_space :: One (is_char "-") :: k) true
                  (String c b ++ tail) = None).
    { rewrite m_close, m_star_commit.
      2:{ intros e r He. rewrite m_one. unfold is_char.
          now rewrite (space_not_dash e He). }
      destruct (drop_while_no_dash (String c b) tail D E eq_refl)
        as (e & r & -> & He).
      rewrite m_one. unfold is_char. now rewrite He. }
    rewrite m_lazy, N. cbn [append]. rewrite Ac.
    cbn [append] in IH. rewrite IH; [reflexivity | exact Ab | |].
    + cbn [all_chars] in D. now apply andb_prop in D as [_ D].
    + exact (ends_in_word_tail c b E).
Qed.

Lemma drop_while_head (p : ascii -> bool) (s : string) :
  match s with
  | String c _ => p c = false
  | "" => True
  end -> drop_while p s = s.
Proof. destruct s as [|c r]; [reflexivity|]. cbn. now intros ->. Qed.

(** The space pattern finds no variation in a product code alone. *)
Lemma re_space_code_none (letters gap digits : string) :
  all_chars is_AZ letters = true -> all_chars is_space gap = true ->
  all_chars is_digit digits = true ->
  rmatch re_space ("WP" ++ letters ++ gap ++ digits) = None.
Proof.
  intros L G D. unfold rmatch, re_space. cbn [app Lit Plus append].
  rewrite m_open, m_one. unfold is_char at 1. cbn [Ascii.eqb Bool.eqb].
  rewrite m_one. unfold is_char at 1. cbn [Ascii.eqb Bool.eqb].
  destruct letters as [|l ls]; cbn [append].
  { rewrite m_one. destruct (gap ++ digits) as [|c r] eqn:E; [reflexivity|].
    assert (H : is_AZ c = false).
    { destruct gap as [|g gap'].
      - cbn in E. subst digits. cbn in D.
        apply andb_prop in D as [D _].
        now destruct (digit_is_word c D) as (_ & _ & _ & ?).
      - cbn in E. injection E as -> _. cbn in G.
        apply andb_prop in G as [G _]. now apply space_not_letter. }
    now rewrite H. }
  cbn [all_chars] in L. apply andb_prop in L as [Ll Ls].
  rewrite m_one, Ll.
  rewrite m_star_commit.
  2:{ intros c r Hc. destruct (letter_is_word c Hc) as (Cs & _ & _ & Cd).
      rewrite m_star_skip by (cbn; now rewrite Cs).
      rewrite m_one. now rewrite Cd. }
  rewrite drop_while_app_all by exact Ls.
  rewrite m_star_commit.
  2:{ intros c r Hc. rewrite m_one. now rewrite (space_not_digit c Hc). }
  assert (E1 : drop_while is_space (drop_while is_AZ (gap ++ digits))
               = digits).
  { rewrite (drop_while_head is_AZ).
    - rewrite drop_while_app_all by exact G. apply drop_while_head.
      destruct digits as [|c r]; [exact I|]. cbn in D.
      apply andb_prop in D as [D _]. now destruct (digit_is_word c D).
    - destruct gap as [|g gap']; cbn [append].
      + destruct digits as [|c r]; [exact I|]. cbn in D.
        apply andb_prop in D as [D _].
        now destruct (digit_is_word c D) as (_ & _ & _ & ?).
      + cbn in G. apply andb_prop in G as [G _].
        now apply space_not_letter. }
  rewrite E1. rewrite m_one.
  destruct digits as [|dg ds]; [reflexivity|].
  cbn [all_chars] in D. apply andb_prop in D as [Dg Ds]. rewrite Dg.
  rewrite m_star_commit.
  2:{ intros c r Hc. rewrite m_close, m_one.
      now destruct (digit_is_word c Hc) as (-> & _). }
  destruct (take_while_all is_digit ds Ds) as (_ & ->).
  rewrite m_close, m_one. reflexivity.
Qed.

Lemma squeeze_WP (st : gap_state) (y : string) :
  st <> GGap ->
  squeeze st (String "W" (String "P" y))
  = String "W" (String "P" (squeeze GWord y)).
Proof. destruct st; [reflexivity | reflexivity | contradiction]. Qed.

Lemma one_space_blank (gap : string) :
  all_chars is_space (one_space gap) = true.
Proof. unfold one_space. now destruct (nonempty gap). Qed.

(** The collapsed text of a product code with a dash variation. *)
Lemma squeeze_code_dash (lead letters gap digits sp1 sp2 d trail : string) :
  all_chars is_AZ letters = true ->
  all_chars is_digit digits = true -> nonempty digits = true ->
  all_chars is_digit d = true -> nonempty d = true ->
  all_chars is_space lead = true -> all_chars is_space gap = true ->
  all_chars is_space sp1 = true -> all_chars is_space sp2 = true ->
  all_chars is_space trail = true ->
  squeeze GFresh
    (lead ++ "WP" ++ letters ++ gap ++ digits ++ sp1 ++ "-" ++ sp2 ++ d
       ++ trail)
  = "WP" ++ letters ++ one_space gap ++ digits ++ one_space sp1 ++ "-"
      ++ one_space sp2 ++ d.
Proof.
  intros L D ND V NV S0 S1 S2 S3 S4.
  assert (W : forall w, all_chars is_AZ w = true ->
                        all_chars (fun c => negb (is_space c)) w = true).
  { induction w as [|c w IH]; [reflexivity|]. cbn. intros H.
    apply andb_prop in H as [Hc Hw].
    destruct (letter_is_word c Hc) as (-> & _). now apply IH. }
  assert (W' : forall w, all_chars is_digit w = true ->
                         all_chars (fun c => negb (is_space c)) w = true).
  { induction w as [|c w IH]; [reflexivity|]. cbn. intros H.
    apply andb_prop in H as [Hc Hw].
    destruct (digit_is_word c Hc) as (-> & _). now apply IH. }
  destruct digits as [|dg ds]; [discriminate|].
  destruct d as [|vc vs]; [discriminate|].
  cbn [all_chars] in D, V.
  apply andb_prop in D as [Dg Ds]. apply andb_prop in V as [Vc Vs].
  destruct (digit_is_word dg Dg) as (Gs & _).
  destruct (digit_is_word vc Vc) as (Cs & _).
  rewrite squeeze_lead by exact S0. cbn [append].
  rewrite squeeze_WP by discriminate.
  rewrite (squeeze_word letters) by (discriminate || now apply W).
  assert (E : squeeze (if nonempty letters then GWord else GWord)
                (gap ++ String dg (ds ++ sp1 ++ String "-"
                                     (sp2 ++ String vc (vs ++ trail))))
              = one_space gap
                ++ String dg (ds ++ one_space sp1
                                ++ String "-" (one_space sp2
                                                 ++ String vc vs))).
  { replace (if nonempty letters then GWord else GWord) with GWord
      by now destruct (nonempty letters).
    rewrite squeeze_gap by (discriminate || assumption).
    rewrite (squeeze_word ds) by (discriminate || now apply W').
    replace (if nonempty ds then GWord else GWord) with GWord
      by now destruct (nonempty ds).
    rewrite squeeze_gap by (discriminate || assumption || reflexivity).
    rewrite squeeze_gap by (discriminate || assumption).
    rewrite (squeeze_word vs) by (discriminate || now apply W').
    rewrite squeeze_trail by exact S4. rewrite append_empty.
    reflexivity. }
  rewrite E. reflexivity.
Qed.

Lemma letters_plain (w : string) :
  all_chars is_AZ w = true ->
  all_chars is_dot w = true
  /\ all_chars (fun c => negb (Ascii.eqb c "-")) w = true
  /\ contains " " w = false.
Proof.
  induction w as [|c w IH]; [repeat split|]. cbn. intros H.
  apply andb_prop in H as [Hc Hw]. destruct (IH Hw) as (-> & -> & ->).
  destruct (letter_is_word c Hc) as (_ & -> & -> & _).
  repeat split. rewrite orb_false_r.
  revert Hc. clear. ascii_cases c; try discriminate; reflexivity.
Qed.

Lemma digits_plain (w : string) :
  all_chars is_digit w = true ->
  all_chars is_dot w = true
  /\ all_chars (fun c => negb (Ascii.eqb c "-")) w = true
  /\ contains " " w = false.
Proof.
  induction w as [|c w IH]; [repeat split|]. cbn. intros H.
  apply andb_prop in H as [Hc Hw]. destruct (IH Hw) as (-> & -> & ->).
  destruct (digit_is_word c Hc) as (_ & -> & -> & _).
  repeat split. rewrite orb_false_r.
  revert Hc. clear. ascii_cases c; try discriminate; reflexivity.
Qed.

(** The dash pattern on a collapsed product code with a dash variation: the
    first group is the code, the second the digits. *)
Lemma m_re_dash_code (letters gap digits sp1 sp2 d : string) :
  all_chars is_AZ letters = true ->
  all_chars is_digit digits = true -> nonempty digits = true ->
  all_chars is_space sp1 = true -> all_chars is_space sp2 = true ->
  all_chars is_digit d = true -> nonempty d = true ->
  rmatch re_dash
    ("WP" ++ letters ++ one_space gap ++ digits ++ sp1 ++ "-" ++ sp2 ++ d)
  = Some [product_code letters gap digits; d].
Proof.
  intros L D ND S1 S2 V NV.
  unfold rmatch, re_dash, product_code. cbn [app PlusLazy Lit Plus].
  rewrite m_open, m_one. cbn [append].
  change (is_dot "W") with true. cbn iota.
  assert (E : String "P"
                (letters ++ one_space gap ++ digits ++ sp1
                   ++ String "-" (sp2 ++ d))
              = (String "P" (letters ++ one_space gap ++ digits))
                  ++ (sp1 ++ "-" ++ sp2 ++ d)).
  { cbn [append]. now rewrite !append_assoc. }
  rewrite E.
  pose proof (m_dash_tail sp1 sp2 d S1 S2 V NV) as T.
  cbn [app Lit Plus] in T.
  destruct (letters_plain letters L) as (L1 & L2 & _).
  destruct (digits_plain digits D) as (D1 & D2 & _).
  rewrite m_lazy_base with (x := ([""; d], "")).
  - rewrite adds_group, append_empty. reflexivity.
  - cbn [all_chars]. change (is_dot "P") with true. cbn [andb].
    rewrite !all_chars_app, L1, D1. unfold one_space.
    now destruct (nonempty gap).
  - cbn [all_chars]. change (negb (Ascii.eqb "P" "-")) with true. cbn [andb].
    rewrite !all_chars_app, L2, D2. unfold one_space.
    now destruct (nonempty gap).
  - change (String "P" (letters ++ one_space gap ++ digits))
      with ("P" ++ letters ++ one_space gap ++ digits).
    rewrite <- !append_assoc.
    apply ends_in_word_app; [exact ND | now apply digits_end_in_word].
  - exact T.
Qed.

Lemma parse_code_dash (lead letters gap digits sp1 sp2 d trail : string) :
  all_chars is_AZ letters = true ->
  all_chars is_digit digits = true -> nonempty digits = true ->
  all_chars is_digit d = true -> nonempty d = true ->
  all_chars is_space lead = true -> all_chars is_space gap = true ->
  all_chars is_space sp1 = true -> all_chars is_space sp2 = true ->
  all_chars is_space trail = true ->
  parse_sku
    (VStr (lead ++ "WP" ++ letters ++ gap ++ digits ++ sp1 ++ "-" ++ sp2
             ++ d ++ trail))
  = (Some (product_code letters gap digits), Some d).
Proof.
  intros L D ND V NV S0 S1 S2 S3 S4.
  unfold parse_sku. cbn [str truthy].
  assert (N : nonempty
                (lead ++ "WP" ++ letters ++ gap ++ digits ++ sp1 ++ "-"
                   ++ sp2 ++ d ++ trail) = true)
    by now destruct lead.
  assert (B : blank
                (lead ++ "WP" ++ letters ++ gap ++ digits ++ sp1 ++ "-"
                   ++ sp2 ++ d ++ trail) = false).
  { rewrite blank_all_spaces, all_chars_app. cbn [append all_chars].
    change (is_space "W") with false. cbn [andb]. apply andb_false_r. }
  rewrite N, B. cbn [negb orb].
  rewrite collapse_squeeze, squeeze_code_dash by assumption.
  rewrite m_re_dash_code by (assumption || apply one_space_blank).
  cbn [group Nat.sub nth].
  assert (E1 : strip (product_code letters gap digits)
               = product_code letters gap digits).
  { unfold product_code. cbn [append]. apply strip_plain; [reflexivity|].
    change (String "W" (String "P" (letters ++ one_space gap ++ digits)))
      with ("WP" ++ letters ++ one_space gap ++ digits).
    rewrite <- !append_assoc.
    apply ends_in_word_app; [exact ND | now apply digits_end_in_word]. }
  assert (E2 : strip d = d).
  { destruct d as [|c r]; [discriminate|]. cbn [all_chars] in V.
    pose proof V as V'. apply andb_prop in V' as [Vc _].
    apply strip_plain; [now destruct (digit_is_word c Vc)|].
    now apply digits_end_in_word. }
  rewrite E1, E2.
  assert (N1 : nonempty (product_code letters gap digits) = true)
    by reflexivity.
  rewrite N1. cbn [andb].
  destruct (contains " " (product_code letters gap digits));
    [|reflexivity].
  unfold product_code.
  rewrite re_space_code_none
    by (assumption || apply one_space_blank).
  reflexivity.
Qed.

(** X17: the base of a product code with a numeric dash variation.  For a
    SKU made of WP, capital letters, digits, a dash and digits, with any
    whitespace around it, between the letters and the digits and around the
    dash, [parse_sku] gives the digits behind the dash as the variation and
    the code before it as the base, its whitespace collapsed to one space:
    the base does not depend on the variation or on the whitespace around
    the dash, but a code written with whitespace and the same code written
    without have different bases. *)
Theorem parse_sku_code_dash
    (lead letters gap digits sp1 sp2 d trail : string) :
  all_chars is_AZ letters = true ->
  all_chars is_digit digits = true -> nonempty digits = true ->
  all_chars is_digit d = true -> nonempty d = true ->
  all_chars is_space lead = true -> all_chars is_space gap = true ->
  all_chars is_space sp1 = true -> all_chars is_space sp2 = true ->
  all_chars is_space trail = true ->
  parse_sku
    (VStr (lead ++ "WP" ++ letters ++ gap ++ digits ++ sp1 ++ "-" ++ sp2
             ++ d ++ trail))
  = (Some (product_code letters gap digits), Some d)
  /\ (nonempty gap = true ->
      product_code letters gap digits <> product_code letters "" digits).
Proof.
  intros L D ND V NV S0 S1 S2 S3 S4. split.
  - now apply parse_code_dash.
  - intros G E. unfold product_code, one_space in E. rewrite G in E.
    cbn [nonempty append] in E. injection E as E.
    apply (f_equal (contains " ")) in E.
    rewrite !contains_app in E.
    destruct (letters_plain letters L) as (_ & _ & L3).
    destruct (digits_plain digits D) as (_ & _ & D3).
    rewrite L3, D3 in E. cbn in E. discriminate.
Qed.

Lemma parse_sku_code_dash_witness :
  parse_sku (VStr "  WPJF  001 - 127 ") = (Some "WPJF 001", Some "127")
  /\ "WPJF 001" <> "WPJF001".
Proof.
  pose proof (@parse_sku_code_dash "  " "JF" "  " "001" " " " " "127" " "
                eq_refl eq_refl eq_refl eq_refl eq_refl
                eq_refl eq_refl eq_refl eq_refl eq_refl) as H.
  split; [exact (proj1 H) | exact (proj2 H eq_refl)].
Defined.

Lemma squeeze_spaces (sp x : string) (st : gap_state) :
  st <> GFresh -> all_chars is_space sp = true -> nonempty sp = true ->
  squeeze st (sp ++ x) = squeeze GGap x.
Proof.
  revert st. induction sp as [|c r IH]; [discriminate 3|].
  intros st N S _. cbn [all_chars] in S. apply andb_prop in S as [Sc Sr].
  cbn [append squeeze]. rewrite Sc.
  destruct r as [|c' r'].
  - destruct st; [contradiction | reflexivity | reflexivity].
  - destruct st; try contradiction;
      apply IH; (discriminate || assumption || reflexivity).
Qed.

Lemma squeeze_after_gap (r : string) :
  blank r = false -> squeeze GGap r = " " ++ squeeze GFresh r.
Proof.
  rewrite blank_all_spaces.
  induction r as [|c r IH]; [discriminate|].
  cbn [all_chars squeeze]. destruct (is_space c); [exact IH | reflexivity].
Qed.

Lemma word_is_dot (c : ascii) : is_space c = false -> is_dot c = true.
Proof. ascii_cases c; try discriminate; reflexivity. Qed.

Lemma squeeze_dot (st : gap_state) (r : string) :
  all_chars is_dot (squeeze st r) = true.
Proof.
  revert st. induction r as [|c r IH]; [reflexivity|].
  intros st. cbn [squeeze]. destruct (is_space c) eqn:Hc; [apply IH|].
  destruct st; cbn [all_chars]; rewrite (word_is_dot c Hc), IH; reflexivity.
Qed.

Lemma squeeze_ends (st : gap_state) (r : string) :
  ends_in_word (squeeze st r) = true.
Proof.
  revert st. induction r as [|c r IH]; [reflexivity|].
  intros st. cbn [squeeze]. destruct (is_space c) eqn:Hc; [apply IH|].
  assert (E : ends_in_word (String c (squeeze GWord r)) = true).
  { cbn [ends_in_word]. destruct (squeeze GWord r) eqn:Q.
    - now rewrite Hc.
    - rewrite <- Q. apply IH. }
  destruct st; exact E.
Qed.

Lemma squeeze_starts (r : string) :
  blank r = false ->
  exists c q, squeeze GFresh r = String c q /\ is_space c = false.
Proof.
  rewrite blank_all_spaces.
  induction r as [|c r IH]; [discriminate|].
  cbn [all_chars squeeze]. destruct (is_space c) eqn:Hc; [exact IH|].
  intros _. now exists c, (squeeze GWord r).
Qed.

Lemma squeeze_no_dash (st : gap_state) (r : string) :
  contains "-" r = false -> contains "-" (squeeze st r) = false.
Proof.
  revert st. induction r as [|c r IH]; [reflexivity|].
  intros st. cbn [contains squeeze]. intros H.
  apply orb_false_iff in H as [Hc Hr].
  destruct (is_space c); [now apply IH|].
  destruct st; cbn [contains]; rewrite Hc, (IH GWord Hr); reflexivity.
Qed.

Lemma contains_drop_while (p : ascii -> bool) (c : ascii) (s : string) :
  contains c s = false -> contains c (drop_while p s) = false.
Proof.
  induction s as [|d r IH]; [reflexivity|].
  intros H. cbn [drop_while]. destruct (p d); [|exact H].
  cbn [contains] in H. apply orb_false_iff in H as [_ H]. now apply IH.
Qed.

(** Without a dash in the text the dash pattern does not match. *)
Lemma m_lazy_none (k : pattern) (r : string) :
  contains "-" r = false ->
  m (StarLazy is_dot :: Close :: Star is_space :: One (is_char "-") :: k)
    true r = None.
Proof.
  assert (N : forall r, contains "-" r = false ->
                m (Close :: Star is_space :: One (is_char "-") :: k) true r
                = None).
  { intros r0 H. rewrite m_close, m_star_commit.
    2:{ intros e r1 He. rewrite m_one. unfold is_char.
        now rewrite (space_not_dash e He). }
    pose proof (contains_drop_while is_space "-" r0 H) as D.
    rewrite m_one. destruct (drop_while is_space r0) as [|e r1];
      [reflexivity|].
    cbn [contains] in D. apply orb_false_iff in D as [D _].
    unfold is_char. now rewrite D. }
  induction r as [|c r IH]; intros H.
  - now rewrite m_lazy, N.
  - rewrite m_lazy, N by exact H.
    cbn [contains] in H. apply orb_false_iff in H as [_ H].
    rewrite IH by exact H. now destruct (is_dot c).
Qed.

(** The space pattern on a collapsed product code with words behind it. *)
Lemma m_re_space_code (letters gap digits q : string) :
  all_chars is_AZ letters = true -> nonempty letters = true ->
  all_chars is_digit digits = true -> nonempty digits = true ->
  all_chars is_dot q = true -> starts_word q = true ->
  rmatch re_space
    ("WP" ++ letters ++ one_space gap ++ digits ++ " " ++ q)
  = Some [product_code letters gap digits; q].
Proof.
  intros L NL D ND Q SQ.
  destruct letters as [|l ls]; [discriminate|].
  destruct digits as [|dg ds]; [discriminate|].
  cbn [all_chars] in L, D.
  apply andb_prop in L as [Ll Ls]. apply andb_prop in D as [Dg Ds].
  unfold rmatch, re_space, product_code. cbn [app Lit Plus append].
  rewrite m_open, m_one. unfold is_char at 1. cbn [Ascii.eqb Bool.eqb].
  rewrite m_one. unfold is_char at 1. cbn [Ascii.eqb Bool.eqb].
  rewrite m_one, Ll.
  rewrite m_star_commit.
  2:{ intros c r Hc. destruct (letter_is_word c Hc) as (Cs & _ & _ & Cd).
      rewrite m_star_skip by (cbn; now rewrite Cs).
      rewrite m_one. now rewrite Cd. }
  rewrite take_while_app_all, drop_while_app_all by exact Ls.
  assert (G : all_chars is_space (one_space gap) = true)
    by apply one_space_blank.
  assert (A1 : take_while is_AZ
                 (one_space gap ++ String dg (ds ++ String " " q)) = ""
               /\ drop_while is_AZ
                    (one_space gap ++ String dg (ds ++ String " " q))
                  = one_space gap ++ String dg (ds ++ String " " q)).
  { unfold one_space. destruct (nonempty gap); cbn.
    - split; reflexivity.
    - destruct (digit_is_word dg Dg) as (_ & _ & _ & ->). split; reflexivity. }
  destruct A1 as (-> & ->).
  rewrite m_star_commit.
  2:{ intros c r Hc. rewrite m_one. now rewrite (space_not_digit c Hc). }
  rewrite take_while_app_all, drop_while_app_all by exact G.
  destruct (digit_is_word dg Dg) as (Gs & _).
  cbn [take_while drop_while]. rewrite Gs.
  rewrite m_one, Dg.
  rewrite m_star_commit.
  2:{ intros c r Hc. rewrite m_close, m_one.
      now destruct (digit_is_word c Hc) as (-> & _). }
  rewrite take_while_app_all, drop_while_app_all by exact Ds.
  cbn [take_while drop_while]. change (is_digit " ") with false. cbn iota.
  rewrite m_close, m_one. change (is_space " ") with true. cbn iota.
  rewrite m_star_skip.
  2:{ destruct q as [|c q']; [reflexivity|]. cbn in SQ |- *.
      apply negb_true_iff in SQ. now rewrite SQ. }
  pose proof (m_rest_group q Q) as R.
  assert (NQ : nonempty q = true) by (destruct q; [discriminate|reflexivity]).
  rewrite NQ in R. rewrite R.
  cbn [option_map add fst snd].
  rewrite !append_empty. rewrite !adds_group.
  cbn [add fst snd option_map]. rewrite !adds_group.
  cbn [add fst snd option_map]. rewrite !append_empty.
  reflexivity.
Qed.

Lemma letters_no_dash (w : string) :
  all_chars is_AZ w = true -> contains "-" w = false.
Proof.
  induction w as [|c w IH]; [reflexivity|]. cbn. intros H.
  apply andb_prop in H as [Hc Hw]. rewrite (IH Hw).
  now destruct (letter_is_word c Hc) as (_ & -> & _).
Qed.

Lemma digits_no_dash (w : string) :
  all_chars is_digit w = true -> contains "-" w = false.
Proof.
  induction w as [|c w IH]; [reflexivity|]. cbn. intros H.
  apply andb_prop in H as [Hc Hw]. rewrite (IH Hw).
  now destruct (digit_is_word c Hc) as (_ & -> & _).
Qed.

Lemma strip_product_code (letters gap digits : string) :
  all_chars is_digit digits = true -> nonempty digits = true ->
  strip (product_code letters gap digits) = product_code letters gap digits.
Proof.
  intros D ND. unfold product_code. cbn [append].
  apply strip_plain; [reflexivity|].
  change (String "W" (String "P" (letters ++ one_space gap ++ digits)))
    with ("WP" ++ letters ++ one_space gap ++ digits).
  rewrite <- !append_assoc.
  apply ends_in_word_app; [exact ND | now apply digits_end_in_word].
Qed.

(** The collapsed text of a product code with words behind it. *)
Lemma squeeze_code_words (lead letters gap digits sp rest : string) :
  all_chars is_AZ letters = true ->
  all_chars is_digit digits = true -> nonempty digits = true ->
  all_chars is_space lead = true -> all_chars is_space gap = true ->
  all_chars is_space sp = true -> nonempty sp = true ->
  blank rest = false ->
  squeeze GFresh (lead ++ "WP" ++ letters ++ gap ++ digits ++ sp ++ rest)
  = "WP" ++ letters ++ one_space gap ++ digits ++ " "
      ++ squeeze GFresh rest.
Proof.
  intros L D ND S0 S1 S2 N2 B.
  assert (W : forall w, all_chars is_AZ w = true ->
                        all_chars (fun c => negb (is_space c)) w = true).
  { induction w as [|c w IH]; [reflexivity|]. cbn. intros H.
    apply andb_prop in H as [Hc Hw].
    destruct (letter_is_word c Hc) as (-> & _). now apply IH. }
  assert (W' : forall w, all_chars is_digit w = true ->
                         all_chars (fun c => negb (is_space c)) w = true).
  { induction w as [|c w IH]; [reflexivity|]. cbn. intros H.
    apply andb_prop in H as [Hc Hw].
    destruct (digit_is_word c Hc) as (-> & _). now apply IH. }
  destruct digits as [|dg ds]; [discriminate|].
  cbn [all_chars] in D. apply andb_prop in D as [Dg Ds].
  destruct (digit_is_word dg Dg) as (Gs & _).
  rewrite squeeze_lead by exact S0. cbn [append].
  rewrite squeeze_WP by discriminate.
  rewrite (squeeze_word letters) by (discriminate || now apply W).
  replace (if nonempty letters then GWord else GWord) with GWord
    by now destruct (nonempty letters).
  rewrite squeeze_gap by (discriminate || assumption).
  rewrite (squeeze_word ds) by (discriminate || now apply W').
  replace (if nonempty ds then GWord else GWord) with GWord
    by now destruct (nonempty ds).
  rewrite squeeze_spaces by (discriminate || assumption).
  rewrite squeeze_after_gap by exact B.
  reflexivity.
Qed.

Lemma parse_code_words (lead letters gap digits sp rest : string) :
  all_chars is_AZ letters = true -> nonempty letters = true ->
  all_chars is_digit digits = true -> nonempty digits = true ->
  all_chars is_space lead = true -> all_chars is_space gap = true ->
  all_chars is_space sp = true -> nonempty sp = true ->
  blank rest = false -> contains "-" rest = false ->
  parse_sku (VStr (lead ++ "WP" ++ letters ++ gap ++ digits ++ sp ++ rest))
  = (Some (product_code letters gap digits), Some (join " " (split rest))).
Proof.
  intros L NL D ND S0 S1 S2 N2 B R.
  unfold parse_sku. cbn [str truthy].
  assert (N : nonempty
                (lead ++ "WP" ++ letters ++ gap ++ digits ++ sp ++ rest)
              = true)
    by now destruct lead.
  assert (B' : blank
                 (lead ++ "WP" ++ letters ++ gap ++ digits ++ sp ++ rest)
               = false).
  { rewrite blank_all_spaces, all_chars_app. cbn [append all_chars].
    change (is_space "W") with false. cbn [andb]. apply andb_false_r. }
  rewrite N, B'. cbn [negb orb].
  rewrite collapse_squeeze, squeeze_code_words by assumption.
  destruct (squeeze_starts rest B) as (c & q & Eq & Hc).
  assert (M1 : rmatch re_dash
                 ("WP" ++ letters ++ one_space gap ++ digits ++ " "
                    ++ squeeze GFresh rest) = None).
  { unfold rmatch, re_dash. cbn [app PlusLazy Lit Plus append].
    rewrite m_open, m_one. change (is_dot "W") with true. cbn iota.
    rewrite m_lazy_none; [reflexivity|].
    cbn [contains]. rewrite !contains_app. cbn [contains].
    rewrite (letters_no_dash letters L), (digits_no_dash digits D).
    rewrite (squeeze_no_dash GFresh rest R).
    unfold one_space. now destruct (nonempty gap). }
  rewrite M1.
  rewrite m_re_space_code; try assumption.
  2:{ apply squeeze_dot. }
  2:{ rewrite Eq. cbn. now rewrite Hc. }
  cbn [group Nat.sub nth].
  rewrite strip_product_code by assumption.
  assert (E2 : strip (squeeze GFresh rest) = squeeze GFresh rest).
  { pose proof (squeeze_ends GFresh rest) as E. rewrite Eq in E |- *.
    now apply strip_plain. }
  rewrite E2.
  assert (N1 : nonempty (product_code letters gap digits) = true)
    by reflexivity.
  rewrite N1. cbn [andb].
  rewrite (proj1 (join_split_squeeze rest)).
  destruct (contains " " (product_code letters gap digits));
    [|reflexivity].
  unfold product_code.
  rewrite re_space_code_none by (assumption || apply one_space_blank).
  reflexivity.
Qed.

(** X18: the base of a product code with words behind it.  For a SKU made
    of WP, capital letters and digits, then whitespace and a text without a
    dash, [parse_sku] gives the code as the base, its whitespace collapsed
    to one space, and the text as the variation, trimmed and with its
    whitespace collapsed. *)
Theorem parse_sku_code_words (lead letters gap digits sp rest : string) :
  all_chars is_AZ letters = true -> nonempty letters = true ->
  all_chars is_digit digits = true -> nonempty digits = true ->
  all_chars is_space lead = true -> all_chars is_space gap = true ->
  all_chars is_space sp = true -> nonempty sp = true ->
  blank rest = false -> contains "-" rest = false ->
  parse_sku (VStr (lead ++ "WP" ++ letters ++ gap ++ digits ++ sp ++ rest))
  = (Some (product_code letters gap digits), Some (join " " (split rest))).
Proof. apply parse_code_words. Qed.

Lemma parse_sku_code_words_witness :
  parse_sku (VStr " WPJF 0012   BLUE  MEDIUM ")
  = (Some "WPJF 0012", Some "BLUE MEDIUM").
Proof.
  exact (@parse_sku_code_words " " "JF" " " "0012" "   " "BLUE  MEDIUM "
           eq_refl eq_refl eq_refl eq_refl eq_refl eq_refl eq_refl eq_refl
           eq_refl eq_refl).
Defined.

(** ** The variations of a product *)

Lemma set_update_spec (l s : list string) :
  NoDup s ->
  NoDup (set_update s l)
  /\ forall x, In x (set_update s l) <-> In x s \/ In x l.
Proof.
  unfold set_update. revert s.
  induction l as [|a l IH]; intros s D; cbn [fold_left].
  - split; [exact D|]. intros x. cbn. tauto.
  - destruct (mem a s) eqn:E.
    + destruct (IH s D) as (D' & M). split; [exact D'|].
      intros x. rewrite M. cbn [In]. apply mem_In in E.
      split; [tauto | intros [H | [<- | H]]; tauto].
    + apply mem_not_In in E.
      assert (D1 : NoDup (s ++ [a])).
      { apply NoDup_app; [exact D | constructor; [intros [] | constructor] |].
        intros x Hx [<- | []]. now apply E. }
      destruct (IH _ D1) as (D' & M). split; [exact D'|].
      intros x. rewrite M, in_app_iff. cbn [In]. tauto.
Qed.

Section VariationsOf.

Variable dry_run : bool.
Variable upload_image : string -> option nat.

Lemma build_color_data_snoc (fm : folder_map) (vs : list variant)
    (v : variant) :
  build_color_data dry_run upload_image fm (vs ++ [v])
  = color_data_step dry_run upload_image fm
      (build_color_data dry_run upload_image fm vs) v.
Proof. unfold build_color_data. now rewrite fold_left_app. Qed.

(** One turn of the loop adds the sizes of the variant to the entry of its
    colour. *)
Lemma color_data_step_sizes (fm : folder_map)
    (d : list (string * ColorData.t)) (v : variant) (key : string)
    (cd : ColorData.t) :
  In (key, cd) (color_data_step dry_run upload_image fm d v) ->
  In (key, cd) d
  \/ exists old,
       (old = [] \/ exists cd0, In (key, cd0) d /\ old = ColorData.sizes cd0)
       /\ ColorData.sizes cd = set_update old (Variant.sizes v).
Proof.
  unfold color_data_step. intros H.
  apply dict_set_In in H as [(-> & ->) | H]; [|now left].
  right. cbn [ColorData.sizes].
  destruct (dict_get d _) as [cd0|] eqn:G.
  - exists (ColorData.sizes cd0). split; [|reflexivity].
    right. exists cd0. split; [now apply dict_get_In | reflexivity].
  - exists []. split; [now left | reflexivity].
Qed.

(** The sizes [color_data] holds for a colour are sizes of the variants,
    each once. *)
Lemma color_data_sizes (fm : folder_map) (variants : list variant)
    (key : string) (cd : ColorData.t) :
  In (key, cd) (build_color_data dry_run upload_image fm variants) ->
  NoDup (ColorData.sizes cd)
  /\ forall x, In x (ColorData.sizes cd) ->
               exists v, In v variants /\ In x (Variant.sizes v).
Proof.
  revert key cd. induction variants as [|v vs IH] using rev_ind;
    intros key cd; [intros []|].
  rewrite build_color_data_snoc. intros H.
  apply color_data_step_sizes in H as [H | (old & O & E)].
  - destruct (IH _ _ H) as (D & M). split; [exact D|].
    intros x Hx. destruct (M x Hx) as (w & Hw & Hs). exists w.
    split; [apply in_or_app; now left | exact Hs].
  - assert (C : NoDup old
                /\ forall x, In x old ->
                             exists w, In w vs /\ In x (Variant.sizes w)).
    { destruct O as [-> | (cd0 & H0 & ->)].
      - split; [constructor | intros x []].
      - exact (IH _ _ H0). }
    destruct C as (C1 & C2).
    destruct (set_update_spec (Variant.sizes v) C1) as (D & M).
    rewrite E. split; [exact D|]. intros x Hx. apply M in Hx as [Hx | Hx].
    + destruct (C2 x Hx) as (w & Hw & Hs). exists w.
      split; [apply in_or_app; now left | exact Hs].
    + exists v. split; [apply in_or_app; right; now left | exact Hx].
Qed.

End VariationsOf.

Lemma NoDup_map_with (A B : Type) (l : list A) (b : B) :
  NoDup l -> NoDup (map (fun a => (a, b)) l).
Proof.
  induction 1 as [|a l N D IH]; cbn [map]; constructor; [|exact IH].
  intros H. apply in_map_iff in H as (a' & E & H). injection E as ->.
  contradiction.
Qed.

Lemma color_variations_keys (color_data : list (string * ColorData.t))
    (all_sizes : list string) (default_price : option string)
    (color : option string) :
  exists color_sizes,
    map request_key
      (color_variations color_data all_sizes default_price color)
    = map (fun size => (size, color)) color_sizes
    /\ List.length
         (color_variations color_data all_sizes default_price color)
       = List.length color_sizes
    /\ (forall r,
          In r (color_variations color_data all_sizes default_price color) ->
          Variation.size (snd r) = fst (fst r)
          /\ Variation.color (snd r)
             = (if truthy_text color then color else None)
          /\ snd (fst r) = color /\ In (fst (fst r)) color_sizes)
    /\ (color_sizes = all_sizes
        \/ exists c cd, color = Some c /\ dict_get color_data c = Some cd
                        /\ color_sizes = ColorData.sizes cd).
Proof.
  unfold color_variations.
  set (cd := match color with
             | Some c =>
                 match dict_get color_data c with
                 | Some cd => cd
                 | None => ColorData.mk all_sizes default_price None
                 end
             | None => ColorData.mk all_sizes default_price None
             end).
  exists (match ColorData.sizes cd with [] => all_sizes | s => s end).
  split; [now rewrite map_map|]. split; [now rewrite length_map|]. split.
  - intros r H. apply in_map_iff in H as (size & <- & H). cbn.
    repeat split. exact H.
  - destruct (ColorData.sizes cd) as [|x l] eqn:E; [now left|].
    subst cd. destruct color as [c|]; [|left; now rewrite <- E].
    destruct (dict_get color_data c) as [cd|] eqn:G;
      [|left; now rewrite <- E].
    right. exists c, cd. now rewrite E.
Qed.

(** The variations of a list of colours over the sizes [S]. *)
Lemma requests_shape (color_data : list (string * ColorData.t))
    (S : list string) (default_price : option string)
    (colors : list (option string)) :
  NoDup S -> NoDup colors ->
  (forall key cd, dict_get color_data key = Some cd ->
     NoDup (ColorData.sizes cd) /\ incl (ColorData.sizes cd) S) ->
  NoDup (map request_key
           (flat_map (color_variations color_data S default_price) colors))
  /\ (forall r,
        In r (flat_map (color_variations color_data S default_price) colors)
        -> In (fst (fst r)) S /\ In (snd (fst r)) colors
           /\ Variation.size (snd r) = fst (fst r)
           /\ Variation.color (snd r)
              = (if truthy_text (snd (fst r)) then snd (fst r) else None))
  /\ List.length
       (flat_map (color_variations color_data S default_price) colors)
     <= List.length S * List.length colors.
Proof.
  intros DS DC HD.
  induction colors as [|color colors IH]; cbn [flat_map].
  - split; [constructor|]. split; [intros r []|]. cbn. lia.
  - inversion DC as [|? ? Nc DC']; subst.
    destruct (IH DC') as (I1 & I2 & I3).
    destruct (color_variations_keys color_data S default_price color)
      as (cs & K1 & K2 & K3 & K4).
    assert (P : NoDup cs /\ incl cs S).
    { destruct K4 as [-> | (c & cd & _ & G & ->)].
      - split; [exact DS | apply incl_refl].
      - exact (HD c cd G). }
    destruct P as (P1 & P2).
    split; [|split].
    + rewrite map_app, K1. apply NoDup_app.
      * now apply NoDup_map_with.
      * exact I1.
      * intros k Hk Hk'. apply in_map_iff in Hk as (size & <- & _).
        apply in_map_iff in Hk' as (r & E & Hr).
        destruct (I2 r Hr) as (_ & Hc & _).
        unfold request_key in E. injection E as _ E. rewrite E in Hc.
        contradiction.
    + intros r Hr. apply in_app_or in Hr as [Hr | Hr].
      * destruct (K3 r Hr) as (A1 & A2 & A3 & A4).
        rewrite A3. repeat split; try assumption.
        -- now apply P2.
        -- now left.
      * destruct (I2 r Hr) as (A1 & A2 & A3 & A4).
        repeat split; try assumption. now right.
    + rewrite length_app, K2. cbn [List.length].
      pose proof (NoDup_incl_length P1 P2). nia.
Qed.

Lemma NoDup_map_Some (A : Type) (l : list A) :
  NoDup l -> NoDup (map Some l).
Proof.
  induction 1 as [|a l N D IH]; cbn [map]; constructor; [|exact IH].
  intros H. apply in_map_iff in H as (a' & E & H). injection E as ->.
  contradiction.
Qed.

Lemma effective_colors_spec (all_colors : list string) :
  NoDup all_colors ->
  NoDup (effective_colors all_colors)
  /\ List.length (effective_colors all_colors)
     = Nat.max 1 (List.length all_colors)
  /\ forall color, In color (effective_colors all_colors) ->
       match color with
       | Some c => In c all_colors
       | None => all_colors = []
       end.
Proof.
  intros D. destruct all_colors as [|c l].
  - cbn. split; [repeat constructor; intros []|]. split; [reflexivity|].
    intros color [<- | []]. reflexivity.
  - unfold effective_colors. split; [now apply NoDup_map_Some|].
    split; [rewrite length_map; cbn; lia|].
    intros color H. apply in_map_iff in H as (x & <- & H). exact H.
Qed.

(** X19: the variations sent for a product stay within its options.  For
    the sizes and colours [create_product_from_group] has collected,
    [create_variations] sends every pair of a size and a colour at most
    once; each size is one of the sizes of the product and is the size
    option of the data sent, each colour is one of the colours of the
    product and is the colour option sent, and a variation without a colour
    is sent only for a product without colours, which then gets one
    variation for each of its sizes; so at most sizes times colours
    variations are sent (sizes, without colours), and the number
    [create_variations] returns is at most the number sent. *)
Theorem variations_within_options (dry_run : bool)
    (upload_image : string -> option nat) (fm : folder_map)
    (variants : list variant) (default_price : option string) :
  NoDup (map request_key
           (group_variations dry_run upload_image fm variants default_price))
  /\ (forall size color data,
        In (size, color, data)
          (group_variations dry_run upload_image fm variants default_price)
        -> In size (collect_sizes variants)
           /\ Variation.size data = size
           /\ Variation.color data = color
           /\ match color with
              | Some c => In c (collect_colors variants)
              | None => collect_colors variants = []
              end)
  /\ (collect_colors variants = [] ->
      map request_key
        (group_variations dry_run upload_image fm variants default_price)
      = map (fun size => (size, None)) (collect_sizes variants))
  /\ List.length
       (group_variations dry_run upload_image fm variants default_price)
     <= List.length (collect_sizes variants)
        * Nat.max 1 (List.length (collect_colors variants))
  /\ forall api_get_variations api_put api_post product_id n,
       create_variations dry_run upload_image api_get_variations api_put
         api_post product_id variants fm (collect_sizes variants)
         (collect_colors variants) default_price = Some n ->
       n <= List.length
              (group_variations dry_run upload_image fm variants
                 default_price).
Proof.
  unfold group_variations.
  destruct (sorted_sizes_spec (flat_map Variant.sizes variants))
    as (_ & DS & MS).
  fold (collect_sizes variants) in DS, MS.
  destruct (collect_colors_spec variants) as (DC & MC).
  destruct (effective_colors_spec DC) as (E1 & E2 & E3).
  destruct (@requests_shape
              (build_color_data dry_run upload_image fm variants)
              (collect_sizes variants) default_price
              (effective_colors (collect_colors variants)) DS E1)
    as (R1 & R2 & R3).
  { intros key cd G. apply dict_get_In in G.
    destruct (color_data_sizes _ _ _ _ _ _ G) as (D & M).
    split; [exact D|]. intros x Hx. apply MS, in_flat_map.
    exact (M x Hx). }
  unfold variation_requests.
  split; [exact R1|]. split; [|split; [|split]].
  - intros size color data H.
    destruct (R2 _ H) as (A1 & A2 & A3 & A4). cbn [fst snd] in *.
    split; [exact A1|]. split; [exact A3|].
    specialize (E3 color A2). destruct color as [c|].
    + split; [|exact E3]. rewrite A4. cbn [truthy_text].
      apply MC in E3 as (v & _ & _ & N & ->). now rewrite N.
    + split; [exact A4 | exact E3].
  - intros C0. rewrite C0. cbn [effective_colors flat_map].
    rewrite app_nil_r. unfold color_variations. cbn [ColorData.sizes].
    rewrite map_map. cbn [request_key fst snd].
    now destruct (collect_sizes variants).
  - rewrite <- E2. exact R3.
  - intros api_get_variations api_put api_post product_id n.
    unfold create_variations.
    destruct (api_get_variations product_id); [|discriminate].
    intros H. injection H as <-. apply filter_length_le.
Qed.

Lemma variations_within_options_witness :
  1 <= List.length
         (group_variations false (fun _ => None) []
            [named_variant 0 "WPJF 001-127" (VStr "Jean")] None).
Proof.
  apply (proj2 (proj2 (proj2 (proj2
           (@variations_within_options false (fun _ => None) []
              [named_variant 0 "WPJF 001-127" (VStr "Jean")] None))))
           (fun _ => Some []) (fun _ _ _ => true) (fun _ _ => true) 7 1).
  reflexivity.
Defined.

Lemma first_price_truthy (color : string) (variants : list variant)
    (p : option string) :
  first_price color variants = p -> p <> None -> truthy_text p = true.
Proof.
  induction variants as [|v r IH]; cbn [first_price].
  - intros <- N. contradiction.
  - destruct (String.eqb (variant_color v) color
              && truthy_text (Variant.price v)) eqn:E; [|exact IH].
    intros <- _. now apply andb_prop in E.
Qed.

Lemma first_price_app (color : string) (a b : list variant) :
  first_price color (a ++ b)
  = match first_price color a with
    | Some p => Some p
    | None => first_price color b
    end.
Proof.
  induction a as [|v r IH]; [reflexivity|].
  cbn [app first_price].
  destruct (String.eqb (variant_color v) color
            && truthy_text (Variant.price v)) eqn:E; [|exact IH].
  apply andb_prop in E as [_ E].
  destruct (Variant.price v); [reflexivity | discriminate].
Qed.

Lemma first_price_none (color : string) (variants : list variant) :
  (forall v, In v variants -> variant_color v <> color) ->
  first_price color variants = None.
Proof.
  induction variants as [|v r IH]; [reflexivity|].
  intros H. cbn [first_price].
  assert (E : String.eqb (variant_color v) color = false).
  { apply String.eqb_neq. apply H. now left. }
  rewrite E. cbn [andb]. apply IH. intros w Hw. apply H. now right.
Qed.

Section EntryOf.

Variable dry_run : bool.
Variable upload_image : string -> option nat.

(** What [color_data] holds for a colour: the sizes and the first true
    price of the variants filed under it. *)
Lemma color_data_entry (fm : folder_map) (variants : list variant)
    (key : string) :
  match dict_get (build_color_data dry_run upload_image fm variants) key with
  | Some cd =>
      (forall x, In x (ColorData.sizes cd)
                 <-> exists v, In v variants /\ variant_color v = key
                               /\ In x (Variant.sizes v))
      /\ (if truthy_text (ColorData.price cd) then ColorData.price cd
          else None) = first_price key variants
  | None => forall v, In v variants -> variant_color v <> key
  end.
Proof.
  induction variants as [|v vs IH] using rev_ind; [intros v []|].
  rewrite build_color_data_snoc. unfold color_data_step.
  fold (variant_color v).
  set (d := build_color_data dry_run upload_image fm vs) in *.
  destruct (String.eqb (variant_color v) key) eqn:K.
  - apply String.eqb_eq in K. rewrite <- K in IH |- *.
    rewrite dict_get_set_same. cbn [ColorData.sizes ColorData.price].
    assert (S1 : first_price (variant_color v) [v]
                 = if truthy_text (Variant.price v) then Variant.price v
                   else None).
    { cbn [first_price]. rewrite String.eqb_refl. cbn [andb].
      now destruct (truthy_text (Variant.price v)). }
    destruct (dict_get d (variant_color v)) as [cd0|] eqn:G.
    + destruct IH as (M & P).
      assert (D0 : NoDup (ColorData.sizes cd0)).
      { apply dict_get_In in G.
        exact (proj1 (color_data_sizes _ _ _ _ _ _ G)). }
      destruct (set_update_spec (Variant.sizes v) D0) as (_ & MU).
      split.
      * intros x. rewrite MU, M. split.
        -- intros [(w & Hw & Ew & Hx) | Hx].
           ++ exists w. split; [apply in_or_app; now left | now split].
           ++ exists v. split; [apply in_or_app; right; now left|].
              now split.
        -- intros (w & Hw & Ew & Hx).
           apply in_app_or in Hw as [Hw | [<- | []]].
           ++ left. now exists w.
           ++ now right.
      * rewrite first_price_app, <- P, S1.
        destruct (truthy_text (ColorData.price cd0)) eqn:T0.
        -- rewrite andb_false_r, T0.
           destruct (ColorData.price cd0); [reflexivity | discriminate].
        -- rewrite andb_true_r.
           destruct (truthy_text (Variant.price v)) eqn:Tv;
             [now rewrite Tv | now rewrite T0].
    + cbn [ColorData.sizes ColorData.price].
      destruct (@set_update_spec (Variant.sizes v) [] (NoDup_nil _))
        as (_ & MU).
      split.
      * intros x. rewrite MU. cbn [In]. split.
        -- intros [[] | Hx]. exists v.
           split; [apply in_or_app; right; now left | now split].
        -- intros (w & Hw & Ew & Hx).
           apply in_app_or in Hw as [Hw | [<- | []]]; [|now right].
           exfalso. exact (IH w Hw Ew).
      * rewrite first_price_app, (first_price_none _ IH), S1.
        destruct (Variant.price v) as [[|c p]|]; reflexivity.
  - assert (N : variant_color v <> key) by now apply String.eqb_neq.
    rewrite (dict_get_set_other _ _ N).
    destruct (dict_get d key) as [cd|].
    + destruct IH as (M & P). split.
      * intros x. rewrite M. split.
        -- intros (w & Hw & R). exists w.
           split; [apply in_or_app; now left | exact R].
        -- intros (w & Hw & Ew & Hx).
           apply in_app_or in Hw as [Hw | [<- | []]];
             [now exists w | contradiction].
      * rewrite first_price_app, <- P.
        assert (F : first_price key [v] = None).
        { cbn [first_price]. now rewrite K. }
        rewrite F. now destruct (truthy_text (ColorData.price cd)),
                                (ColorData.price cd).
    + intros w Hw. apply in_app_or in Hw as [Hw | [<- | []]];
        [now apply IH | exact N].
Qed.

End EntryOf.

Lemma color_variations_entry (color_data : list (string * ColorData.t))
    (all_sizes : list string) (default_price : option string) (c : string)
    (cd : ColorData.t) :
  dict_get color_data c = Some cd ->
  color_variations color_data all_sizes default_price (Some c)
  = map
      (fun size =>
         (size, Some c,
          Variation.mk
            (price_text
               (if truthy_text (ColorData.price cd) then ColorData.price cd
                else default_price))
            size
            (if nonempty c then Some c else None)
            (if truthy_id (ColorData.image_id cd) then ColorData.image_id cd
             else None)))
      match ColorData.sizes cd with
      | [] => all_sizes
      | sizes => sizes
      end.
Proof. intros G. unfold color_variations. now rewrite G. Qed.

Lemma color_variations_color (color_data : list (string * ColorData.t))
    (all_sizes : list string) (default_price : option string)
    (color color' : option string) (size : string) (data : Variation.t) :
  In (size, color', data)
    (color_variations color_data all_sizes default_price color) ->
  color' = color.
Proof.
  unfold color_variations. intros H.
  apply in_map_iff in H as (s & E & _). now injection E.
Qed.

(** X20: the sizes and the price of the variations of a colour.  For a
    colour of the product, [create_variations] sends a variation of a size
    exactly when a variant of that colour has the size or, if no variant of
    that colour has any size, when the size is one of the sizes of the
    product; the price sent is the first true price among the variants of
    that colour and else the default price, the empty text for none. *)
Theorem variations_of_colour (dry_run : bool)
    (upload_image : string -> option nat) (fm : folder_map)
    (variants : list variant) (default_price : option string)
    (c size : string) :
  In c (collect_colors variants) ->
  ((exists data,
      In (size, Some c, data)
        (group_variations dry_run upload_image fm variants default_price))
   <-> (exists v, In v variants /\ variant_color v = c
                  /\ In size (Variant.sizes v))
       \/ ((forall v, In v variants -> variant_color v = c ->
                      Variant.sizes v = [])
           /\ In size (collect_sizes variants)))
  /\ forall data,
       In (size, Some c, data)
         (group_variations dry_run upload_image fm variants default_price) ->
       Variation.regular_price data
       = price_text
           match first_price c variants with
           | Some p => Some p
           | None => default_price
           end.
Proof.
  intros Hc.
  destruct (collect_colors_spec variants) as (_ & MC).
  pose proof Hc as Hv. apply MC in Hv as (v0 & Hv0 & T0 & _ & E0).
  assert (K0 : variant_color v0 = c).
  { unfold variant_color. now rewrite T0. }
  pose proof (color_data_entry dry_run upload_image fm variants c) as CE.
  destruct (dict_get (build_color_data dry_run upload_image fm variants) c)
    as [cd|] eqn:G; [|exfalso; exact (CE v0 Hv0 K0)].
  destruct CE as (M & P).
  assert (R : forall data,
            In (size, Some c, data)
              (group_variations dry_run upload_image fm variants
                 default_price)
            <-> In (size, Some c, data)
                  (color_variations
                     (build_color_data dry_run upload_image fm variants)
                     (collect_sizes variants) default_price (Some c))).
  { intros data. unfold group_variations, variation_requests.
    rewrite in_flat_map. split.
    - intros (color & _ & H).
      pose proof (color_variations_color _ _ _ _ _ _ _ H) as E.
      now subst color.
    - intros H. exists (Some c). split; [|exact H].
      unfold effective_colors.
      destruct (collect_colors variants) as [|c0 l]; [destruct Hc|].
      now apply in_map. }
  rewrite (@color_variations_entry _ (collect_sizes variants) default_price
             c cd G) in R.
  split.
  - split.
    + intros (data & H). apply R, in_map_iff in H as (s & E & H).
      injection E as -> _.
      destruct (ColorData.sizes cd) as [|x l] eqn:S.
      * right. split; [|exact H]. intros v Hv Kv.
        destruct (Variant.sizes v) as [|y r] eqn:Sv; [reflexivity|].
        exfalso. apply (proj2 (M y)). exists v.
        split; [exact Hv|]. split; [exact Kv|]. rewrite Sv. now left.
      * left. now apply M.
    + intros [H | (H1 & H2)].
      * apply M in H. eexists. apply R, in_map_iff. exists size.
        split; [reflexivity|].
        destruct (ColorData.sizes cd); [destruct H | exact H].
      * eexists. apply R, in_map_iff. exists size. split; [reflexivity|].
        destruct (ColorData.sizes cd) as [|x l] eqn:S; [exact H2|].
        exfalso.
        destruct (proj1 (M x) (or_introl eq_refl)) as (v & Hv & Kv & Hx).
        rewrite (H1 v Hv Kv) in Hx. destruct Hx.
  - intros data H. apply R, in_map_iff in H as (s & E & _).
    injection E as _ <-. cbn [Variation.regular_price].
    rewrite <- P.
    destruct (truthy_text (ColorData.price cd)) eqn:T; [|reflexivity].
    destruct (ColorData.price cd); [reflexivity | discriminate].
Qed.

Lemma variations_of_colour_witness :
  ((exists data,
      In ("3-4", Some "Bleu", data)
        (group_variations false (fun _ => None) []
           [Variant.mk 0 [] "WPJF 001-127" (Some "127") (VStr "Rouge")
              ["2-3"] (Some "12.5") (VStr "Jean") VNone (VStr "") (VStr "");
            Variant.mk 1 [] "WPJF 001-120" (Some "120") (VStr " Bleu ")
              ["3-4"] None VNone VNone (VStr "") (VStr "")]
           (Some "12.5")))
   <-> (exists v,
          In v [Variant.mk 0 [] "WPJF 001-127" (Some "127") (VStr "Rouge")
                  ["2-3"] (Some "12.5") (VStr "Jean") VNone (VStr "")
                  (VStr "");
                Variant.mk 1 [] "WPJF 001-120" (Some "120") (VStr " Bleu ")
                  ["3-4"] None VNone VNone (VStr "") (VStr "")]
          /\ variant_color v = "Bleu" /\ In "3-4" (Variant.sizes v))
       \/ ((forall v,
              In v [Variant.mk 0 [] "WPJF 001-127" (Some "127")
                      (VStr "Rouge") ["2-3"] (Some "12.5") (VStr "Jean")
                      VNone (VStr "") (VStr "");
                    Variant.mk 1 [] "WPJF 001-120" (Some "120")
                      (VStr " Bleu ") ["3-4"] None VNone VNone (VStr "")
                      (VStr "")] ->
              variant_color v = "Bleu" -> Variant.sizes v = [])
           /\ In "3-4"
                (collect_sizes
                   [Variant.mk 0 [] "WPJF 001-127" (Some "127")
                      (VStr "Rouge") ["2-3"] (Some "12.5") (VStr "Jean")
                      VNone (VStr "") (VStr "");
                    Variant.mk 1 [] "WPJF 001-120" (Some "120")
                      (VStr " Bleu ") ["3-4"] None VNone VNone (VStr "")
                      (VStr "")])))
  /\ forall data,
       In ("3-4", Some "Bleu", data)
         (group_variations false (fun _ => None) []
            [Variant.mk 0 [] "WPJF 001-127" (Some "127") (VStr "Rouge")
               ["2-3"] (Some "12.5") (VStr "Jean") VNone (VStr "") (VStr "");
             Variant.mk 1 [] "WPJF 001-120" (Some "120") (VStr " Bleu ")
               ["3-4"] None VNone VNone (VStr "") (VStr "")]
            (Some "12.5")) ->
       Variation.regular_price data = "12.5".
Proof.
  apply (@variations_of_colour false (fun _ => None) []
           [Variant.mk 0 [] "WPJF 001-127" (Some "127") (VStr "Rouge")
              ["2-3"] (Some "12.5") (VStr "Jean") VNone (VStr "") (VStr "");
            Variant.mk 1 [] "WPJF 001-120" (Some "120") (VStr " Bleu ")
              ["3-4"] None VNone VNone (VStr "") (VStr "")]
           (Some "12.5") "Bleu" "3-4").
  right. left. reflexivity.
Defined.

(** ** From the scanned folders to the images of a SKU *)

Lemma sub_dup_none (s : string) :
  contains "(" s = false -> Re.sub re_dup_suffix "" s = s.
Proof.
  unfold Re.sub. induction s as [|c r IH]; [reflexivity|].
  intros H. cbn [sub_from]. rewrite m_dup_suffix.
  pose proof (contains_drop_while is_space "(" (String c r) H) as D.
  destruct (drop_while is_space (String c r)) as [|e u].
  - cbn [contains] in H. apply orb_false_iff in H as [_ H].
    now rewrite IH.
  - cbn [contains] in D. apply orb_false_iff in D as [D _]. rewrite D.
    cbn [contains] in H. apply orb_false_iff in H as [_ H].
    now rewrite IH.
Qed.

Lemma get_folder_key_plain (name : string) :
  contains "(" name = false ->
  get_folder_key name = upper (replace " " "" name).
Proof. intros H. unfold get_folder_key. now rewrite sub_dup_none. Qed.

(** X21: a folder named after the key of a SKU gives the SKU its images.
    If the images directory lists a folder whose name has no parenthesis and
    is, in upper case and without its blanks, the key [find_images_for_sku]
    looks up first for a SKU, then the SKU gets the image files of a folder
    of the listing with that key: of this folder, or of one with the same
    key listed after it. *)
Theorem folder_named_by_key_found (images_dir : string)
    (items : list dir_item) (raw_sku : value) (key name : string)
    (listing : list string) :
  exact_key raw_sku = Some key ->
  In (Folder name listing) items ->
  contains "(" name = false ->
  upper (replace " " "" name) = key ->
  exists name' listing',
    In (Folder name' listing') items
    /\ get_folder_key name' = key
    /\ find_images_for_sku raw_sku
         (scan_image_folders images_dir (Some items))
       = map (path_join (path_join images_dir name'))
           (filter is_image_file listing').
Proof.
  intros K H P U.
  rewrite <- (get_folder_key_plain name P) in U.
  destruct (scan_reaches images_dir items name listing H) as (info & G & E).
  rewrite U in G, E.
  pose proof (dict_get_In _ _ G) as I.
  destruct (scan_entries _ _ _ _ I) as (listing' & I1 & _ & I3 & I4).
  exists (Folder.name info), listing'.
  split; [exact I1|]. split; [exact E|].
  rewrite (find_images_exact raw_sku _ K G), I4, I3. reflexivity.
Qed.

Lemma folder_named_by_key_found_witness :
  exists name' listing',
    In (Folder name' listing')
      [PlainFile "notes.txt"; Folder "wpjf001-127" ["a.JPG"; "b.txt"]]
    /\ get_folder_key name' = "WPJF001-127"
    /\ find_images_for_sku (VStr "wpjf 001 - 127")
         (scan_image_folders "./images"
            (Some [PlainFile "notes.txt";
                   Folder "wpjf001-127" ["a.JPG"; "b.txt"]]))
       = map (path_join (path_join "./images" name'))
           (filter is_image_file listing').
Proof.
  apply (@folder_named_by_key_found "./images"
           [PlainFile "notes.txt"; Folder "wpjf001-127" ["a.JPG"; "b.txt"]]
           (VStr "wpjf 001 - 127") "WPJF001-127" "wpjf001-127"
           ["a.JPG"; "b.txt"]).
  - vm_compute. reflexivity.
  - right. left. reflexivity.
  - reflexivity.
  - vm_compute. reflexivity.
Defined.

(** ** The rows of one product code *)

Lemma squeeze_code_alone (lead letters gap digits trail : string) :
  all_chars is_AZ letters = true ->
  all_chars is_digit digits = true -> nonempty digits = true ->
  all_chars is_space lead = true -> all_chars is_space gap = true ->
  all_chars is_space trail = true ->
  squeeze GFresh (lead ++ "WP" ++ letters ++ gap ++ digits ++ trail)
  = "WP" ++ letters ++ one_space gap ++ digits.
Proof.
  intros L D ND S0 S1 S2.
  assert (W : forall w, all_chars is_AZ w = true ->
                        all_chars (fun c => negb (is_space c)) w = true).
  { induction w as [|c w IH]; [reflexivity|]. cbn. intros H.
    apply andb_prop in H as [Hc Hw].
    destruct (letter_is_word c Hc) as (-> & _). now apply IH. }
  assert (W' : forall w, all_chars is_digit w = true ->
                         all_chars (fun c => negb (is_space c)) w = true).
  { induction w as [|c w IH]; [reflexivity|]. cbn. intros H.
    apply andb_prop in H as [Hc Hw].
    destruct (digit_is_word c Hc) as (-> & _). now apply IH. }
  destruct digits as [|dg ds]; [discriminate|].
  cbn [all_chars] in D. apply andb_prop in D as [Dg Ds].
  destruct (digit_is_word dg Dg) as (Gs & _).
  rewrite squeeze_lead by exact S0. cbn [append].
  rewrite squeeze_WP by discriminate.
  rewrite (squeeze_word letters) by (discriminate || now apply W).
  replace (if nonempty letters then GWord else GWord) with GWord
    by now destruct (nonempty letters).
  rewrite squeeze_gap by (discriminate || assumption).
  rewrite (squeeze_word ds) by (discriminate || now apply W').
  rewrite squeeze_trail by exact S2. now rewrite append_empty.
Qed.

(** A product code alone is its own base. *)
Lemma parse_code_alone (lead letters gap digits trail : string) :
  all_chars is_AZ letters = true ->
  all_chars is_digit digits = true -> nonempty digits = true ->
  all_chars is_space lead = true -> all_chars is_space gap = true ->
  all_chars is_space trail = true ->
  parse_sku (VStr (lead ++ "WP" ++ letters ++ gap ++ digits ++ trail))
  = (Some (product_code letters gap digits), None).
Proof.
  intros L D ND S0 S1 S2.
  unfold parse_sku. cbn [str truthy].
  assert (N : nonempty (lead ++ "WP" ++ letters ++ gap ++ digits ++ trail)
              = true)
    by now destruct lead.
  assert (B : blank (lead ++ "WP" ++ letters ++ gap ++ digits ++ trail)
              = false).
  { rewrite blank_all_spaces, all_chars_app. cbn [append all_chars].
    change (is_space "W") with false. cbn [andb]. apply andb_false_r. }
  rewrite N, B. cbn [negb orb].
  rewrite collapse_squeeze, squeeze_code_alone by assumption.
  assert (M1 : rmatch re_dash ("WP" ++ letters ++ one_space gap ++ digits)
               = None).
  { unfold rmatch, re_dash. cbn [app PlusLazy Lit Plus append].
    rewrite m_open, m_one. change (is_dot "W") with true. cbn iota.
    rewrite m_lazy_none; [reflexivity|].
    cbn [contains]. rewrite !contains_app.
    rewrite (letters_no_dash letters L), (digits_no_dash digits D).
    unfold one_space. now destruct (nonempty gap). }
  rewrite M1.
  rewrite re_space_code_none by (assumption || apply one_space_blank).
  fold (product_code letters gap digits).
  assert (N1 : nonempty (product_code letters gap digits) = true)
    by reflexivity.
  rewrite N1. cbn [andb].
  destruct (contains " " (product_code letters gap digits));
    [|reflexivity].
  unfold product_code.
  rewrite re_space_code_none by (assumption || apply one_space_blank).
  reflexivity.
Qed.

Lemma parse_sku_of_code (code s : string) :
  sku_of_code code s ->
  fst (parse_sku (VStr s)) = Some code /\ nonempty code = true.
Proof.
  intros (lead & letters & gap & digits & S0 & L & NL & S1 & D & ND & -> & H).
  split; [|reflexivity].
  destruct H as [(trail & S2 & ->)
                | [(sp1 & sp2 & d & trail & S2 & S3 & V & NV & S4 & ->)
                  | (sp & rest & S2 & N2 & B & R & ->)]].
  - now rewrite parse_code_alone.
  - now rewrite parse_code_dash.
  - now rewrite parse_code_words.
Qed.

Lemma NoDup_fst_same (A B : Type) (l : list (A * B)) (k : A) (x y : B) :
  NoDup (map fst l) -> In (k, x) l -> In (k, y) l -> x = y.
Proof.
  induction l as [|[k0 z] l IH]; [intros _ []|].
  cbn [map fst]. intros D Hx Hy. inversion D as [|? ? N D']; subst.
  destruct Hx as [Ex | Hx], Hy as [Ey | Hy].
  - congruence.
  - injection Ex as -> ->. exfalso. apply N.
    apply in_map_iff. now exists (k, y).
  - injection Ey as -> ->. exfalso. apply N.
    apply in_map_iff. now exists (k, x).
  - now apply IH.
Qed.

(** X23: the rows of one product code go into one group.  Two rows of the
    range whose SKU cells are texts of the same product code (the code
    alone, with a numeric dash variation or with a text behind it, and with
    any whitespace around the parts) are variants of the same group of
    [group_rows_by_base_sku], the group whose key is the code. *)
Theorem rows_of_a_code_share_group (clean_price : value -> option string)
    (df : list (list value)) (start_row end_row : nat)
    (groups : list (string * list variant)) (code : string)
    (idx1 idx2 : nat) (s1 s2 : string) :
  group_rows_by_base_sku clean_price df start_row end_row = Some groups ->
  start_row <= idx1 < end_row -> start_row <= idx2 < end_row ->
  sku_cell df idx1 = Some (VStr s1) -> sku_cell df idx2 = Some (VStr s2) ->
  sku_of_code code s1 -> sku_of_code code s2 ->
  exists vs v1 v2,
    In (code, vs) groups /\ In v1 vs /\ In v2 vs
    /\ Variant.row_idx v1 = idx1 /\ Variant.row_idx v2 = idx2.
Proof.
  intros E R1 R2 C1 C2 K1 K2.
  destruct (group_rows_grouped _ _ _ _ E) as (ND & _ & G3).
  assert (B : forall idx s, sku_cell df idx = Some (VStr s) ->
                sku_of_code code s -> row_base df idx = Some code).
  { intros idx s C K. unfold sku_cell in C. unfold row_base.
    destruct (nth_error df idx) as [row|]; [|discriminate].
    rewrite C. cbn [isna].
    destruct (parse_sku_of_code K) as (-> & ->). reflexivity. }
  destruct (G3 idx1 code R1 (B _ _ C1 K1)) as (vs1 & v1 & H1 & I1 & E1).
  destruct (G3 idx2 code R2 (B _ _ C2 K2)) as (vs2 & v2 & H2 & I2 & E2).
  rewrite (@NoDup_fst_same _ _ groups code vs2 vs1 ND H2 H1) in I2.
  now exists vs1, v1, v2.
Qed.

Lemma rows_of_a_code_share_group_witness :
  match
    group_rows_by_base_sku no_price
      [sku_row "WPJF 001-127"; sku_row "WPGR002";
       sku_row " WPJF  001 BLUE "] 0 3
  with
  | Some groups =>
      exists vs v1 v2,
        In ("WPJF 001", vs) groups /\ In v1 vs /\ In v2 vs
        /\ Variant.row_idx v1 = 0 /\ Variant.row_idx v2 = 2
  | None => False
  end.
Proof.
  destruct (group_rows_by_base_sku no_price
              [sku_row "WPJF 001-127"; sku_row "WPGR002";
               sku_row " WPJF  001 BLUE "] 0 3) as [groups|] eqn:E;
    [|vm_compute in E; discriminate E].
  apply (@rows_of_a_code_share_group no_price _ 0 3 groups "WPJF 001" 0 2
           "WPJF 001-127" " WPJF  001 BLUE " E).
  - lia.
  - lia.
  - reflexivity.
  - reflexivity.
  - exists "", "JF", " ", "001". repeat split.
    right. left. exists "", "", "127", "". repeat split.
  - exists " ", "JF", "  ", "001". repeat split.
    right. right. exists " ", "BLUE ". repeat split.
Defined.
